(** * Rhyolite API: a shallow embedding of [datamodel.py] and [server.py]

    The five tables of [datamodel.py] become finite maps keyed by their
    primary keys, every endpoint of [server.py] becomes a computation in a
    small state-and-exception monad over the database and the attachment
    directory, and the WHERE clause that [search_nodes] compiles is given a
    syntax ([clause]) and an evaluator over JSON payloads.

    What the program reads from its environment is passed in explicitly:
    the values drawn by the column defaults ([uuid4], [utcnow]), the JSON
    Schema validator, whether the database takes a node's payload as
    JSONB, and whether the operating system lets a file be unlinked. *)

From Stdlib Require Import ZArith NArith String Ascii List Lia Bool.
From stdpp Require Import base option gmap strings pretty list fin_maps sorting.

#[local] Set Warnings "-register-all".
Local Open Scope string_scope.
Local Open Scope Z_scope.

(** ** JSON values

    Request bodies and JSONB columns hold Python values built from
    [None], [bool], [int]/[float], [str], [list] and [dict].  A number is
    kept as an exact decimal [mantissa * 10 ^ exponent]; a [dict] keeps its
    insertion order. *)

Inductive json : Type :=
| JNull
| JBool (b : bool)
| JNum (mantissa exponent : Z)
| JStr (s : string)
| JArr (items : list json)
| JObj (members : list (string * json)).

(** A Python [dict] with string keys: [Dict[str, Any]]. *)
Definition dict : Type := list (string * json).

Definition UUID := N.

(** Timestamps, in microseconds since the epoch. *)
Definition datetime := Z.

(** ** datamodel.py: the tables

    Each table is a finite map from its primary key to the remaining
    columns, so the key constraint holds by construction.  [Kind] maps
    [name] to [schema]; [EdgesKind] is its key; [Edge] maps
    [(from_id, to_id, relation)] to [created_at]. *)

Module Node.
Record t : Type := mk {
  kind : string;
  payload : dict;
  created_at : datetime;
  updated_at : datetime
}.
End Node.

Module Attachment.
Record t : Type := mk {
  node_id : UUID;
  mime_type : string;
  name : string;
  file_path : string;
  created_at : datetime
}.
End Attachment.

Abbreviation EdgesKind := (string * string * string)%type.

Abbreviation EdgeKey := (UUID * UUID * string)%type.

Record Database : Type := mkDatabase {
  kinds : gmap string dict;
  edges_kinds : gset EdgesKind;
  nodes : gmap UUID Node.t;
  edges : gmap EdgeKey datetime;
  attachments : gmap UUID Attachment.t
}.

(** What an endpoint can touch: the database behind [db] and the files
    under [app.state.attachments_dir], named by their path relative to
    that directory. *)
Record World : Type := mkWorld {
  db : Database;
  files : gset string
}.

(** ** Pydantic response models *)

Module NodeOut.
Record t : Type := mk {
  id : UUID;
  kind : string;
  created_at : datetime;
  updated_at : datetime;
  payload : dict
}.
End NodeOut.

Module EdgeOut.
Record t : Type := mk {
  from_id : UUID;
  to_id : UUID;
  relation : string;
  created_at : datetime
}.
End EdgeOut.

Module AttachmentOut.
Record t : Type := mk {
  id : UUID;
  node_id : UUID;
  mime_type : string;
  name : string;
  created_at : datetime
}.
End AttachmentOut.

(** ** Pydantic request bodies *)

Record NodeCreate : Type := mkNodeCreate {
  nc_kind : string;
  nc_payload : dict
}.

Record NodeUpdate : Type := mkNodeUpdate {
  nu_payload : dict
}.

Record EdgeCreate : Type := mkEdgeCreate {
  ec_from_id : UUID;
  ec_to_id : UUID;
  ec_relation : string
}.

Record SearchDatamodel : Type := mkSearchDatamodel {
  sd_kinds : option (list string);
  sd_query : list (string * json);
  sd_limit : option Z
}.

(** ** Column defaults

    [Node] declares [default=uuid4] for [id] and [default=utcnow] for
    [created_at] and for [updated_at]: three callables, each invoked once
    for the INSERT.  The values they return are the inputs below. *)
Record NodeDefaults : Type := mkNodeDefaults {
  nd_uuid4 : UUID;
  nd_utcnow_created : datetime;
  nd_utcnow_updated : datetime
}.

(** ** Exceptions and the endpoint monad *)

(** One entry of the list [_validate_payload] returns. *)
Record ErrorDict : Type := mkErrorDict {
  ed_message : string;
  ed_path : list json;
  ed_schema_path : list json
}.

Inductive Detail : Type :=
| Text (s : string)
| PayloadErrors (message : string) (errors : list ErrorDict).

(** [HTTPException] is what the endpoints raise themselves; the other two
    are SQLAlchemy errors no endpoint catches. *)
Inductive Exception : Type :=
| HTTPException (status_code : Z) (detail : Detail)
| IntegrityError
| DataError.

Inductive Result (A : Type) : Type :=
| Return (a : A)
| Raise (e : Exception).
Arguments Return {A} a.
Arguments Raise {A} e.

Definition M (A : Type) : Type := World -> Result A * World.

Definition ret {A} (a : A) : M A := fun w => (Return a, w).

Definition raise {A} (e : Exception) : M A := fun w => (Raise e, w).

Definition bind {A B} (m : M A) (k : A -> M B) : M B :=
  fun w => match m w with
           | (Return a, w') => k a w'
           | (Raise e, w') => (Raise e, w')
           end.

Notation "x <- m ;; k" := (bind m (fun x => k))
  (at level 100, m at next level, right associativity).
Notation "m ;;; k" := (bind m (fun _ => k))
  (at level 100, right associativity).

(** Reading the database. *)
Definition query {A} (f : Database -> A) : M A := fun w => (Return (f (db w)), w).

(** A committed write. *)
Definition commit (f : Database -> Database) : M unit :=
  fun w => (Return tt, mkWorld (f (db w)) (files w)).

(** The JSON body [{"ok": True}]. *)
Inductive Ack : Type := ok_true.

(** ** The jsonschema library

    [jsonschema.Draft202012Validator(schema).iter_errors(payload)] yields
    [ValidationError] objects; [_validate_payload] reads [message], [path]
    and [schema_path] of each and sorts them by [str(err)], which
    jsonschema renders from all of the fields below. *)
Module ValidationError.
Record t : Type := mk {
  message : string;
  path : list json;
  schema_path : list json;
  validator : string;
  validator_value : json;
  instance : json;
  schema : json
}.
End ValidationError.

(** ** server.py *)

Section Server.

(** The validator, and the string rendering [str] used as the sort key. *)
Variable iter_errors : dict -> dict -> list ValidationError.t.
Variable str : ValidationError.t -> string.

(** Whether [Path.unlink] raises on a path; [_delete_file_quietly]
    swallows the exception. *)
Variable unlink_raises : string -> bool.

(** The exception, if any, that storing a payload in a JSONB column
    raises: [DataError] when PostgreSQL refuses the value, as it does for
    a payload with U+0000 in one of its strings. *)
Variable jsonb_error : dict -> option Exception.

(** Python's [sorted(xs, key=str)]: stable, comparing keys with [<]. *)
Fixpoint sorted_insert (x : ValidationError.t) (l : list ValidationError.t)
  : list ValidationError.t :=
  match l with
  | [] => [x]
  | y :: l' =>
      if String.ltb (str y) (str x) then y :: sorted_insert x l'
      else x :: y :: l'
  end.

Definition sorted (l : list ValidationError.t) : list ValidationError.t :=
  foldr sorted_insert [] l.

Definition error_dict (err : ValidationError.t) : ErrorDict :=
  {| ed_message := ValidationError.message err;
     ed_path := ValidationError.path err;
     ed_schema_path := ValidationError.schema_path err |}.

Definition _validate_payload (schema payload : dict) : list ErrorDict :=
  map error_dict (sorted (iter_errors schema payload)).

Definition node_out (id : UUID) (node : Node.t) : NodeOut.t :=
  {| NodeOut.id := id;
     NodeOut.kind := Node.kind node;
     NodeOut.created_at := Node.created_at node;
     NodeOut.updated_at := Node.updated_at node;
     NodeOut.payload := Node.payload node |}.

Definition edge_out (key : EdgeKey) (created_at : datetime) : EdgeOut.t :=
  {| EdgeOut.from_id := key.1.1;
     EdgeOut.to_id := key.1.2;
     EdgeOut.relation := key.2;
     EdgeOut.created_at := created_at |}.

Definition attachment_out (id : UUID) (att : Attachment.t) : AttachmentOut.t :=
  {| AttachmentOut.id := id;
     AttachmentOut.node_id := Attachment.node_id att;
     AttachmentOut.mime_type := Attachment.mime_type att;
     AttachmentOut.name := Attachment.name att;
     AttachmentOut.created_at := Attachment.created_at att |}.

Definition _get_node_or_404 (node_id : UUID) : M Node.t :=
  node <- query (fun d => nodes d !! node_id) ;;
  match node with
  | None => raise (HTTPException 404 (Text "Node not found"))
  | Some node => ret node
  end.

Definition _get_kind_or_404 (name : string) : M dict :=
  kind <- query (fun d => kinds d !! name) ;;
  match kind with
  | None => raise (HTTPException 404 (Text "Kind not found"))
  | Some schema => ret schema
  end.

Definition _delete_file_quietly (path : string) : M unit :=
  fun w =>
    if unlink_raises path then (Return tt, w)
    else (Return tt, mkWorld (db w) (files w ∖ {[path]})).

(** *** Kinds *)

(** Rows a DELETE of kind [name] takes with it: [edges_kinds.from_kind]
    and [edges_kinds.to_kind] are declared [ondelete="CASCADE"]. *)
Definition delete_kind_row (name : string) (d : Database) : Database :=
  {| kinds := delete name (kinds d);
     edges_kinds :=
       filter (fun ek : EdgesKind => ek.1.1 <> name /\ ek.1.2 <> name)
              (edges_kinds d);
     nodes := nodes d;
     edges := edges d;
     attachments := attachments d |}.

(** [select(func.count()).select_from(Node).where(Node.kind == name)] *)
Definition count_nodes_of_kind (name : string) (d : Database) : Z :=
  Z.of_nat
    (length (filter (fun kv : UUID * Node.t => Node.kind kv.2 = name)
                    (map_to_list (nodes d)))).

Definition delete_kind (name : string) : M Ack :=
  kind <- query (fun d => kinds d !! name) ;;
  match kind with
  | None => raise (HTTPException 404 (Text "Kind not found"))
  | Some _ =>
      node_count <- query (count_nodes_of_kind name) ;;
      if (negb (node_count =? 0)) && (node_count >? 0) then
        raise (HTTPException 400 (Text "Cannot delete kind with existing nodes"))
      else
        commit (delete_kind_row name) ;;;
        ret ok_true
  end.

(** *** Nodes *)

(** INSERT INTO nodes: the payload is read as JSONB when the statement is
    sent, and then the primary key must be new. *)
Definition insert_node (id : UUID) (node : Node.t) : M unit :=
  match jsonb_error (Node.payload node) with
  | Some e => raise e
  | None =>
      existing <- query (fun d => nodes d !! id) ;;
      match existing with
      | Some _ => raise IntegrityError
      | None =>
          commit (fun d =>
            {| kinds := kinds d;
               edges_kinds := edges_kinds d;
               nodes := <[id := node]> (nodes d);
               edges := edges d;
               attachments := attachments d |})
      end
  end.

Definition create_node (body : NodeCreate) (defaults : NodeDefaults)
  : M NodeOut.t :=
  kind <- query (fun d => kinds d !! nc_kind body) ;;
  match kind with
  | None => raise (HTTPException 400 (Text "Unknown kind"))
  | Some schema =>
      match _validate_payload schema (nc_payload body) with
      | (_ :: _) as errors =>
          raise (HTTPException 400
                   (PayloadErrors "Payload does not match schema" errors))
      | [] =>
          let node :=
            {| Node.kind := nc_kind body;
               Node.payload := nc_payload body;
               Node.created_at := nd_utcnow_created defaults;
               Node.updated_at := nd_utcnow_updated defaults |} in
          insert_node (nd_uuid4 defaults) node ;;;
          ret (node_out (nd_uuid4 defaults) node)
      end
  end.

Definition get_node (id : UUID) : M NodeOut.t :=
  node <- _get_node_or_404 id ;;
  ret (node_out id node).

(** UPDATE nodes SET payload = ... WHERE id = ...: the only attribute
    [update_node] assigns is [payload], and no column of [Node] declares
    an [onupdate].  The statement is taken to go through, as it does for
    every payload the database accepts as JSONB. *)
Definition update_node (id : UUID) (body : NodeUpdate) : M NodeOut.t :=
  node <- _get_node_or_404 id ;;
  schema <- _get_kind_or_404 (Node.kind node) ;;
  match _validate_payload schema (nu_payload body) with
  | (_ :: _) as errors =>
      raise (HTTPException 400
               (PayloadErrors "Payload does not match schema" errors))
  | [] =>
      let node' :=
        {| Node.kind := Node.kind node;
           Node.payload := nu_payload body;
           Node.created_at := Node.created_at node;
           Node.updated_at := Node.updated_at node |} in
      commit (fun d =>
        {| kinds := kinds d;
           edges_kinds := edges_kinds d;
           nodes := <[id := node']> (nodes d);
           edges := edges d;
           attachments := attachments d |}) ;;;
      ret (node_out id node')
  end.

(** Rows a DELETE of node [id] takes with it: [edges.from_id],
    [edges.to_id] and [attachments.node_id] are declared
    [ondelete="CASCADE"], and the relationships of [Node] are
    [passive_deletes=True]. *)
Definition delete_node_row (id : UUID) (d : Database) : Database :=
  {| kinds := kinds d;
     edges_kinds := edges_kinds d;
     nodes := delete id (nodes d);
     edges :=
       filter (fun kv : EdgeKey * datetime => kv.1.1.1 <> id /\ kv.1.1.2 <> id)
              (edges d);
     attachments :=
       filter (fun kv : UUID * Attachment.t => Attachment.node_id kv.2 <> id)
              (attachments d) |}.

(** [select(Attachment).where(Attachment.node_id == id)] *)
Definition attachments_of_node (id : UUID) (d : Database)
  : list (UUID * Attachment.t) :=
  filter (fun kv : UUID * Attachment.t => Attachment.node_id kv.2 = id)
         (map_to_list (attachments d)).

Fixpoint for_each {A} (f : A -> M unit) (l : list A) : M unit :=
  match l with
  | [] => ret tt
  | x :: l' => f x ;;; for_each f l'
  end.

Definition delete_node (id : UUID) : M Ack :=
  node <- query (fun d => nodes d !! id) ;;
  match node with
  | None => raise (HTTPException 404 (Text "Node not found"))
  | Some _ =>
      atts <- query (attachments_of_node id) ;;
      for_each (fun att : UUID * Attachment.t =>
                  _delete_file_quietly (Attachment.file_path att.2)) atts ;;;
      commit (delete_node_row id) ;;;
      ret ok_true
  end.

(** *** Edges *)

(** INSERT INTO edges: the composite primary key must be new. *)
Definition insert_edge (key : EdgeKey) (created_at : datetime) : M unit :=
  existing <- query (fun d => edges d !! key) ;;
  match existing with
  | Some _ => raise IntegrityError
  | None =>
      commit (fun d =>
        {| kinds := kinds d;
           edges_kinds := edges_kinds d;
           nodes := nodes d;
           edges := <[key := created_at]> (edges d);
           attachments := attachments d |})
  end.

(** [try: db.commit() except IntegrityError: db.rollback(); raise ...] *)
Definition try_commit {A} (m : M A) (handler : Exception) : M A :=
  fun w => match m w with
           | (Raise IntegrityError, _) => (Raise handler, w)
           | r => r
           end.

Definition create_edge (body : EdgeCreate) (utcnow : datetime) : M EdgeOut.t :=
  from_node <- query (fun d => nodes d !! ec_from_id body) ;;
  match from_node with
  | None => raise (HTTPException 400 (Text "from_id node not found"))
  | Some from_node =>
      to_node <- query (fun d => nodes d !! ec_to_id body) ;;
      match to_node with
      | None => raise (HTTPException 400 (Text "to_id node not found"))
      | Some to_node =>
          allowed <- query (fun d =>
            bool_decide
              ((Node.kind from_node, Node.kind to_node, ec_relation body)
                 ∈ edges_kinds d)) ;;
          if negb allowed then
            raise (HTTPException 400
                     (Text "Edge relationship not allowed by edges-kinds"))
          else
            let key := (ec_from_id body, ec_to_id body, ec_relation body) in
            try_commit (insert_edge key utcnow)
                       (HTTPException 409 (Text "Edge already exists")) ;;;
            ret (edge_out key utcnow)
      end
  end.

Definition select_edges (P : EdgeKey -> bool) (d : Database) : list EdgeOut.t :=
  map (fun kv : EdgeKey * datetime => edge_out kv.1 kv.2)
      (filter (fun kv : EdgeKey * datetime => P kv.1 = true)
              (map_to_list (edges d))).

Definition outgoing_edges (node_id : UUID) : M (list EdgeOut.t) :=
  _get_node_or_404 node_id ;;;
  query (select_edges (fun k => bool_decide (k.1.1 = node_id))).

Definition incoming_edges (node_id : UUID) : M (list EdgeOut.t) :=
  _get_node_or_404 node_id ;;;
  query (select_edges (fun k => bool_decide (k.1.2 = node_id))).

Definition edges_between (from_id to_id : UUID) : M (list EdgeOut.t) :=
  query (select_edges
           (fun k => bool_decide (k.1.1 = from_id) && bool_decide (k.1.2 = to_id))).

Definition delete_edge (from_id to_id : UUID) (relation : string) : M Ack :=
  edge <- query (fun d => edges d !! (from_id, to_id, relation)) ;;
  match edge with
  | None => raise (HTTPException 404 (Text "Edge not found"))
  | Some _ =>
      commit (fun d =>
        {| kinds := kinds d;
           edges_kinds := edges_kinds d;
           nodes := nodes d;
           edges := delete (from_id, to_id, relation) (edges d);
           attachments := attachments d |}) ;;;
      ret ok_true
  end.

(** *** Attachments *)

(** [get_attachment] answers with the file; the model returns the row. *)
Definition get_attachment (id : UUID) : M AttachmentOut.t :=
  att <- query (fun d => attachments d !! id) ;;
  match att with
  | None => raise (HTTPException 404 (Text "Attachment not found"))
  | Some att =>
      present <- (fun w =>
        (Return (bool_decide (Attachment.file_path att ∈ files w)), w)) ;;
      if negb present then
        raise (HTTPException 404 (Text "Attachment file missing"))
      else ret (attachment_out id att)
  end.

Definition list_attachments (node_id : UUID) : M (list AttachmentOut.t) :=
  _get_node_or_404 node_id ;;;
  atts <- query (attachments_of_node node_id) ;;
  ret (map (fun kv : UUID * Attachment.t => attachment_out kv.1 kv.2) atts).

End Server.

(** ** search_nodes: what Python builds *)

(** [s.split(".")] *)
Fixpoint split (sep : ascii) (s : string) : list string :=
  match s with
  | EmptyString => [EmptyString]
  | String c s' =>
      if Ascii.eqb c sep then EmptyString :: split sep s'
      else match split sep s' with
           | [] => [String c EmptyString]
           | h :: t => String c h :: t
           end
  end.

(** ["*" in val] *)
Fixpoint contains_char (c : ascii) (s : string) : bool :=
  match s with
  | EmptyString => false
  | String a s' => Ascii.eqb a c || contains_char c s'
  end.

(** [val.replace(old, new)] for one-character [old] and [new]. *)
Fixpoint replace (old new : ascii) (s : string) : string :=
  match s with
  | EmptyString => EmptyString
  | String a s' =>
      String (if Ascii.eqb a old then new else a) (replace old new s')
  end.

(** The SQL expressions appended to [clauses].  [path] stands for
    [func.jsonb_extract_path_text(Node.payload, *path)]. *)
Inductive clause : Type :=
| KindIn (kinds : list string)
| ILike (path : list string) (pattern : string)
| EqText (path : list string) (text : string)
| EqBoolean (path : list string) (val : bool)
| EqNumeric (path : list string) (mantissa exponent : Z)
| IsNull (path : list string).

(** ** search_nodes: what PostgreSQL evaluates

    The functions below model the PostgreSQL primitives the compiled
    query calls: [jsonb_extract_path_text], [ILIKE], and the casts from
    [text] to [boolean] and to [numeric]. *)

Definition is_space (c : ascii) : bool :=
  let n := nat_of_ascii c in
  (Nat.eqb n 32 || (Nat.leb 9 n && Nat.leb n 13))%bool.

Definition is_digit (c : ascii) : bool :=
  let n := nat_of_ascii c in (Nat.leb 48 n && Nat.leb n 57)%bool.

Definition digit_value (c : ascii) : Z := Z.of_nat (nat_of_ascii c) - 48.

Definition to_lower (c : ascii) : ascii :=
  let n := nat_of_ascii c in
  if (Nat.leb 65 n && Nat.leb n 90)%bool then ascii_of_nat (n + 32) else c.

(** Case folding of ASCII letters, as the database folds them in every
    locale but the few with a dotless i.  Letters outside ASCII are folded
    by the database locale; the model leaves them as they are, so it
    speaks for ASCII text. *)
Fixpoint lower (s : string) : string :=
  match s with
  | EmptyString => EmptyString
  | String c s' => String (to_lower c) (lower s')
  end.

Fixpoint ltrim (s : string) : string :=
  match s with
  | String c s' => if is_space c then ltrim s' else s
  | EmptyString => EmptyString
  end.

Fixpoint all_space (s : string) : bool :=
  match s with
  | EmptyString => true
  | String c s' => is_space c && all_space s'
  end.

Fixpoint rtrim (s : string) : string :=
  match s with
  | EmptyString => EmptyString
  | String c s' => if all_space s then EmptyString else String c (rtrim s')
  end.

(** Reads the longest run of decimal digits: its value on top of [acc],
    how many digits were read, and the rest of the string. *)
Fixpoint read_digits (s : string) (acc : Z) (count : Z) : Z * Z * string :=
  match s with
  | String c s' =>
      if is_digit c then read_digits s' (acc * 10 + digit_value c) (count + 1)
      else (acc, count, s)
  | EmptyString => (acc, count, s)
  end.

Definition read_sign (s : string) : bool * string :=
  match s with
  | String "+" s' => (false, s')
  | String "-" s' => (true, s')
  | _ => (false, s)
  end.

(** The element index [jsonb_extract_path] reads from a path step when it
    stands on an array: C's [strtol] in base 10, which must consume the
    whole step and fit an [int]. *)
Definition parse_index (step : string) : option Z :=
  let '(negative, s) := read_sign (ltrim step) in
  let '(value, count, rest) := read_digits s 0 0 in
  if (count =? 0) || negb (String.eqb rest EmptyString) then None
  else
    let v := if negative then - value else value in
    if (v <? - 2147483648) || (2147483647 <? v) then None else Some v.

Fixpoint assoc (key : string) (members : list (string * json)) : option json :=
  match members with
  | [] => None
  | (k, v) :: members' => if String.eqb k key then Some v else assoc key members'
  end.

Definition array_element (items : list json) (index : Z) : option json :=
  let n := Z.of_nat (length items) in
  if 0 <=? index then nth_error items (Z.to_nat index)
  else if n <? - index then None
  else nth_error items (Z.to_nat (n + index)).

(** [jsonb_extract_path(value, VARIADIC path)]: object members by key,
    array elements by index, SQL NULL ([None]) when a step leads nowhere. *)
Fixpoint jsonb_extract_path (value : json) (path : list string) : option json :=
  match path with
  | [] => Some value
  | step :: path' =>
      match value with
      | JObj members =>
          match assoc step members with
          | Some v => jsonb_extract_path v path'
          | None => None
          end
      | JArr items =>
          match parse_index step with
          | Some index =>
              match array_element items index with
              | Some v => jsonb_extract_path v path'
              | None => None
              end
          | None => None
          end
      | _ => None
      end
  end.

(** PostgreSQL's text output of a [numeric]. *)
Definition numeric_out (mantissa exponent : Z) : string :=
  let sign := if mantissa <? 0 then "-" else "" in
  if 0 <=? exponent then
    sign ++ pretty.pretty (Z.to_N (Z.abs mantissa * 10 ^ exponent))
  else
    let scale := Z.to_nat (- exponent) in
    let digits := pretty.pretty (Z.to_N (Z.abs mantissa)) in
    let padded :=
      string_of_list_ascii
        (repeat "0"%char (S scale - String.length digits)%nat)
      ++ digits in
    let whole := (String.length padded - scale)%nat in
    sign ++ substring 0 whole padded ++ "." ++ substring whole scale padded.

Inductive like_result : Type :=
| LikeTrue
| LikeFalse
| LikeError.

(** [text LIKE pattern]: [%] matches any run of characters, [_] any one
    character, a backslash makes the next pattern character literal, and
    a pattern that ends in a lone backslash is an error once the match
    reaches it. *)
Fixpoint like (pattern text : string) {struct pattern} : like_result :=
  match pattern with
  | EmptyString =>
      match text with EmptyString => LikeTrue | _ => LikeFalse end
  | String "%" pattern' =>
      (fix scan (t : string) : like_result :=
         match like pattern' t with
         | LikeFalse =>
             match t with
             | EmptyString => LikeFalse
             | String _ t' => scan t'
             end
         | r => r
         end) text
  | String "_" pattern' =>
      match text with
      | EmptyString => LikeFalse
      | String _ text' => like pattern' text'
      end
  | String "\" pattern' =>
      match text with
      | EmptyString => LikeFalse
      | String a text' =>
          match pattern' with
          | EmptyString => LikeError
          | String c pattern'' =>
              if Ascii.eqb a c then like pattern'' text' else LikeFalse
          end
      end
  | String c pattern' =>
      match text with
      | EmptyString => LikeFalse
      | String a text' =>
          if Ascii.eqb a c then like pattern' text' else LikeFalse
      end
  end.

(** [text ILIKE pattern] *)
Definition ilike (text pattern : string) : like_result :=
  like (lower pattern) (lower text).

(** [CAST(text AS BOOLEAN)]: surrounding blanks are dropped, letter case
    is ignored, and the accepted spellings are the non-empty prefixes of
    [true], [false], [yes] and [no], then [on], [of], [off], [1], [0]. *)
Definition cast_boolean (text : string) : option bool :=
  let v := lower (rtrim (ltrim text)) in
  if String.eqb v "" then None
  else if String.prefix v "true" then Some true
  else if String.prefix v "false" then Some false
  else if String.prefix v "yes" then Some true
  else if String.prefix v "no" then Some false
  else if String.eqb v "on" then Some true
  else if String.eqb v "of" || String.eqb v "off" then Some false
  else if String.eqb v "1" then Some true
  else if String.eqb v "0" then Some false
  else None.

Inductive numeric : Type :=
| Finite (mantissa exponent : Z)
| NaN
| Infinity (negative : bool).

(** [CAST(text AS NUMERIC)], decimal syntax: blanks, a sign, digits with
    at most one decimal point and at least one digit, an optional
    exponent, blanks; or [NaN], [Infinity], [inf] in any letter case. *)
Definition cast_numeric (text : string) : option numeric :=
  let numstart := ltrim text in
  let '(negative, cp) := read_sign numstart in
  let signed (v : Z) := if negative then - v else v in
  match cp with
  | String c _ =>
      if is_digit c || Ascii.eqb c "." then
        let '(whole, nwhole, rest) := read_digits cp 0 0 in
        let '(mant, nfrac, ndigits, rest) :=
          match rest with
          | String "." rest' =>
              let '(m, nfrac, rest'') := read_digits rest' whole 0 in
              (m, nfrac, nwhole + nfrac, rest'')
          | _ => (whole, 0, nwhole, rest)
          end in
        if ndigits =? 0 then None
        else
          match rest with
          | String e rest' =>
              if Ascii.eqb e "e" || Ascii.eqb e "E" then
                let '(eneg, rest'') := read_sign rest' in
                let '(ex, nex, rest''') := read_digits rest'' 0 0 in
                if (nex =? 0) || negb (all_space rest''') then None
                else Some (Finite (signed mant)
                                  ((if eneg then - ex else ex) - nfrac))
              else if all_space rest then Some (Finite (signed mant) (- nfrac))
              else None
          | EmptyString => Some (Finite (signed mant) (- nfrac))
          end
      else
        let tail (n : nat) (s : string) :=
          substring n (String.length s - n)%nat s in
        if String.eqb (lower (substring 0 3 numstart)) "nan" then
          if all_space (tail 3%nat numstart) then Some NaN else None
        else if String.eqb (lower (substring 0 8 cp)) "infinity" then
          if all_space (tail 8%nat cp) then Some (Infinity negative) else None
        else if String.eqb (lower (substring 0 3 cp)) "inf" then
          if all_space (tail 3%nat cp) then Some (Infinity negative) else None
        else None
  | EmptyString => None
  end.

(** [numeric = val] for a finite [val], on exact decimals.  This is the
    comparison the database makes for a Python [int] within 64 bits.  The
    driver sends a larger [int] as BIGINT all the same, which raises, and
    a [float] as double precision, where numbers that differ only past
    the precision of a double compare equal: there the model does not
    speak for the database. *)
Definition numeric_eqb (x : numeric) (mantissa exponent : Z) : bool :=
  match x with
  | Finite m e =>
      let low := Z.min e exponent in
      m * 10 ^ (e - low) =? mantissa * 10 ^ (exponent - low)
  | _ => false
  end.

Section Search.

(** Python's [json.dumps], and the text PostgreSQL prints for a [jsonb]
    array or object. *)
Variable json_dumps : json -> string.
Variable jsonb_container_out : json -> string.

(** The body of the loop over [body.query.items()]. *)
Definition compile_item (key : string) (val : json) : clause :=
  let path := split "." key in
  match val with
  | JStr s =>
      if contains_char "*" s then ILike path (replace "*" "%" s)
      else EqText path s
  | JBool b => EqBoolean path b
  | JNum mantissa exponent => EqNumeric path mantissa exponent
  | JNull => IsNull path
  | _ => EqText path (json_dumps val)
  end.

Definition build_clauses (body : SearchDatamodel) : list clause :=
  match sd_kinds body with
  | Some ((_ :: _) as kinds) => [KindIn kinds]
  | _ => []
  end
  ++ map (fun item : string * json => compile_item item.1 item.2)
         (sd_query body).

(** [jsonb_extract_path_text]: SQL NULL for a missing path and for JSON
    [null], a string without its quotes, anything else as printed. *)
Definition jsonb_extract_path_text (payload : dict) (path : list string)
  : option string :=
  match jsonb_extract_path (JObj payload) path with
  | None => None
  | Some JNull => None
  | Some (JStr s) => Some s
  | Some (JBool true) => Some "true"
  | Some (JBool false) => Some "false"
  | Some (JNum mantissa exponent) => Some (numeric_out mantissa exponent)
  | Some v => Some (jsonb_container_out v)
  end.

(** A clause on one row, in SQL's three-valued logic: [Return None] is
    NULL, and a failed cast or a malformed pattern raises [DataError]. *)
Definition eval_clause (c : clause) (node : Node.t) : Result (option bool) :=
  let expr := jsonb_extract_path_text (Node.payload node) in
  match c with
  | KindIn kinds =>
      Return (Some (bool_decide (Node.kind node ∈ kinds)))
  | ILike path pattern =>
      match expr path with
      | None => Return None
      | Some text =>
          match ilike text pattern with
          | LikeTrue => Return (Some true)
          | LikeFalse => Return (Some false)
          | LikeError => Raise DataError
          end
      end
  | EqText path val =>
      match expr path with
      | None => Return None
      | Some text => Return (Some (String.eqb text val))
      end
  | EqBoolean path val =>
      match expr path with
      | None => Return None
      | Some text =>
          match cast_boolean text with
          | Some b => Return (Some (Bool.eqb b val))
          | None => Raise DataError
          end
      end
  | EqNumeric path mantissa exponent =>
      match expr path with
      | None => Return None
      | Some text =>
          match cast_numeric text with
          | Some x => Return (Some (numeric_eqb x mantissa exponent))
          | None => Raise DataError
          end
      end
  | IsNull path =>
      match expr path with
      | None => Return (Some true)
      | Some _ => Return (Some false)
      end
  end.

(** [WHERE c1 AND ... AND cn] on one row: the row passes when every
    clause is true; clauses are evaluated in order up to the first one
    that is not. *)
Fixpoint where_ (clauses : list clause) (node : Node.t) : Result bool :=
  match clauses with
  | [] => Return true
  | c :: clauses' =>
      match eval_clause c node with
      | Raise e => Raise e
      | Return (Some true) => where_ clauses' node
      | Return _ => Return false
      end
  end.

(** The scan behind [db.scalars(q).all()]: rows in table order, stopping
    once [limit] rows have passed. *)
Fixpoint scan (clauses : list clause) (rows : list (UUID * Node.t))
    (limit : option nat) : Result (list NodeOut.t) :=
  match rows with
  | [] => Return []
  | (id, node) :: rows' =>
      match limit with
      | Some O => Return []
      | _ =>
          match where_ clauses node with
          | Raise e => Raise e
          | Return false => scan clauses rows' limit
          | Return true =>
              match scan clauses rows' (Nat.pred <$> limit) with
              | Raise e => Raise e
              | Return found =>
                  Return (NodeOut.mk id (Node.kind node) (Node.created_at node)
                            (Node.updated_at node) (Node.payload node) :: found)
              end
          end
      end
  end.

Definition search_nodes (body : SearchDatamodel) : M (list NodeOut.t) :=
  let clauses := build_clauses body in
  rows <- query (fun d => map_to_list (nodes d)) ;;
  match sd_limit body with
  | None => fun w => (scan clauses rows None, w)
  | Some n =>
      if n <? 0 then raise DataError
      else fun w => (scan clauses rows (Some (Z.to_nat n)), w)
  end.

End Search.

(** ** Sample data

    A validator for the keyword [required] alone, with which the endpoints
    can be run on concrete worlds. *)
Module Sample.

Definition required_keys (schema : dict) : list string :=
  match assoc "required" schema with
  | Some (JArr items) =>
      omap (fun item => match item with JStr key => Some key | _ => None end)
           items
  | _ => []
  end.

Definition missing (schema payload : dict) : list string :=
  List.filter (fun key => match assoc key payload with
                          | None => true
                          | Some _ => false
                          end)
              (required_keys schema).

Definition iter_errors (schema payload : dict) : list ValidationError.t :=
  map (fun key =>
         {| ValidationError.message := "'" ++ key ++ "' is a required property";
            ValidationError.path := [];
            ValidationError.schema_path := [JStr "required"];
            ValidationError.validator := "required";
            ValidationError.validator_value :=
              JArr (map JStr (required_keys schema));
            ValidationError.instance := JObj payload;
            ValidationError.schema := JObj schema |})
      (missing schema payload).

Definition str (err : ValidationError.t) : string :=
  ValidationError.message err.

Definition unlink_raises (path : string) : bool := false.

(** A string of the value holds the character U+0000. *)
Fixpoint has_nul (value : json) : bool :=
  match value with
  | JStr s => contains_char "000" s
  | JArr items => existsb has_nul items
  | JObj members =>
      existsb (fun member : string * json =>
                 let '(key, v) := member in
                 contains_char "000" key || has_nul v) members
  | _ => false
  end.

(** PostgreSQL refuses U+0000 in the strings of a JSONB value. *)
Definition jsonb_error (payload : dict) : option Exception :=
  if has_nul (JObj payload) then Some DataError else None.

Definition person_schema : dict :=
  [("type", JStr "object"); ("required", JArr [JStr "name"; JStr "active"])].

Definition ada : dict := [("name", JStr "Ada"); ("active", JBool true)].

Definition ada_inactive : dict := [("name", JStr "Ada"); ("active", JBool false)].

(** A payload the person schema accepts, with U+0000 inside the name. *)
Definition ada_nul : dict :=
  [("name", JStr (String "A" (String "000" "da"))); ("active", JBool true)].

Definition empty_db : Database :=
  {| kinds := ∅; edges_kinds := ∅; nodes := ∅; edges := ∅; attachments := ∅ |}.

(** Kind [person] and one node of that kind, created at instant 1000. *)
Definition person_world : World :=
  {| db :=
       {| kinds := {[ "person" := person_schema ]};
          edges_kinds := ∅;
          nodes := {[ 7%N := Node.mk "person" ada 1000 1000 ]};
          edges := ∅;
          attachments := ∅ |};
     files := ∅ |}.

(** Kinds [a] and [b], edge kind [(a, b, link)], node 1 of kind [a] and
    node 2 of kind [b]; node 1 has the edge to node 2 and one attachment
    whose file exists. *)
Definition graph_world : World :=
  {| db :=
       {| kinds := {[ "a" := []; "b" := [] ]};
          edges_kinds := {[ ("a", "b", "link") ]};
          nodes := {[ 1%N := Node.mk "a" [] 10 10; 2%N := Node.mk "b" [] 20 20 ]};
          edges := {[ (1%N, 2%N, "link") := 30 ]};
          attachments :=
            {[ 5%N := Attachment.mk 1%N "text/plain" "doc.txt" "1/5" 40 ]} |};
     files := {[ "1/5" ]} |}.

(** One node whose payload holds the text [abc] under [x]. *)
Definition text_world : World :=
  {| db :=
       {| kinds := {[ "note" := [] ]};
          edges_kinds := ∅;
          nodes := {[ 3%N := Node.mk "note" [("x", JStr "abc")] 50 50 ]};
          edges := ∅;
          attachments := ∅ |};
     files := ∅ |}.

(** Three nodes for searching: [a.b] holds a text with [FOO] in it, a
    text without, and in the third payload [a] has no member [b]. *)
Definition search_world : World :=
  {| db :=
       {| kinds := {[ "note" := [] ]};
          edges_kinds := ∅;
          nodes :=
            {[ 1%N := Node.mk "note"
                        [("a", JObj [("b", JStr "xxFOOyy")]); ("n", JNum 36 0)]
                        1 1;
               2%N := Node.mk "note"
                        [("a", JObj [("b", JStr "bar")]); ("n", JStr "36.0")]
                        2 2;
               3%N := Node.mk "note" [("a", JObj [("c", JNull)])] 3 3 ]};
          edges := ∅;
          attachments := ∅ |};
     files := ∅ |}.

(** The ids a search returns. *)
Definition search_ids (body : SearchDatamodel) (w : World) : Result (list UUID) :=
  match (search_nodes (fun _ => "") (fun _ => "") body w).1 with
  | Return found => Return (map NodeOut.id found)
  | Raise e => Raise e
  end.

End Sample.

(** ** Notions used to state the properties *)

(** [delete_node] called on each id of a list in turn, whatever each call
    answers. *)
Fixpoint delete_nodes (unlink_raises : string -> bool) (ids : list UUID)
    (w : World) : World :=
  match ids with
  | [] => w
  | id :: ids' =>
      delete_nodes unlink_raises ids' (delete_node unlink_raises id w).2
  end.

(** Strings of decimal digits, and the number a digit string denotes on
    top of an accumulator. *)
Fixpoint all_digits (s : string) : bool :=
  match s with
  | EmptyString => true
  | String c s' => is_digit c && all_digits s'
  end.

Fixpoint digits_value (s : string) (acc : Z) : Z :=
  match s with
  | EmptyString => acc
  | String c s' => digits_value s' (acc * 10 + digit_value c)
  end.

(** Errors ordered by their string rendering. *)
Definition key_le (str : ValidationError.t -> string) (a b : ValidationError.t)
  : Prop :=
  String.le (str a) (str b).

(** [sub] occurs in [s]. *)
Fixpoint has_substring (sub s : string) : bool :=
  String.prefix sub s
  || match s with
     | EmptyString => false
     | String _ s' => has_substring sub s'
     end.

(** A clause matches a row when it evaluates to SQL true. *)
Definition matches (jsonb_container_out : json -> string) (c : clause)
    (node : Node.t) : Prop :=
  eval_clause jsonb_container_out c node = Return (Some true).

(** ** Notions used to state the search properties *)



(** [v] is the member of the object under [key].  The keys of a [dict]
    are distinct; in a list that repeats a key the first occurrence
    counts. *)
Definition member (key : string) (v : json) (members : list (string * json))
  : Prop :=
  exists before after : list (string * json),
    members = (before ++ (key, v) :: after)%list /\ key ∉ map fst before.

(** [v] is the element of the array at [index], counted from the end when
    [index] is negative. *)
Definition element (index : Z) (v : json) (items : list json) : Prop :=
  (0 <= index /\ nth_error items (Z.to_nat index) = Some v) \/
  (index < 0 /\ - index <= Z.of_nat (length items) /\
   nth_error items (Z.to_nat (Z.of_nat (length items) + index)) = Some v).

(** The value a path leads to inside a JSON value, step by step: into an
    object by key, into an array by the index the step spells. *)
Inductive at_path : json -> list string -> json -> Prop :=
| at_path_here (value : json) : at_path value [] value
| at_path_member (members : list (string * json)) (key : string) (v : json)
    (path : list string) (found : json) :
    member key v members ->
    at_path v path found ->
    at_path (JObj members) (key :: path) found
| at_path_element (items : list json) (step : string) (index : Z) (v : json)
    (path : list string) (found : json) :
    parse_index step = Some index ->
    element index v items ->
    at_path v path found ->
    at_path (JArr items) (step :: path) found.

(** The text of a JSON value that is not [null]: a string as it is, a
    boolean and a number as PostgreSQL prints them, an array and an
    object in PostgreSQL's JSONB notation. *)
Inductive rendered (jsonb_container_out : json -> string)
  : json -> string -> Prop :=
| rendered_string (s : string) : rendered jsonb_container_out (JStr s) s
| rendered_true : rendered jsonb_container_out (JBool true) "true"
| rendered_false : rendered jsonb_container_out (JBool false) "false"
| rendered_number (mantissa exponent : Z) :
    rendered jsonb_container_out (JNum mantissa exponent)
             (numeric_out mantissa exponent)
| rendered_array (items : list json) :
    rendered jsonb_container_out (JArr items) (jsonb_container_out (JArr items))
| rendered_object (members : list (string * json)) :
    rendered jsonb_container_out (JObj members)
             (jsonb_container_out (JObj members)).






(** ** server.py: kinds, edge kinds and attachments *)

Record KindCreate : Type := mkKindCreate {
  kc_name : string;
  kc_schema : dict
}.

Module KindOut.
Record t : Type := mk {
  name : string;
  schema_ : dict
}.
End KindOut.

Record EdgesKindCreate : Type := mkEdgesKindCreate {
  ekc_from_kind : string;
  ekc_to_kind : string;
  ekc_relation : string
}.

(** INSERT INTO kinds: the name must be new.  Name and schema are taken
    to be values the database stores. *)
Definition insert_kind (name : string) (schema : dict) : M unit :=
  existing <- query (fun d => kinds d !! name) ;;
  match existing with
  | Some _ => raise IntegrityError
  | None =>
      commit (fun d =>
        {| kinds := <[name := schema]> (kinds d);
           edges_kinds := edges_kinds d;
           nodes := nodes d;
           edges := edges d;
           attachments := attachments d |})
  end.

Definition create_kind (body : KindCreate) : M KindOut.t :=
  try_commit (insert_kind (kc_name body) (kc_schema body))
             (HTTPException 409 (Text "Kind already exists")) ;;;
  ret (KindOut.mk (kc_name body) (kc_schema body)).


(** INSERT INTO edges_kinds: the triple must be new. *)
Definition insert_edges_kind (ek : EdgesKind) : M unit :=
  existing <- query (fun d => bool_decide (ek ∈ edges_kinds d)) ;;
  if existing then raise IntegrityError
  else
    commit (fun d =>
      {| kinds := kinds d;
         edges_kinds := {[ ek ]} ∪ edges_kinds d;
         nodes := nodes d;
         edges := edges d;
         attachments := attachments d |}).

Definition create_edges_kind (body : EdgesKindCreate) : M EdgesKind :=
  _get_kind_or_404 (ekc_from_kind body) ;;;
  _get_kind_or_404 (ekc_to_kind body) ;;;
  let ek := (ekc_from_kind body, ekc_to_kind body, ekc_relation body) in
  try_commit (insert_edges_kind ek)
             (HTTPException 409 (Text "Edges kind already exists")) ;;;
  ret ek.

Definition get_edges_kind (from_kind to_kind relation : string) : M EdgesKind :=
  found <- query (fun d =>
    bool_decide ((from_kind, to_kind, relation) ∈ edges_kinds d)) ;;
  if negb found then raise (HTTPException 404 (Text "Edges kind not found"))
  else ret (from_kind, to_kind, relation).

(** The WHERE clause of the count in [delete_edges_kind], on one edge
    joined to its two endpoint rows. *)
Definition edge_instantiates (d : Database) (ek : EdgesKind) (key : EdgeKey)
  : bool :=
  match nodes d !! key.1.1, nodes d !! key.1.2 with
  | Some from_node, Some to_node =>
      String.eqb key.2 ek.2
      && String.eqb (Node.kind from_node) ek.1.1
      && String.eqb (Node.kind to_node) ek.1.2
  | _, _ => false
  end.

Definition count_edges_of_kind (ek : EdgesKind) (d : Database) : Z :=
  Z.of_nat
    (length (filter (fun kv : EdgeKey * datetime =>
                       edge_instantiates d ek kv.1 = true)
                    (map_to_list (edges d)))).

Definition delete_edges_kind (from_kind to_kind relation : string) : M Ack :=
  found <- query (fun d =>
    bool_decide ((from_kind, to_kind, relation) ∈ edges_kinds d)) ;;
  if negb found then raise (HTTPException 404 (Text "Edges kind not found"))
  else
    edge_count <- query (count_edges_of_kind (from_kind, to_kind, relation)) ;;
    if (negb (edge_count =? 0)) && (edge_count >? 0) then
      raise (HTTPException 400
               (Text "Cannot delete edges kind used by existing edges"))
    else
      commit (fun d =>
        {| kinds := kinds d;
           edges_kinds := edges_kinds d ∖ {[ (from_kind, to_kind, relation) ]};
           nodes := nodes d;
           edges := edges d;
           attachments := attachments d |}) ;;;
      ret ok_true.

(** The parts of an [UploadFile] that [create_attachment] reads besides
    the bytes. *)
Record UploadFile : Type := mkUploadFile {
  uf_content_type : option string;
  uf_filename : option string
}.

(** [uuid4()] for the attachment id and [utcnow()] for [created_at]. *)
Record AttachmentDefaults : Type := mkAttachmentDefaults {
  ad_uuid4 : UUID;
  ad_utcnow : datetime
}.

(** Python's [x or default] on an optional string. *)
Definition or_else (x : option string) (default : string) : string :=
  match x with
  | Some s => if String.eqb s "" then default else s
  | None => default
  end.

(** [shutil.copyfileobj] into the opened file, taken to succeed as the
    database connection is throughout: the path exists afterwards. *)
Definition write_file (path : string) : M unit :=
  fun w => (Return tt, mkWorld (db w) (files w ∪ {[ path ]})).

(** [Attachment.file_path] is declared [unique=True]. *)
Definition file_path_taken (path : string) (d : Database) : bool :=
  bool_decide
    (Exists (fun kv : UUID * Attachment.t => Attachment.file_path kv.2 = path)
            (map_to_list (attachments d))).

(** INSERT INTO attachments: the id must be new and so must the path. *)
Definition insert_attachment (id : UUID) (att : Attachment.t) : M unit :=
  existing <- query (fun d => attachments d !! id) ;;
  taken <- query (file_path_taken (Attachment.file_path att)) ;;
  match existing with
  | Some _ => raise IntegrityError
  | None =>
      if taken then raise IntegrityError
      else
        commit (fun d =>
          {| kinds := kinds d;
             edges_kinds := edges_kinds d;
             nodes := nodes d;
             edges := edges d;
             attachments := <[id := att]> (attachments d) |})
  end.

Section Attachments.

(** [str(uuid)], and pathlib's [Path(filename).name]. *)
Variable uuid_str : UUID -> string.
Variable path_name : string -> string.
Variable unlink_raises : string -> bool.

Definition attachment_name (name : option string) (file : UploadFile) : string :=
  or_else name
    (match uf_filename file with
     | Some filename =>
         if String.eqb filename "" then "" else path_name filename
     | None => ""
     end).

Definition rel_path (node_id attachment_id : UUID) : string :=
  uuid_str node_id ++ "/" ++ uuid_str attachment_id.

Definition create_attachment (node_id : UUID) (file : UploadFile)
    (name : option string) (defaults : AttachmentDefaults)
  : M AttachmentOut.t :=
  _get_node_or_404 node_id ;;;
  let attachment_id := ad_uuid4 defaults in
  let mime_type := or_else (uf_content_type file) "application/octet-stream" in
  let path := rel_path node_id attachment_id in
  write_file path ;;;
  let att :=
    {| Attachment.node_id := node_id;
       Attachment.mime_type := mime_type;
       Attachment.name := attachment_name name file;
       Attachment.file_path := path;
       Attachment.created_at := ad_utcnow defaults |} in
  (fun w =>
     match insert_attachment attachment_id att w with
     | (Raise IntegrityError, _) =>
         (_delete_file_quietly unlink_raises path ;;;
          raise (HTTPException 409 (Text "Attachment already exists"))) w
     | r => r
     end) ;;;
  ret (attachment_out attachment_id att).

Definition delete_attachment (id : UUID) : M Ack :=
  att <- query (fun d => attachments d !! id) ;;
  match att with
  | None => raise (HTTPException 404 (Text "Attachment not found"))
  | Some att =>
      _delete_file_quietly unlink_raises (Attachment.file_path att) ;;;
      commit (fun d =>
        {| kinds := kinds d;
           edges_kinds := edges_kinds d;
           nodes := nodes d;
           edges := edges d;
           attachments := delete id (attachments d) |}) ;;;
      ret ok_true
  end.

End Attachments.

(** ** server.py: the database URL *)

Inductive EnvResult : Type :=
| EnvReturn (value : string)
| RuntimeError (message : string).

(** [", ".join(names)] *)
Fixpoint join (sep : string) (l : list string) : string :=
  match l with
  | [] => ""
  | [x] => x
  | x :: l' => x ++ sep ++ join sep l'
  end.

Section Environment.

(** [os.environ]; [urllib.parse.quote(s, safe='')]; [int(s)], which is
    [None] where Python raises [ValueError]. *)
Variable environ : gmap string string.
Variable quote : string -> string.
Variable int : string -> option Z.

Definition _require_env (name : string) : EnvResult :=
  match environ !! name with
  | Some value =>
      if String.eqb value ""
      then RuntimeError ("Missing required env var: " ++ name)
      else EnvReturn value
  | None => RuntimeError ("Missing required env var: " ++ name)
  end.

Fixpoint _first_env (names : list string) : option string :=
  match names with
  | [] => None
  | name :: names' =>
      match environ !! name with
      | Some value =>
          if String.eqb value "" then _first_env names' else Some value
      | None => _first_env names'
      end
  end.

Definition missing_vars (host user password dbname : option string)
  : list string :=
  (if host is None then ["DATABASE_HOST"] else [])
  ++ (if user is None then ["DATABASE_USER"] else [])
  ++ (if password is None then ["DATABASE_PASSWORD"] else [])
  ++ (if dbname is None then ["DATABASE_NAME"] else []).

Definition _database_url : EnvResult :=
  match _first_env ["DATABASE_URL"] with
  | Some explicit => EnvReturn explicit
  | None =>
      let host := _first_env ["DATABASE_HOST"] in
      let port_raw := default "5432" (_first_env ["DATABASE_PORT"]) in
      let user := _first_env ["DATABASE_USER"; "POSTGRES_USER"] in
      let password :=
        _first_env ["DATABASE_PASSWORD"; "DATABASE_PASS"; "POSTGRES_PASSWORD"] in
      let dbname := _first_env ["DATABASE_NAME"; "POSTGRES_DB"] in
      let missing := missing_vars host user password dbname in
      match int port_raw with
      | None => RuntimeError "DATABASE_PORT must be an integer"
      | Some port =>
          match host, user, password, dbname with
          | Some host, Some user, Some password, Some dbname =>
              let driver :=
                default "postgresql+psycopg" (environ !! "DATABASE_DRIVER") in
              EnvReturn
                (driver ++ "://" ++ quote user ++ ":" ++ quote password
                 ++ "@" ++ host ++ ":" ++ pretty.pretty port
                 ++ "/" ++ quote dbname)
          | _, _, _, _ =>
              RuntimeError
                ("Missing required env vars: " ++ join ", " missing
                 ++ ". Set DATABASE_URL instead, or provide the split DATABASE_* variables.")
          end
      end
  end.

End Environment.

(** ** Constraints of the schema

    What [datamodel.py] declares on the tables beyond their primary keys:
    the foreign keys, and [unique=True] on [Attachment.file_path]. *)
Definition constraints_hold (d : Database) : Prop :=
  (forall id node, nodes d !! id = Some node ->
                   is_Some (kinds d !! Node.kind node)) /\
  (forall from_kind to_kind relation,
      (from_kind, to_kind, relation) ∈ edges_kinds d ->
      is_Some (kinds d !! from_kind) /\ is_Some (kinds d !! to_kind)) /\
  (forall from_id to_id relation created,
      edges d !! (from_id, to_id, relation) = Some created ->
      is_Some (nodes d !! from_id) /\ is_Some (nodes d !! to_id)) /\
  (forall id att, attachments d !! id = Some att ->
                  is_Some (nodes d !! Attachment.node_id att)) /\
  (forall id1 id2 att1 att2,
      attachments d !! id1 = Some att1 -> attachments d !! id2 = Some att2 ->
      Attachment.file_path att1 = Attachment.file_path att2 -> id1 = id2).

(** Every edge is an instance of a registered edge kind. *)
Definition edges_allowed (d : Database) : Prop :=
  forall from_id to_id relation created from_node to_node,
    edges d !! (from_id, to_id, relation) = Some created ->
    nodes d !! from_id = Some from_node ->
    nodes d !! to_id = Some to_node ->
    (Node.kind from_node, Node.kind to_node, relation) ∈ edges_kinds d.

(** Every payload satisfies the schema of its kind. *)
Definition payloads_valid
    (iter_errors : dict -> dict -> list ValidationError.t) (d : Database)
  : Prop :=
  forall id node schema,
    nodes d !! id = Some node -> kinds d !! Node.kind node = Some schema ->
    iter_errors schema (Node.payload node) = [].

(** ** More sample data *)
Module Scenario.

(** Kinds [a], [b], [c] with the edge kinds [(a, b, link)] and
    [(b, c, next)], and no node. *)
Definition catalog_world : World :=
  {| db :=
       {| kinds := {[ "a" := []; "b" := []; "c" := [] ]};
          edges_kinds := {[ ("a", "b", "link"); ("b", "c", "next") ]};
          nodes := ∅;
          edges := ∅;
          attachments := ∅ |};
     files := ∅ |}.

(** Ids printed in decimal, and file names without directories. *)
Definition uuid_str (id : UUID) : string := pretty.pretty (id : N).

Definition path_name (filename : string) : string := filename.

(** The sample validator yielding its errors in the opposite order. *)
Definition iter_errors_reversed (schema payload : dict)
  : list ValidationError.t :=
  rev (Sample.iter_errors schema payload).

(** An environment with [DATABASE_URL] and a malformed port. *)
Definition explicit_environ : gmap string string :=
  {[ "DATABASE_URL" := "postgresql+psycopg://u:p@db:5432/graph";
     "DATABASE_PORT" := "five" ]}.

(** An environment with the split variables, the user under its fallback
    name and an empty [DATABASE_URL]. *)
Definition split_environ : gmap string string :=
  {[ "DATABASE_URL" := "";
     "DATABASE_HOST" := "db";
     "POSTGRES_USER" := "graph";
     "DATABASE_PASSWORD" := "secret";
     "DATABASE_NAME" := "rhyolite" ]}.

(** An [int] that reads plain decimal digits, and a [quote] for strings
    that need no escaping. *)
Definition int (s : string) : option Z :=
  if all_digits s && negb (String.eqb s "") then Some (digits_value s 0)
  else None.

Definition quote (s : string) : string := s.

End Scenario.

(** Unfolds the monad so that an endpoint runs on the world at hand. *)
Ltac run_endpoint :=
  unfold bind, query, commit, raise, ret; simpl.

(** ** Properties of [_validate_payload] *)

Section ValidatorProperties.

Variable iter_errors : dict -> dict -> list ValidationError.t.
Variable str : ValidationError.t -> string.

Abbreviation key_le := (key_le str).

#[local] Instance key_le_trans : Transitive key_le.
Proof. intros a b c. unfold key_le. apply transitivity. Qed.

Lemma ltb_false_le (s1 s2 : string) :
  String.ltb s1 s2 = false -> String.le s2 s1.
Proof.
  unfold String.le, String.leb, String.ltb.
  rewrite (String.compare_antisym s2 s1).
  destruct (String.compare s1 s2); simpl; intros; done.
Qed.

Lemma ltb_true_le (s1 s2 : string) :
  String.ltb s1 s2 = true -> String.le s1 s2.
Proof.
  unfold String.le, String.leb, String.ltb.
  destruct (String.compare s1 s2); simpl; intros; done.
Qed.

Lemma ltb_irrefl (s : string) : String.ltb s s = false.
Proof.
  unfold String.ltb.
  destruct (String.compare s s) eqn:E; try done.
  pose proof (String.compare_antisym s s) as H. rewrite E in H. done.
Qed.

Lemma sorted_insert_perm x l : sorted_insert str x l ≡ₚ x :: l.
Proof.
  induction l as [|y l IH]; simpl; [done|].
  destruct (String.ltb (str y) (str x)); [|done].
  rewrite IH. apply Permutation_swap.
Qed.

Lemma sorted_perm l : sorted str l ≡ₚ l.
Proof.
  induction l as [|x l IH]; simpl; [done|].
  rewrite sorted_insert_perm. by rewrite IH.
Qed.

Lemma sorted_insert_sorted x l :
  Sorted key_le l -> Sorted key_le (sorted_insert str x l).
Proof.
  induction l as [|y l IH]; simpl; intros Hl.
  - by repeat constructor.
  - destruct (String.ltb (str y) (str x)) eqn:E.
    + apply Sorted_inv in Hl as [Hl Hhd].
      constructor; [by apply IH|].
      destruct l as [|z l]; simpl.
      * constructor. by apply ltb_true_le.
      * destruct (String.ltb (str z) (str x)).
        -- constructor. by apply HdRel_inv in Hhd.
        -- constructor. by apply ltb_true_le.
    + constructor; [done|]. constructor. by apply ltb_false_le.
Qed.

Lemma sorted_sorted l : StronglySorted key_le (sorted str l).
Proof.
  apply Sorted_StronglySorted; [apply _|].
  induction l as [|x l IH]; simpl; [constructor|].
  by apply sorted_insert_sorted.
Qed.

(** Stability: errors with the same rendering keep the order in which the
    validator produced them. *)
Lemma sorted_insert_stable k x l :
  filter (fun y => str y = k) (sorted_insert str x l)
  = filter (fun y => str y = k) (x :: l).
Proof.
  induction l as [|y l IH]; simpl; [done|].
  destruct (String.ltb (str y) (str x)) eqn:E; [|done].
  rewrite !filter_cons in *.
  destruct (decide (str y = k)) as [Hy|Hy], (decide (str x = k)) as [Hx|Hx];
    rewrite IH; try done.
  rewrite Hy, Hx, ltb_irrefl in E. done.
Qed.

Lemma sorted_stable k l :
  filter (fun y => str y = k) (sorted str l) = filter (fun y => str y = k) l.
Proof.
  induction l as [|x l IH]; simpl; [done|].
  rewrite sorted_insert_stable, !filter_cons. by rewrite IH.
Qed.

(** A sorted, stable arrangement of a list is unique. *)
Lemma stable_sort_unique (l1 l2 : list ValidationError.t) :
  StronglySorted key_le l1 -> StronglySorted key_le l2 ->
  (forall k, filter (fun y => str y = k) l1 = filter (fun y => str y = k) l2) ->
  l1 = l2.
Proof.
  revert l2. induction l1 as [|x l1 IH]; intros l2 H1 H2 Hf.
  - destruct l2 as [|y l2]; [done|].
    specialize (Hf (str y)). rewrite filter_cons in Hf.
    by destruct (decide (str y = str y)).
  - destruct l2 as [|y l2].
    { specialize (Hf (str x)). rewrite filter_cons in Hf.
      by destruct (decide (str x = str x)). }
    apply StronglySorted_inv in H1 as [H1 Hx].
    apply StronglySorted_inv in H2 as [H2 Hy].
    assert (Hxy : str x = str y).
    { assert (x ∈ y :: l2) as Hin1.
      { pose proof (Hf (str x)) as E.
        assert (x ∈ filter (fun y => str y = str x) (x :: l1)) as Hin.
        { apply list_elem_of_filter. split; [done|left]. }
        rewrite E in Hin. by apply list_elem_of_filter in Hin as [_ ?]. }
      assert (y ∈ x :: l1) as Hin2.
      { pose proof (Hf (str y)) as E.
        assert (y ∈ filter (fun z => str z = str y) (y :: l2)) as Hin.
        { apply list_elem_of_filter. split; [done|left]. }
        rewrite <- E in Hin. by apply list_elem_of_filter in Hin as [_ ?]. }
      apply elem_of_cons in Hin1 as [->|Hin1]; [done|].
      apply elem_of_cons in Hin2 as [->|Hin2]; [done|].
      rewrite Forall_forall in Hx, Hy.
      apply (anti_symm String.le); [apply (Hx y Hin2)|apply (Hy x Hin1)]. }
    pose proof (Hf (str x)) as E. rewrite !filter_cons in E.
    destruct (decide (str x = str x)); [|done].
    destruct (decide (str y = str x)); [|congruence].
    injection E as -> E. f_equal. apply IH; [done..|].
    intros k. specialize (Hf k). rewrite !filter_cons in Hf.
    destruct (decide (str y = k)); [|done]. by injection Hf.
Qed.

(** C8. When the validator reports errors for [(schema, payload)],
    [_validate_payload] returns at least one structured error, a second
    run returns the identical list, and the order of the list is fixed by
    the string renderings: it is the validator's errors sorted by [str],
    errors with equal renderings staying in the order they were
    produced, and no other arrangement is sorted and stable. *)
Theorem validate_payload_stable_order (schema payload : dict) :
  iter_errors schema payload <> [] ->
  let run1 := _validate_payload iter_errors str schema payload in
  let run2 := _validate_payload iter_errors str schema payload in
  run1 <> [] /\ run2 = run1 /\
  exists order : list ValidationError.t,
    run1 = map error_dict order /\
    order ≡ₚ iter_errors schema payload /\
    StronglySorted key_le order /\
    (forall k, filter (fun e => str e = k) order
               = filter (fun e => str e = k) (iter_errors schema payload)) /\
    (forall order' : list ValidationError.t,
        StronglySorted key_le order' ->
        (forall k, filter (fun e => str e = k) order'
                   = filter (fun e => str e = k) (iter_errors schema payload)) ->
        order' = order).
Proof.
  intros Hinvalid run1 run2. subst run1 run2. unfold _validate_payload.
  split; [|split; [done|]].
  - intros Hnil. apply map_eq_nil in Hnil.
    apply Hinvalid. apply Permutation_nil_r.
    rewrite <- Hnil. by rewrite sorted_perm.
  - exists (sorted str (iter_errors schema payload)).
    split; [done|]. split; [apply sorted_perm|].
    split; [apply sorted_sorted|]. split; [intros k; apply sorted_stable|].
    intros order' Hsorted Hstable.
    apply stable_sort_unique; [done|apply sorted_sorted|].
    intros k. by rewrite Hstable, sorted_stable.
Qed.

End ValidatorProperties.

Lemma validate_payload_stable_order_witness :
  Sample.iter_errors Sample.person_schema [] <> [] /\
  _validate_payload Sample.iter_errors Sample.str Sample.person_schema [] <> [].
Proof.
  assert (Sample.iter_errors Sample.person_schema [] <> []) as H
    by discriminate.
  split; [exact H|].
  exact (proj1 (validate_payload_stable_order Sample.iter_errors Sample.str
                  Sample.person_schema [] H)).
Defined.

Example validate_payload_sample :
  _validate_payload Sample.iter_errors Sample.str Sample.person_schema []
  = [ mkErrorDict "'active' is a required property" [] [JStr "required"];
      mkErrorDict "'name' is a required property" [] [JStr "required"] ].
Proof. reflexivity. Qed.

(** ** Properties of the endpoints *)

Section EndpointProperties.

Variable iter_errors : dict -> dict -> list ValidationError.t.
Variable str : ValidationError.t -> string.
Variable unlink_raises : string -> bool.
Variable jsonb_error : dict -> option Exception.

Lemma validate_payload_valid (schema payload : dict) :
  iter_errors schema payload = [] ->
  _validate_payload iter_errors str schema payload = [].
Proof. unfold _validate_payload. by intros ->. Qed.

Lemma get_node_found (id : UUID) (w : World) (node : Node.t) :
  nodes (db w) !! id = Some node ->
  get_node id w = (Return (node_out id node), w).
Proof.
  intros H. unfold get_node, _get_node_or_404. run_endpoint. by rewrite H.
Qed.

(** C1, as the code behaves.  For an existing node and a payload the
    schema of its kind accepts, [update_node] succeeds, replaces the
    payload, and leaves [kind] and [created_at] as they were; and it
    leaves [updated_at] as it was too: the timestamp is not bumped. *)
Theorem update_node_keeps_updated_at
    (id : UUID) (body : NodeUpdate) (w : World) (node : Node.t) (schema : dict) :
  nodes (db w) !! id = Some node ->
  kinds (db w) !! Node.kind node = Some schema ->
  iter_errors schema (nu_payload body) = [] ->
  exists (out : NodeOut.t) (w' : World),
    update_node iter_errors str id body w = (Return out, w') /\
    get_node id w' = (Return out, w') /\
    NodeOut.payload out = nu_payload body /\
    NodeOut.kind out = Node.kind node /\
    NodeOut.created_at out = Node.created_at node /\
    NodeOut.updated_at out = Node.updated_at node.
Proof.
  intros Hnode Hkind Hvalid.
  unfold update_node, _get_node_or_404, _get_kind_or_404. run_endpoint.
  rewrite Hnode. simpl. rewrite Hkind. simpl.
  rewrite (validate_payload_valid _ _ Hvalid).
  eexists _, _. split; [reflexivity|].
  split; [|done].
  apply get_node_found. simpl. apply lookup_insert_eq.
Qed.

(** C2, amended.  For a registered kind and a payload its schema
    accepts, [create_node] succeeds when the database takes the payload
    as JSONB and the [uuid4] draw is not in use; a refused payload raises
    the database's error, a taken id [IntegrityError], and either leaves
    the store as it was.  On success an immediate [get_node] of the
    returned id yields the input payload; [created_at] and [updated_at]
    are the two clock readings of the insert, so they are equal exactly
    when those readings are. *)
Theorem create_node_then_get
    (body : NodeCreate) (defaults : NodeDefaults) (w : World) (schema : dict) :
  kinds (db w) !! nc_kind body = Some schema ->
  iter_errors schema (nc_payload body) = [] ->
  match jsonb_error (nc_payload body) with
  | Some e =>
      create_node iter_errors str jsonb_error body defaults w = (Raise e, w)
  | None =>
      match nodes (db w) !! nd_uuid4 defaults with
      | Some _ =>
          create_node iter_errors str jsonb_error body defaults w
          = (Raise IntegrityError, w)
      | None =>
          exists (out : NodeOut.t) (w' : World),
            create_node iter_errors str jsonb_error body defaults w
            = (Return out, w') /\
            get_node (NodeOut.id out) w' = (Return out, w') /\
            NodeOut.payload out = nc_payload body /\
            NodeOut.kind out = nc_kind body /\
            NodeOut.created_at out = nd_utcnow_created defaults /\
            NodeOut.updated_at out = nd_utcnow_updated defaults /\
            (NodeOut.created_at out = NodeOut.updated_at out <->
             nd_utcnow_created defaults = nd_utcnow_updated defaults)
      end
  end.
Proof.
  intros Hkind Hvalid.
  unfold create_node, insert_node. run_endpoint.
  rewrite Hkind. simpl.
  rewrite (validate_payload_valid _ _ Hvalid).
  destruct (jsonb_error (nc_payload body)); [done|].
  destruct (nodes (db w) !! nd_uuid4 defaults) eqn:Hfresh; simpl; [done|].
  eexists _, _. split; [reflexivity|].
  split; [|done].
  apply get_node_found. simpl. apply lookup_insert_eq.
Qed.

End EndpointProperties.

Lemma update_node_keeps_updated_at_witness :
  exists (out : NodeOut.t) (w' : World),
    update_node Sample.iter_errors Sample.str 7%N
      (mkNodeUpdate Sample.ada_inactive) Sample.person_world
    = (Return out, w') /\
    NodeOut.payload out = Sample.ada_inactive /\
    NodeOut.updated_at out = 1000.
Proof.
  destruct (update_node_keeps_updated_at Sample.iter_errors Sample.str 7%N
              (mkNodeUpdate Sample.ada_inactive) Sample.person_world
              (Node.mk "person" Sample.ada 1000 1000) Sample.person_schema)
    as (out & w' & Hrun & _ & Hpayload & _ & _ & Hupdated);
    [reflexivity | reflexivity | reflexivity |].
  exists out, w'. auto.
Defined.

Lemma create_node_then_get_witness :
  exists (out : NodeOut.t) (w' : World),
    create_node Sample.iter_errors Sample.str Sample.jsonb_error
      (mkNodeCreate "person" Sample.ada) (mkNodeDefaults 8%N 2000 2000)
      Sample.person_world
    = (Return out, w') /\
    get_node (NodeOut.id out) w' = (Return out, w') /\
    NodeOut.payload out = Sample.ada.
Proof.
  destruct (create_node_then_get Sample.iter_errors Sample.str
              Sample.jsonb_error
              (mkNodeCreate "person" Sample.ada) (mkNodeDefaults 8%N 2000 2000)
              Sample.person_world Sample.person_schema eq_refl eq_refl)
    as (out & w' & Hrun & Hget & Hpayload & _).
  exists out, w'. auto.
Defined.

(** C2 as stated fails, in three ways.  With clock readings 2000 and 2001
    for the two [utcnow] defaults, the node that [get_node] returns right
    after [create_node] has [created_at] different from [updated_at].  A
    payload that the schema accepts and that holds U+0000 in a string is
    refused by the database: [create_node] raises [DataError] and stores
    nothing.  And a [uuid4] draw that is in use makes the insert raise
    [IntegrityError]. *)
Lemma create_node_departures :
  kinds (db Sample.person_world) !! "person" = Some Sample.person_schema /\
  Sample.iter_errors Sample.person_schema Sample.ada = [] /\
  (exists (out : NodeOut.t) (w' : World),
      create_node Sample.iter_errors Sample.str Sample.jsonb_error
        (mkNodeCreate "person" Sample.ada) (mkNodeDefaults 8%N 2000 2001)
        Sample.person_world
      = (Return out, w') /\
      get_node (NodeOut.id out) w' = (Return out, w') /\
      NodeOut.payload out = Sample.ada /\
      NodeOut.created_at out <> NodeOut.updated_at out) /\
  Sample.iter_errors Sample.person_schema Sample.ada_nul = [] /\
  create_node Sample.iter_errors Sample.str Sample.jsonb_error
    (mkNodeCreate "person" Sample.ada_nul) (mkNodeDefaults 8%N 2000 2000)
    Sample.person_world
  = (Raise DataError, Sample.person_world) /\
  create_node Sample.iter_errors Sample.str Sample.jsonb_error
    (mkNodeCreate "person" Sample.ada) (mkNodeDefaults 7%N 2000 2000)
    Sample.person_world
  = (Raise IntegrityError, Sample.person_world).
Proof.
  split; [reflexivity|]. split; [reflexivity|].
  split.
  { eexists _, _. split; [vm_compute; reflexivity|].
    split; [vm_compute; reflexivity|].
    split; [reflexivity|]. vm_compute. discriminate. }
  split; [reflexivity|].
  split; vm_compute; reflexivity.
Qed.

(** The end-to-end scenario of the test suite for C1: the update goes
    through and [updated_at] after it is not greater than before. *)
Example update_node_updated_at_not_bumped :
  exists (out : NodeOut.t) (w' : World),
    update_node Sample.iter_errors Sample.str 7%N
      (mkNodeUpdate Sample.ada_inactive) Sample.person_world
    = (Return out, w') /\
    ~ (1000 < NodeOut.updated_at out).
Proof.
  eexists _, _. split; [vm_compute; reflexivity|].
  vm_compute. discriminate.
Qed.

Section CascadeProperties.

Variable unlink_raises : string -> bool.

Lemma for_each_unlink (atts : list (UUID * Attachment.t)) (w : World) :
  exists fs : gset string,
    for_each (fun att : UUID * Attachment.t =>
                _delete_file_quietly unlink_raises (Attachment.file_path att.2))
             atts w
    = (Return tt, mkWorld (db w) fs) /\
    forall p, p ∈ fs <->
      p ∈ files w /\
      forall att, att ∈ atts -> Attachment.file_path att.2 = p ->
                  unlink_raises p = true.
Proof.
  revert w. induction atts as [|att atts IH]; intros w; simpl.
  - exists (files w). split; [by destruct w|].
    intros p. split; [intros ?; split; [done|]|by intros [? _]].
    intros att Hin. by apply elem_of_nil in Hin.
  - unfold bind, _delete_file_quietly at 1.
    destruct (unlink_raises (Attachment.file_path att.2)) eqn:E.
    + destruct (IH w) as (fs & -> & Hfs). exists fs. split; [done|].
      intros p. rewrite Hfs. split; intros [Hp Hall]; (split; [done|]).
      * intros att' [->|Hin]%elem_of_cons Hpath; [congruence|eauto].
      * intros att' Hin. apply Hall. by right.
    + destruct (IH (mkWorld (db w) (files w ∖ {[Attachment.file_path att.2]})))
        as (fs & -> & Hfs).
      exists fs. split; [done|].
      intros p. rewrite Hfs. simpl. rewrite elem_of_difference, elem_of_singleton.
      split.
      * intros [[Hp Hne] Hall]. split; [done|].
        intros att' [->|Hin]%elem_of_cons Hpath; [congruence|eauto].
      * intros [Hp Hall]. split; [split; [done|]|].
        -- intros ->. specialize (Hall att (list_elem_of_here _ _) eq_refl).
           congruence.
        -- intros att' Hin. apply Hall. by right.
Qed.

Lemma delete_node_run (id : UUID) (w : World) :
  match nodes (db w) !! id with
  | None =>
      delete_node unlink_raises id w
      = (Raise (HTTPException 404 (Text "Node not found")), w)
  | Some _ =>
      exists fs : gset string,
        delete_node unlink_raises id w
        = (Return ok_true, mkWorld (delete_node_row id (db w)) fs) /\
        forall p, p ∈ fs <->
          p ∈ files w /\
          forall att, att ∈ attachments_of_node id (db w) ->
                      Attachment.file_path att.2 = p -> unlink_raises p = true
  end.
Proof.
  unfold delete_node. run_endpoint.
  destruct (nodes (db w) !! id) as [node|]; simpl; [|done].
  destruct (for_each_unlink (attachments_of_node id (db w)) w)
    as (fs & Hrun & Hfs).
  rewrite Hrun. simpl. by exists fs.
Qed.

(** C3. Deleting a node that does not exist raises 404 "Node not found"
    and changes nothing.  Deleting an existing node succeeds whether or
    not the file removals do, and afterwards: the node is gone; every
    attachment it owned is gone, [get_attachment] on it raises 404, and
    its file is gone unless the unlink raised; every edge with the node
    as source or target is gone and looking it up raises 404; kinds,
    edge kinds, other nodes, edges between other nodes and attachments
    of other nodes are as before. *)
Theorem delete_node_cascades (id : UUID) (w : World) :
  match nodes (db w) !! id with
  | None =>
      delete_node unlink_raises id w
      = (Raise (HTTPException 404 (Text "Node not found")), w)
  | Some _ =>
      exists w' : World,
        delete_node unlink_raises id w = (Return ok_true, w') /\
        nodes (db w') !! id = None /\
        (forall (aid : UUID) (att : Attachment.t),
            attachments (db w) !! aid = Some att ->
            Attachment.node_id att = id ->
            attachments (db w') !! aid = None /\
            get_attachment aid w'
            = (Raise (HTTPException 404 (Text "Attachment not found")), w') /\
            (unlink_raises (Attachment.file_path att) = false ->
             Attachment.file_path att ∉ files w')) /\
        (forall (from_id to_id : UUID) (relation : string),
            from_id = id \/ to_id = id ->
            edges (db w') !! (from_id, to_id, relation) = None /\
            delete_edge from_id to_id relation w'
            = (Raise (HTTPException 404 (Text "Edge not found")), w')) /\
        kinds (db w') = kinds (db w) /\
        edges_kinds (db w') = edges_kinds (db w) /\
        (forall id' : UUID, id' <> id ->
            nodes (db w') !! id' = nodes (db w) !! id') /\
        (forall from_id to_id relation, from_id <> id -> to_id <> id ->
            edges (db w') !! (from_id, to_id, relation)
            = edges (db w) !! (from_id, to_id, relation)) /\
        (forall (aid : UUID) (att : Attachment.t),
            attachments (db w) !! aid = Some att ->
            Attachment.node_id att <> id ->
            attachments (db w') !! aid = Some att) /\
        files w' ⊆ files w
  end.
Proof.
  pose proof (delete_node_run id w) as Hrun.
  destruct (nodes (db w) !! id) as [node|]; [|done].
  destruct Hrun as (fs & Hrun & Hfs).
  eexists. split; [exact Hrun|]. simpl.
  split; [apply lookup_delete_eq|].
  split; [|split; [|split; [done|split; [done|split; [|split; [|split]]]]]].
  - intros aid att Hatt Hown.
    assert (filter (fun kv : UUID * Attachment.t => Attachment.node_id kv.2 <> id)
                   (attachments (db w)) !! aid = None) as Hgone.
    { apply map_lookup_filter_None. right. intros att' Hatt'. simpl.
      rewrite Hatt in Hatt'. injection Hatt' as <-. by intros []. }
    split; [done|]. split.
    + unfold get_attachment. run_endpoint. by rewrite Hgone.
    + intros Hok Hin. apply Hfs in Hin as [_ Hall].
      specialize (Hall (aid, att)). simpl in Hall.
      rewrite Hall in Hok; [done| |done].
      unfold attachments_of_node. apply list_elem_of_filter. split; [done|].
      by apply elem_of_map_to_list.
  - intros from_id to_id relation Hend.
    assert (filter (fun kv : EdgeKey * datetime =>
                      kv.1.1.1 <> id /\ kv.1.1.2 <> id)
                   (edges (db w)) !! (from_id, to_id, relation) = None) as Hgone.
    { apply map_lookup_filter_None. right. intros c _. simpl. tauto. }
    split; [done|]. unfold delete_edge. run_endpoint. by rewrite Hgone.
  - intros id' Hne. by apply lookup_delete_ne.
  - intros from_id to_id relation Hfrom Hto.
    destruct (edges (db w) !! (from_id, to_id, relation)) as [c|] eqn:E.
    + by apply map_lookup_filter_Some.
    + apply map_lookup_filter_None. by left.
  - intros aid att Hatt Hne. by apply map_lookup_filter_Some.
  - intros p Hp. by apply Hfs in Hp as [? _].
Qed.

End CascadeProperties.

Lemma filter_none {A} (P : A -> Prop) `{!forall x, Decision (P x)} (l : list A) :
  (forall x, x ∈ l -> ~ P x) -> filter P l = [].
Proof.
  induction l as [|x l IH]; intros Hnone; [done|].
  rewrite filter_cons. destruct (decide (P x)) as [HP|_].
  - destruct (Hnone x); [left|done].
  - apply IH. intros y Hy. apply Hnone. by right.
Qed.

Section EdgeProperties.

(** C4. [create_edge] decides in this order: a missing [from_id] or
    [to_id] node raises 400; otherwise an edge kind
    [(from_node.kind, to_node.kind, relation)] that is not registered
    raises 400 "not allowed"; otherwise an edge already stored under
    [(from_id, to_id, relation)] raises 409; otherwise the call succeeds
    and the edge is stored.  A failing call leaves the world as it was. *)
Theorem create_edge_outcome (body : EdgeCreate) (utcnow : datetime) (w : World) :
  let key := (ec_from_id body, ec_to_id body, ec_relation body) in
  match nodes (db w) !! ec_from_id body, nodes (db w) !! ec_to_id body with
  | None, _ =>
      create_edge body utcnow w
      = (Raise (HTTPException 400 (Text "from_id node not found")), w)
  | Some _, None =>
      create_edge body utcnow w
      = (Raise (HTTPException 400 (Text "to_id node not found")), w)
  | Some from_node, Some to_node =>
      if decide ((Node.kind from_node, Node.kind to_node, ec_relation body)
                   ∈ edges_kinds (db w))
      then
        match edges (db w) !! key with
        | Some _ =>
            create_edge body utcnow w
            = (Raise (HTTPException 409 (Text "Edge already exists")), w)
        | None =>
            exists w' : World,
              create_edge body utcnow w = (Return (edge_out key utcnow), w') /\
              edges (db w') !! key = Some utcnow /\
              (forall key', key' <> key ->
                  edges (db w') !! key' = edges (db w) !! key') /\
              nodes (db w') = nodes (db w) /\
              files w' = files w
        end
      else
        create_edge body utcnow w
        = (Raise (HTTPException 400
                    (Text "Edge relationship not allowed by edges-kinds")), w)
  end.
Proof.
  intros key. unfold create_edge, try_commit, insert_edge. run_endpoint.
  destruct (nodes (db w) !! ec_from_id body) as [from_node|]; simpl; [|done].
  destruct (nodes (db w) !! ec_to_id body) as [to_node|]; simpl; [|done].
  case_decide as Hallowed.
  - rewrite bool_decide_eq_true_2 by done. simpl.
    subst key.
    destruct (edges (db w) !! (ec_from_id body, ec_to_id body, ec_relation body))
      as [c|] eqn:E; simpl; [done|].
    eexists. split; [reflexivity|]. simpl.
    split; [apply lookup_insert_eq|]. split; [|done].
    intros key' Hne. by apply lookup_insert_ne.
  - by rewrite bool_decide_eq_false_2.
Qed.

(** Creating the same edge a second time raises 409. *)
Lemma create_edge_twice (body : EdgeCreate) (t1 t2 : datetime) (w w1 : World)
    (out : EdgeOut.t) :
  create_edge body t1 w = (Return out, w1) ->
  create_edge body t2 w1
  = (Raise (HTTPException 409 (Text "Edge already exists")), w1).
Proof.
  unfold create_edge, try_commit, insert_edge. run_endpoint.
  destruct (nodes (db w) !! ec_from_id body) as [fn|] eqn:Ef; simpl; [|done].
  destruct (nodes (db w) !! ec_to_id body) as [tn|] eqn:Et; simpl; [|done].
  destruct (bool_decide
              ((Node.kind fn, Node.kind tn, ec_relation body) ∈ edges_kinds (db w)))
    eqn:Ea; simpl; [|done].
  destruct (edges (db w) !! (ec_from_id body, ec_to_id body, ec_relation body))
    eqn:Ee; simpl; [done|].
  intros [= _ <-]. simpl. rewrite Ef. simpl. rewrite Et. simpl.
  rewrite Ea. simpl. by rewrite lookup_insert_eq.
Qed.

Lemma select_edges_nil (P : EdgeKey -> bool) (d : Database) :
  (forall key c, edges d !! key = Some c -> P key = false) ->
  select_edges P d = [].
Proof.
  intros Hnone. unfold select_edges.
  assert (filter (fun kv : EdgeKey * datetime => P kv.1 = true)
                 (map_to_list (edges d)) = []) as ->; [|done].
  apply filter_none. intros [key c] Hin%elem_of_map_to_list. simpl.
  by rewrite (Hnone _ _ Hin).
Qed.

(** C9. With no node [node_id], [outgoing_edges] and [incoming_edges]
    raise 404 "Node not found".  [edges_between] never raises and never
    looks at the nodes: whenever no edge is stored from [from_id] to
    [to_id], for ids of absent nodes as well, it returns the empty
    list. *)
Theorem edge_listing_anchor (w : World) :
  (forall node_id : UUID,
      nodes (db w) !! node_id = None ->
      outgoing_edges node_id w
      = (Raise (HTTPException 404 (Text "Node not found")), w) /\
      incoming_edges node_id w
      = (Raise (HTTPException 404 (Text "Node not found")), w)) /\
  (forall from_id to_id : UUID,
      exists found : list EdgeOut.t,
        edges_between from_id to_id w = (Return found, w) /\
        ((forall relation, edges (db w) !! (from_id, to_id, relation) = None) ->
         found = [])).
Proof.
  split.
  - intros node_id Hnone.
    unfold outgoing_edges, incoming_edges, _get_node_or_404. run_endpoint.
    by rewrite Hnone.
  - intros from_id to_id. eexists. split; [reflexivity|].
    intros Hnone. apply select_edges_nil.
    intros [[f t] r] c Hedge. simpl.
    destruct (decide (f = from_id)) as [->|Hf];
      [|by rewrite bool_decide_eq_false_2].
    destruct (decide (t = to_id)) as [->|Ht];
      [|by rewrite (bool_decide_eq_false_2 (t = to_id)), andb_false_r].
    by rewrite Hnone in Hedge.
Qed.

End EdgeProperties.

Section KindProperties.

Variable unlink_raises : string -> bool.

Lemma count_nodes_of_kind_pos (name : string) (d : Database) (id : UUID)
    (node : Node.t) :
  nodes d !! id = Some node -> Node.kind node = name ->
  0 < count_nodes_of_kind name d.
Proof.
  intros Hnode Hkind. unfold count_nodes_of_kind.
  assert ((id, node) ∈ filter (fun kv : UUID * Node.t => Node.kind kv.2 = name)
                              (map_to_list (nodes d))) as Hin.
  { apply list_elem_of_filter. split; [done|]. by apply elem_of_map_to_list. }
  destruct (filter _ _); [by apply elem_of_nil in Hin|]. simpl. lia.
Qed.

Lemma count_nodes_of_kind_zero (name : string) (d : Database) :
  (forall id node, nodes d !! id = Some node -> Node.kind node <> name) ->
  count_nodes_of_kind name d = 0.
Proof.
  intros Hnone. unfold count_nodes_of_kind.
  assert (filter (fun kv : UUID * Node.t => Node.kind kv.2 = name)
                 (map_to_list (nodes d)) = []) as ->; [|done].
  apply filter_none. intros [id node] Hin%elem_of_map_to_list.
  simpl. eauto.
Qed.

(** What [delete_node] leaves of the tables [delete_kind] reads. *)
Lemma delete_node_kinds_nodes (id : UUID) (w : World) :
  let w' := (delete_node unlink_raises id w).2 in
  kinds (db w') = kinds (db w) /\
  nodes (db w') !! id = None /\
  (forall id' node, nodes (db w') !! id' = Some node ->
                    nodes (db w) !! id' = Some node).
Proof.
  pose proof (delete_node_run unlink_raises id w) as Hrun. simpl.
  destruct (nodes (db w) !! id) as [node|] eqn:E.
  - destruct Hrun as (fs & -> & _). simpl.
    split; [done|]. split; [apply lookup_delete_eq|].
    intros id' node'. rewrite lookup_delete_Some. tauto.
  - rewrite Hrun. simpl. done.
Qed.

Lemma delete_nodes_kinds_nodes (ids : list UUID) (w : World) :
  let w' := delete_nodes unlink_raises ids w in
  kinds (db w') = kinds (db w) /\
  (forall id' node, nodes (db w') !! id' = Some node ->
                    nodes (db w) !! id' = Some node /\ id' ∉ ids).
Proof.
  revert w. induction ids as [|id ids IH]; intros w; simpl.
  - split; [done|]. intros id' node H. split; [done|]. apply not_elem_of_nil.
  - destruct (delete_node_kinds_nodes id w) as (Hk & Hgone & Hsub).
    destruct (IH (delete_node unlink_raises id w).2) as (Hk' & Hsub').
    split; [by rewrite Hk', Hk|].
    intros id' node H. destruct (Hsub' _ _ H) as [H1 Hnotin].
    split; [by apply Hsub|].
    intros [->|?]%elem_of_cons; [|done]. by rewrite Hgone in H1.
Qed.

(** C5. Deleting a kind that is not registered raises 404.  Deleting a
    registered kind while some node has it raises 400 and leaves the
    world, the kind included, as it was; and once [delete_node] has been
    called on every node of that kind, the same [delete_kind] succeeds
    and the kind is gone. *)
Theorem delete_kind_guarded (name : string) (w : World) :
  match kinds (db w) !! name with
  | None =>
      delete_kind name w
      = (Raise (HTTPException 404 (Text "Kind not found")), w)
  | Some schema =>
      ((exists id node,
           nodes (db w) !! id = Some node /\ Node.kind node = name) ->
       delete_kind name w
       = (Raise (HTTPException 400
                   (Text "Cannot delete kind with existing nodes")), w) /\
       kinds (db w) !! name = Some schema) /\
      (forall ids : list UUID,
          (forall id node,
              nodes (db w) !! id = Some node -> Node.kind node = name ->
              id ∈ ids) ->
          exists w' : World,
            delete_kind name (delete_nodes unlink_raises ids w)
            = (Return ok_true, w') /\
            kinds (db w') !! name = None)
  end.
Proof.
  destruct (kinds (db w) !! name) as [schema|] eqn:Hkind.
  - split.
    + intros (id & node & Hnode & Hk). split; [|done].
      unfold delete_kind. run_endpoint. rewrite Hkind. simpl.
      pose proof (count_nodes_of_kind_pos name (db w) id node Hnode Hk) as Hpos.
      destruct (count_nodes_of_kind name (db w) =? 0) eqn:E0; [lia|].
      destruct (count_nodes_of_kind name (db w) >? 0) eqn:E1; [done|lia].
    + intros ids Hall.
      destruct (delete_nodes_kinds_nodes ids w) as (Hk & Hsub).
      unfold delete_kind. run_endpoint. rewrite Hk, Hkind. simpl.
      rewrite count_nodes_of_kind_zero.
      * simpl. eexists. split; [reflexivity|]. simpl. apply lookup_delete_eq.
      * intros id node Hnode Heq. destruct (Hsub _ _ Hnode) as [Hw Hnotin].
        apply Hnotin. eauto.
  - unfold delete_kind. run_endpoint. by rewrite Hkind.
Qed.

End KindProperties.

(** ** Properties of the search compiler *)

Lemma replace_length (old new : ascii) (s : string) :
  String.length (replace old new s) = String.length s.
Proof. induction s as [|a s IH]; simpl; [done|]. by rewrite IH. Qed.

Lemma replace_get (old new : ascii) (s : string) (i : nat) :
  String.get i (replace old new s)
  = (fun c => if Ascii.eqb c old then new else c) <$> String.get i s.
Proof.
  revert i. induction s as [|a s IH]; intros i; simpl; [done|].
  destruct i as [|i]; simpl; [done|]. apply IH.
Qed.

Lemma append_cons (a : ascii) (s t : string) :
  String a s ++ t = String a (s ++ t).
Proof. reflexivity. Qed.

Lemma prefix_spec (sub s : string) :
  String.prefix sub s = true <-> exists post, s = sub ++ post.
Proof.
  revert s. induction sub as [|a sub IH]; intros s.
  - split; [intros _; by exists s|by destruct s].
  - destruct s as [|b s]; simpl.
    + split; [done|]. intros [post H]. discriminate.
    + destruct (ascii_dec a b) as [->|Hne].
      * rewrite IH. split; intros [post H]; exists post.
        -- by rewrite append_cons, H.
        -- rewrite append_cons in H. by injection H.
      * split; [done|]. intros [post H]. rewrite append_cons in H.
        injection H as ? _. done.
Qed.

Lemma has_substring_spec (sub s : string) :
  has_substring sub s = true <-> exists pre post, s = pre ++ sub ++ post.
Proof.
  induction s as [|a s IH].
  - change (has_substring sub "") with (String.prefix sub "" || false).
    rewrite orb_false_r, prefix_spec. split.
    + intros [post H]. by exists "", post.
    + intros (pre & post & H). destruct pre; [by exists post|discriminate].
  - change (has_substring sub (String a s))
      with (String.prefix sub (String a s) || has_substring sub s).
    rewrite orb_true_iff, prefix_spec, IH. split.
    + intros [[post H]|(pre & post & H)].
      * by exists "", post.
      * exists (String a pre), post. by rewrite append_cons, H.
    + intros (pre & post & H). destruct pre as [|b pre].
      * left. by exists post.
      * right. rewrite append_cons in H. injection H as _ H. by exists pre, post.
Qed.

Lemma like_percent (t : string) : like "%" t = LikeTrue.
Proof. induction t as [|a t IH]; [done|]. simpl in *. exact IH. Qed.

Lemma prefix_cons (a b : ascii) (sub s : string) :
  String.prefix (String a sub) (String b s)
  = Ascii.eqb b a && String.prefix sub s.
Proof.
  change (String.prefix (String a sub) (String b s))
    with (if ascii_dec a b then String.prefix sub s else false).
  destruct (ascii_dec a b) as [->|Hne].
  - by rewrite Ascii.eqb_refl.
  - assert (Ascii.eqb b a = false) as ->; [|done].
    apply Ascii.eqb_neq. congruence.
Qed.

Lemma like_literal (c : ascii) (p : string) (a : ascii) (t : string) :
  c <> "%"%char -> c <> "_"%char -> c <> "\"%char ->
  like (String c p) (String a t)
  = if Ascii.eqb a c then like p t else LikeFalse.
Proof.
  intros H1 H2 H3.
  destruct c as [[] [] [] [] [] [] [] []]; try reflexivity; congruence.
Qed.

Lemma like_foo_prefix (t : string) :
  like "foo%" t = if String.prefix "foo" t then LikeTrue else LikeFalse.
Proof.
  destruct t as [|a t]; [done|].
  rewrite like_literal, prefix_cons by done.
  destruct (Ascii.eqb a "f"); [|done].
  destruct t as [|b t]; [done|].
  rewrite like_literal, prefix_cons by done.
  destruct (Ascii.eqb b "o"); [|done].
  destruct t as [|c t]; [done|].
  rewrite like_literal, prefix_cons by done.
  destruct (Ascii.eqb c "o"); [|done].
  rewrite like_percent. by destruct t.
Qed.

Lemma like_contains_foo (t : string) :
  like "%foo%" t = if has_substring "foo" t then LikeTrue else LikeFalse.
Proof.
  induction t as [|a t IH].
  - reflexivity.
  - change (like "%foo%" (String a t))
      with (match like "foo%" (String a t) with
            | LikeFalse => like "%foo%" t
            | r => r
            end).
    rewrite like_foo_prefix, IH.
    change (has_substring "foo" (String a t))
      with (String.prefix "foo" (String a t) || has_substring "foo" t).
    by destruct (String.prefix "foo" (String a t)).
Qed.

Section SearchProperties.

Variable json_dumps : json -> string.
Variable jsonb_container_out : json -> string.

Abbreviation compile := (compile_item json_dumps).
Abbreviation extract_text := (jsonb_extract_path_text jsonb_container_out).
Abbreviation eval := (eval_clause jsonb_container_out).
Abbreviation satisfied := (matches jsonb_container_out).
Abbreviation filter_row := (where_ jsonb_container_out).
Abbreviation scan_rows := (scan jsonb_container_out).
Abbreviation search := (search_nodes json_dumps jsonb_container_out).

(** A member under another key does not change what a path finds. *)
Lemma jsonb_extract_path_other_member (k step : string) (v : json)
    (payload : dict) (path : list string) :
  k <> step ->
  jsonb_extract_path (JObj ((k, v) :: payload)) (step :: path)
  = jsonb_extract_path (JObj payload) (step :: path).
Proof.
  intros Hne. simpl.
  destruct (String.eqb k step) eqn:E; [|done].
  by apply String.eqb_eq in E.
Qed.

Lemma eval_ilike_foo (path : list string) (node : Node.t) :
  eval (ILike path "%foo%") node
  = match extract_text (Node.payload node) path with
    | None => Return None
    | Some text => Return (Some (has_substring "foo" (lower text)))
    end.
Proof.
  unfold eval_clause.
  destruct (extract_text (Node.payload node) path) as [text|];
    [|done].
  unfold ilike. change (lower "%foo%") with "%foo%".
  rewrite like_contains_foo. by destruct (has_substring "foo" (lower text)).
Qed.

Lemma extract_text_null (payload : dict) (path : list string) :
  extract_text payload path = None <->
  jsonb_extract_path (JObj payload) path = None \/
  jsonb_extract_path (JObj payload) path = Some JNull.
Proof.
  unfold jsonb_extract_path_text.
  destruct (jsonb_extract_path (JObj payload) path) as [[|[]| | | |]|];
    split; intros H; try done; auto; by destruct H.
Qed.




Lemma eval_clause_raises (c : clause) (node : Node.t) (e : Exception) :
  eval c node = Raise e -> e = DataError.
Proof.
  destruct c as [kinds|path pattern|path text|path b|path m ex|path]; simpl;
    try done.
  - destruct (extract_text (Node.payload node) path) as [t|]; [|done].
    destruct (ilike t pattern); congruence.
  - by destruct (extract_text (Node.payload node) path).
  - destruct (extract_text (Node.payload node) path) as [t|]; [|done].
    destruct (cast_boolean t); congruence.
  - destruct (extract_text (Node.payload node) path) as [t|]; [|done].
    destruct (cast_numeric t); congruence.
  - by destruct (extract_text (Node.payload node) path).
Qed.

Lemma where_raises (clauses : list clause) (node : Node.t) (e : Exception) :
  filter_row clauses node = Raise e -> e = DataError.
Proof.
  induction clauses as [|c clauses IH]; simpl; [done|].
  destruct (eval c node) as [[[]|]|e'] eqn:E; try done.
  intros [= <-]. by apply eval_clause_raises in E.
Qed.

(** One failing row fails an unlimited scan, wherever the row sits. *)
Lemma scan_raises (clauses : list clause) (rows : list (UUID * Node.t))
    (id : UUID) (node : Node.t) :
  (id, node) ∈ rows ->
  filter_row clauses node = Raise DataError ->
  scan_rows clauses rows None = Raise DataError.
Proof.
  intros Hin Hbad. induction rows as [|[id' node'] rows IH];
    [by apply elem_of_nil in Hin|]. simpl.
  apply elem_of_cons in Hin as [[= <- <-]|Hin].
  - by rewrite Hbad.
  - destruct (filter_row clauses node') as [[]|e] eqn:E.
    + by rewrite (IH Hin).
    + by apply IH.
    + by rewrite (where_raises _ _ _ E).
Qed.

(** C10. A boolean predicate compiles to a comparison of the text at the
    dot-path cast to BOOLEAN, a numeric one to a comparison of that text
    cast to NUMERIC.  The casts are partial: on a row whose text at the
    path is not a valid boolean (number) the clause raises instead of
    evaluating to false, and a search made of that one predicate then
    raises as a whole, as it does on the world with the single payload
    [{"x": "abc"}]. *)
Theorem search_cast_partial :
  (forall (key : string) (b : bool),
      compile key (JBool b) = EqBoolean (split "." key) b) /\
  (forall (key : string) (mantissa exponent : Z),
      compile key (JNum mantissa exponent)
      = EqNumeric (split "." key) mantissa exponent) /\
  cast_boolean "abc" = None /\
  cast_numeric "abc" = None /\
  (forall (key : string) (val : json) (w : World) (id : UUID) (node : Node.t)
          (text : string),
      nodes (db w) !! id = Some node ->
      extract_text (Node.payload node) (split "." key) = Some text ->
      (exists b, val = JBool b /\ cast_boolean text = None) \/
      (exists mantissa exponent,
          val = JNum mantissa exponent /\ cast_numeric text = None) ->
      eval (compile key val) node = Raise DataError /\
      search (mkSearchDatamodel None [(key, val)] None) w
      = (Raise DataError, w)) /\
  search (mkSearchDatamodel None [("x", JBool true)] None) Sample.text_world
  = (Raise DataError, Sample.text_world) /\
  search (mkSearchDatamodel None [("x", JNum 1 0)] None) Sample.text_world
  = (Raise DataError, Sample.text_world).
Proof.
  assert (forall (key : string) (val : json) (w : World) (id : UUID)
                 (node : Node.t) (text : string),
      nodes (db w) !! id = Some node ->
      extract_text (Node.payload node) (split "." key) = Some text ->
      (exists b, val = JBool b /\ cast_boolean text = None) \/
      (exists mantissa exponent,
          val = JNum mantissa exponent /\ cast_numeric text = None) ->
      eval (compile key val) node = Raise DataError /\
      search (mkSearchDatamodel None [(key, val)] None) w
      = (Raise DataError, w)) as Hgeneral.
  { intros key val w id node text Hnode Htext Hcast.
    assert (eval (compile key val) node = Raise DataError) as Heval.
    { destruct Hcast as [(b & -> & Hcast)|(m & e & -> & Hcast)]; simpl;
        by rewrite Htext, Hcast. }
    split; [done|].
    unfold search_nodes, build_clauses. run_endpoint. f_equal.
    apply (scan_raises _ _ id node); [by apply elem_of_map_to_list|].
    simpl. by rewrite Heval. }
  split; [done|]. split; [done|]. split; [reflexivity|]. split; [reflexivity|].
  split; [exact Hgeneral|].
  split.
  - apply (Hgeneral "x" (JBool true) Sample.text_world 3%N
             (Node.mk "note" [("x", JStr "abc")] 50 50) "abc");
      [reflexivity|reflexivity|].
    left. by exists true.
  - apply (Hgeneral "x" (JNum 1 0) Sample.text_world 3%N
             (Node.mk "note" [("x", JStr "abc")] 50 50) "abc");
      [reflexivity|reflexivity|].
    right. by exists 1, 0.
Qed.

End SearchProperties.

(** ** The scenarios of the test suite, run on the sample worlds *)

(** Deleting node 1 of the sample graph takes its edge, its attachment and
    the attachment's file with it; a second delete raises 404. *)
Example delete_node_scenario :
  exists w' : World,
    delete_node Sample.unlink_raises 1%N Sample.graph_world
    = (Return ok_true, w') /\
    nodes (db w') !! 1%N = None /\
    edges (db w') !! (1%N, 2%N, "link") = None /\
    get_attachment 5%N w'
    = (Raise (HTTPException 404 (Text "Attachment not found")), w') /\
    files w' = ∅ /\
    delete_node Sample.unlink_raises 1%N w'
    = (Raise (HTTPException 404 (Text "Node not found")), w').
Proof.
  eexists. split; [vm_compute; reflexivity|].
  repeat split; vm_compute; reflexivity.
Qed.

(** Kinds [a], [b] and edge kind [(a, b, link)]: the stored edge cannot be
    created again, another relation or the reverse direction is not
    allowed, an unknown endpoint is rejected, and after deleting the edge
    it can be created anew. *)
Example create_edge_scenario :
  (create_edge (mkEdgeCreate 1%N 2%N "link") 99 Sample.graph_world).1
  = Raise (HTTPException 409 (Text "Edge already exists")) /\
  (create_edge (mkEdgeCreate 1%N 2%N "other") 99 Sample.graph_world).1
  = Raise (HTTPException 400
             (Text "Edge relationship not allowed by edges-kinds")) /\
  (create_edge (mkEdgeCreate 2%N 1%N "link") 99 Sample.graph_world).1
  = Raise (HTTPException 400
             (Text "Edge relationship not allowed by edges-kinds")) /\
  (create_edge (mkEdgeCreate 4%N 2%N "link") 99 Sample.graph_world).1
  = Raise (HTTPException 400 (Text "from_id node not found")) /\
  (create_edge (mkEdgeCreate 1%N 4%N "link") 99 Sample.graph_world).1
  = Raise (HTTPException 400 (Text "to_id node not found")) /\
  (create_edge (mkEdgeCreate 1%N 2%N "link") 99
     (delete_edge 1%N 2%N "link" Sample.graph_world).2).1
  = Return (EdgeOut.mk 1%N 2%N "link" 99).
Proof. repeat split; vm_compute; reflexivity. Qed.

(** Kind [a] cannot be deleted while node 1 has it, can be once node 1 is
    deleted, and kind [c] was never registered. *)
Example delete_kind_scenario :
  (delete_kind "a" Sample.graph_world).1
  = Raise (HTTPException 400 (Text "Cannot delete kind with existing nodes")) /\
  (delete_kind "a"
     (delete_nodes Sample.unlink_raises [1%N] Sample.graph_world)).1
  = Return ok_true /\
  (delete_kind "c" Sample.graph_world).1
  = Raise (HTTPException 404 (Text "Kind not found")).
Proof. repeat split; vm_compute; reflexivity. Qed.

(** Listing around node 9, which does not exist. *)
Example edge_listing_scenario :
  (outgoing_edges 9%N Sample.graph_world).1
  = Raise (HTTPException 404 (Text "Node not found")) /\
  (incoming_edges 9%N Sample.graph_world).1
  = Raise (HTTPException 404 (Text "Node not found")) /\
  (edges_between 9%N 2%N Sample.graph_world).1 = Return [] /\
  (edges_between 1%N 2%N Sample.graph_world).1
  = Return [EdgeOut.mk 1%N 2%N "link" 30].
Proof. repeat split; vm_compute; reflexivity. Qed.

(** Searching the sample notes: the wildcard ignores letter case, a
    missing path matches only the null predicate, a number matches text
    that casts to the same value, and text that does not cast fails the
    search. *)
Example search_scenario :
  Sample.search_ids (mkSearchDatamodel None [("a.b", JStr "*foo*")] None)
    Sample.search_world = Return [1%N] /\
  Sample.search_ids (mkSearchDatamodel None [("a.b", JNull)] None)
    Sample.search_world = Return [3%N] /\
  Sample.search_ids (mkSearchDatamodel None [("a.c", JNull)] None)
    Sample.search_world = Return [2%N; 3%N; 1%N] /\
  Sample.search_ids (mkSearchDatamodel None [("a.b", JStr "bar")] None)
    Sample.search_world = Return [2%N] /\
  Sample.search_ids (mkSearchDatamodel None [("n", JNum 36 0)] None)
    Sample.search_world = Return [2%N; 1%N] /\
  Sample.search_ids (mkSearchDatamodel None [("a.b", JNum 36 0)] None)
    Sample.search_world = Raise DataError.
Proof. repeat split; vm_compute; reflexivity. Qed.

(** ** How the remaining endpoints run *)

Lemma create_kind_run (body : KindCreate) (w : World) :
  create_kind body w =
  match kinds (db w) !! kc_name body with
  | Some _ => (Raise (HTTPException 409 (Text "Kind already exists")), w)
  | None =>
      (Return (KindOut.mk (kc_name body) (kc_schema body)),
       mkWorld
         (mkDatabase (<[kc_name body := kc_schema body]> (kinds (db w)))
                     (edges_kinds (db w)) (nodes (db w)) (edges (db w))
                     (attachments (db w)))
         (files w))
  end.
Proof.
  unfold create_kind, try_commit, insert_kind. run_endpoint.
  by destruct (kinds (db w) !! kc_name body).
Qed.


Lemma create_edges_kind_run (body : EdgesKindCreate) (w : World) :
  let ek := (ekc_from_kind body, ekc_to_kind body, ekc_relation body) in
  create_edges_kind body w =
  match kinds (db w) !! ekc_from_kind body, kinds (db w) !! ekc_to_kind body with
  | None, _ | _, None => (Raise (HTTPException 404 (Text "Kind not found")), w)
  | Some _, Some _ =>
      if decide (ek ∈ edges_kinds (db w)) then
        (Raise (HTTPException 409 (Text "Edges kind already exists")), w)
      else
        (Return ek,
         mkWorld
           (mkDatabase (kinds (db w)) ({[ ek ]} ∪ edges_kinds (db w))
                       (nodes (db w)) (edges (db w)) (attachments (db w)))
           (files w))
  end.
Proof.
  intros ek. subst ek.
  unfold create_edges_kind, _get_kind_or_404, try_commit, insert_edges_kind.
  run_endpoint.
  destruct (kinds (db w) !! ekc_from_kind body); simpl; [|done].
  destruct (kinds (db w) !! ekc_to_kind body); simpl; [|done].
  case_decide.
  - by rewrite bool_decide_eq_true_2.
  - by rewrite bool_decide_eq_false_2.
Qed.

Lemma get_edges_kind_run (from_kind to_kind relation : string) (w : World) :
  get_edges_kind from_kind to_kind relation w =
  if decide ((from_kind, to_kind, relation) ∈ edges_kinds (db w))
  then (Return (from_kind, to_kind, relation), w)
  else (Raise (HTTPException 404 (Text "Edges kind not found")), w).
Proof.
  unfold get_edges_kind. run_endpoint. case_decide.
  - by rewrite bool_decide_eq_true_2.
  - by rewrite bool_decide_eq_false_2.
Qed.

Lemma positive_count (n : Z) :
  negb (n =? 0) && (n >? 0) = bool_decide (0 < n).
Proof.
  case_bool_decide.
  - destruct (n =? 0) eqn:E0; [lia|]. destruct (n >? 0) eqn:E1; [done|lia].
  - destruct (n =? 0) eqn:E0; [done|]. destruct (n >? 0) eqn:E1; [lia|done].
Qed.

Lemma length_filter_pos {A} (P : A -> Prop) `{!forall x, Decision (P x)}
    (l : list A) :
  0 < Z.of_nat (length (filter P l)) <-> exists x, x ∈ l /\ P x.
Proof.
  split.
  - destruct (filter P l) as [|x l'] eqn:E; simpl; [lia|]. intros _.
    assert (x ∈ filter P l) as Hin by (rewrite E; left).
    apply list_elem_of_filter in Hin. exists x. tauto.
  - intros (x & Hin & HP).
    assert (x ∈ filter P l) as Hin' by (by apply list_elem_of_filter).
    destruct (filter P l); [by apply elem_of_nil in Hin'|]. simpl. lia.
Qed.

Lemma count_edges_of_kind_pos (ek : EdgesKind) (d : Database) :
  0 < count_edges_of_kind ek d <->
  exists key created,
    edges d !! key = Some created /\ edge_instantiates d ek key = true.
Proof.
  unfold count_edges_of_kind. rewrite length_filter_pos. split.
  - intros ([key created] & Hin%elem_of_map_to_list & H). by exists key, created.
  - intros (key & created & Hin & H). exists (key, created).
    split; [by apply elem_of_map_to_list|done].
Qed.

Lemma count_nodes_of_kind_pos_iff (name : string) (d : Database) :
  0 < count_nodes_of_kind name d <->
  exists id node, nodes d !! id = Some node /\ Node.kind node = name.
Proof.
  unfold count_nodes_of_kind. rewrite length_filter_pos. split.
  - intros ([id node] & Hin%elem_of_map_to_list & H). by exists id, node.
  - intros (id & node & Hin & H). exists (id, node).
    split; [by apply elem_of_map_to_list|done].
Qed.

Lemma delete_kind_run (name : string) (w : World) :
  delete_kind name w =
  match kinds (db w) !! name with
  | None => (Raise (HTTPException 404 (Text "Kind not found")), w)
  | Some _ =>
      if decide (0 < count_nodes_of_kind name (db w)) then
        (Raise (HTTPException 400
                  (Text "Cannot delete kind with existing nodes")), w)
      else (Return ok_true, mkWorld (delete_kind_row name (db w)) (files w))
  end.
Proof.
  unfold delete_kind. run_endpoint.
  destruct (kinds (db w) !! name); simpl; [|done].
  rewrite positive_count. by case_bool_decide; case_decide.
Qed.

Lemma delete_edges_kind_run (from_kind to_kind relation : string) (w : World) :
  let ek := (from_kind, to_kind, relation) in
  delete_edges_kind from_kind to_kind relation w =
  if decide (ek ∈ edges_kinds (db w)) then
    if decide (0 < count_edges_of_kind ek (db w)) then
      (Raise (HTTPException 400
                (Text "Cannot delete edges kind used by existing edges")), w)
    else
      (Return ok_true,
       mkWorld
         (mkDatabase (kinds (db w)) (edges_kinds (db w) ∖ {[ ek ]})
                     (nodes (db w)) (edges (db w)) (attachments (db w)))
         (files w))
  else (Raise (HTTPException 404 (Text "Edges kind not found")), w).
Proof.
  intros ek. subst ek. unfold delete_edges_kind. run_endpoint.
  case_decide as Hin.
  - rewrite bool_decide_eq_true_2 by done. simpl.
    rewrite positive_count. by case_bool_decide; case_decide.
  - by rewrite bool_decide_eq_false_2.
Qed.

Lemma delete_edge_run (from_id to_id : UUID) (relation : string) (w : World) :
  delete_edge from_id to_id relation w =
  match edges (db w) !! (from_id, to_id, relation) with
  | None => (Raise (HTTPException 404 (Text "Edge not found")), w)
  | Some _ =>
      (Return ok_true,
       mkWorld
         (mkDatabase (kinds (db w)) (edges_kinds (db w)) (nodes (db w))
                     (delete (from_id, to_id, relation) (edges (db w)))
                     (attachments (db w)))
         (files w))
  end.
Proof.
  unfold delete_edge. run_endpoint.
  by destruct (edges (db w) !! (from_id, to_id, relation)).
Qed.

Lemma create_edge_run (body : EdgeCreate) (utcnow : datetime) (w : World) :
  let key := (ec_from_id body, ec_to_id body, ec_relation body) in
  create_edge body utcnow w =
  match nodes (db w) !! ec_from_id body, nodes (db w) !! ec_to_id body with
  | None, _ => (Raise (HTTPException 400 (Text "from_id node not found")), w)
  | Some _, None => (Raise (HTTPException 400 (Text "to_id node not found")), w)
  | Some from_node, Some to_node =>
      if decide ((Node.kind from_node, Node.kind to_node, ec_relation body)
                   ∈ edges_kinds (db w))
      then
        match edges (db w) !! key with
        | Some _ => (Raise (HTTPException 409 (Text "Edge already exists")), w)
        | None =>
            (Return (edge_out key utcnow),
             mkWorld
               (mkDatabase (kinds (db w)) (edges_kinds (db w)) (nodes (db w))
                           (<[key := utcnow]> (edges (db w)))
                           (attachments (db w)))
               (files w))
        end
      else
        (Raise (HTTPException 400
                  (Text "Edge relationship not allowed by edges-kinds")), w)
  end.
Proof.
  intros key. subst key. unfold create_edge, try_commit, insert_edge.
  run_endpoint.
  destruct (nodes (db w) !! ec_from_id body) as [from_node|]; simpl; [|done].
  destruct (nodes (db w) !! ec_to_id body) as [to_node|]; simpl; [|done].
  case_decide as Hallowed.
  - rewrite bool_decide_eq_true_2 by done. simpl.
    by destruct (edges (db w) !! (ec_from_id body, ec_to_id body, ec_relation body)).
  - by rewrite bool_decide_eq_false_2.
Qed.

Section NodeRuns.

Variable iter_errors : dict -> dict -> list ValidationError.t.
Variable str : ValidationError.t -> string.
Variable jsonb_error : dict -> option Exception.

Lemma create_node_run (body : NodeCreate) (defaults : NodeDefaults) (w : World) :
  create_node iter_errors str jsonb_error body defaults w =
  match kinds (db w) !! nc_kind body with
  | None => (Raise (HTTPException 400 (Text "Unknown kind")), w)
  | Some schema =>
      match _validate_payload iter_errors str schema (nc_payload body) with
      | e :: errors =>
          (Raise (HTTPException 400
                    (PayloadErrors "Payload does not match schema"
                                   (e :: errors))), w)
      | [] =>
          let node := Node.mk (nc_kind body) (nc_payload body)
                        (nd_utcnow_created defaults)
                        (nd_utcnow_updated defaults) in
          match jsonb_error (nc_payload body) with
          | Some e => (Raise e, w)
          | None =>
              match nodes (db w) !! nd_uuid4 defaults with
              | Some _ => (Raise IntegrityError, w)
              | None =>
                  (Return (node_out (nd_uuid4 defaults) node),
                   mkWorld
                     (mkDatabase (kinds (db w)) (edges_kinds (db w))
                                 (<[nd_uuid4 defaults := node]> (nodes (db w)))
                                 (edges (db w)) (attachments (db w)))
                     (files w))
              end
          end
      end
  end.
Proof.
  unfold create_node, insert_node. run_endpoint.
  destruct (kinds (db w) !! nc_kind body) as [schema|]; simpl; [|done].
  destruct (_validate_payload iter_errors str schema (nc_payload body));
    simpl; [|done].
  destruct (jsonb_error (nc_payload body)); [done|].
  by destruct (nodes (db w) !! nd_uuid4 defaults).
Qed.

Lemma update_node_run (id : UUID) (body : NodeUpdate) (w : World) :
  update_node iter_errors str id body w =
  match nodes (db w) !! id with
  | None => (Raise (HTTPException 404 (Text "Node not found")), w)
  | Some node =>
      match kinds (db w) !! Node.kind node with
      | None => (Raise (HTTPException 404 (Text "Kind not found")), w)
      | Some schema =>
          match _validate_payload iter_errors str schema (nu_payload body) with
          | e :: errors =>
              (Raise (HTTPException 400
                        (PayloadErrors "Payload does not match schema"
                                       (e :: errors))), w)
          | [] =>
              let node' := Node.mk (Node.kind node) (nu_payload body)
                             (Node.created_at node) (Node.updated_at node) in
              (Return (node_out id node'),
               mkWorld
                 (mkDatabase (kinds (db w)) (edges_kinds (db w))
                             (<[id := node']> (nodes (db w)))
                             (edges (db w)) (attachments (db w)))
                 (files w))
          end
      end
  end.
Proof.
  unfold update_node, _get_node_or_404, _get_kind_or_404. run_endpoint.
  destruct (nodes (db w) !! id) as [node|]; simpl; [|done].
  destruct (kinds (db w) !! Node.kind node) as [schema|]; simpl; [|done].
  by destruct (_validate_payload iter_errors str schema (nu_payload body)).
Qed.

Lemma validate_payload_nil (schema payload : dict) :
  _validate_payload iter_errors str schema payload = [] <->
  iter_errors schema payload = [].
Proof.
  unfold _validate_payload. split.
  - intros H%map_eq_nil. apply Permutation_nil_r.
    rewrite <- H. by rewrite sorted_perm.
  - by intros ->.
Qed.

End NodeRuns.

Section AttachmentRuns.

Variable uuid_str : UUID -> string.
Variable path_name : string -> string.
Variable unlink_raises : string -> bool.

Lemma file_path_taken_spec (path : string) (d : Database) :
  file_path_taken path d = true <->
  exists id att, attachments d !! id = Some att /\ Attachment.file_path att = path.
Proof.
  unfold file_path_taken. rewrite bool_decide_eq_true, Exists_exists. split.
  - intros ([id att] & Hin%elem_of_map_to_list & H). by exists id, att.
  - intros (id & att & Hin & H). exists (id, att).
    split; [by apply elem_of_map_to_list|done].
Qed.

Lemma create_attachment_run (node_id : UUID) (file : UploadFile)
    (name : option string) (defaults : AttachmentDefaults) (w : World) :
  let path := rel_path uuid_str node_id (ad_uuid4 defaults) in
  let att :=
    Attachment.mk node_id
      (or_else (uf_content_type file) "application/octet-stream")
      (attachment_name path_name name file) path (ad_utcnow defaults) in
  create_attachment uuid_str path_name unlink_raises node_id file name defaults w =
  match nodes (db w) !! node_id with
  | None => (Raise (HTTPException 404 (Text "Node not found")), w)
  | Some _ =>
      if decide (attachments (db w) !! ad_uuid4 defaults = None /\
                 file_path_taken path (db w) = false)
      then
        (Return (attachment_out (ad_uuid4 defaults) att),
         mkWorld
           (mkDatabase (kinds (db w)) (edges_kinds (db w)) (nodes (db w))
                       (edges (db w))
                       (<[ad_uuid4 defaults := att]> (attachments (db w))))
           (files w ∪ {[ path ]}))
      else
        (Raise (HTTPException 409 (Text "Attachment already exists")),
         mkWorld (db w)
                 (if unlink_raises path then files w ∪ {[ path ]}
                  else (files w ∪ {[ path ]}) ∖ {[ path ]}))
  end.
Proof.
  intros path att. subst path att.
  unfold create_attachment, _get_node_or_404, write_file, insert_attachment,
    _delete_file_quietly.
  run_endpoint.
  destruct (nodes (db w) !! node_id) as [node|]; simpl; [|done].
  destruct (decide _) as [[Hnew Hfree]|Hclash].
  - by rewrite Hnew, Hfree.
  - destruct (attachments (db w) !! ad_uuid4 defaults) as [old|]; simpl.
    + by destruct (unlink_raises _).
    + destruct (file_path_taken _ (db w)); simpl; [|by destruct Hclash].
      by destruct (unlink_raises _).
Qed.

Lemma delete_attachment_run (id : UUID) (w : World) :
  delete_attachment unlink_raises id w =
  match attachments (db w) !! id with
  | None => (Raise (HTTPException 404 (Text "Attachment not found")), w)
  | Some att =>
      (Return ok_true,
       mkWorld
         (mkDatabase (kinds (db w)) (edges_kinds (db w)) (nodes (db w))
                     (edges (db w)) (delete id (attachments (db w))))
         (if unlink_raises (Attachment.file_path att) then files w
          else files w ∖ {[ Attachment.file_path att ]}))
  end.
Proof.
  unfold delete_attachment, _delete_file_quietly. run_endpoint.
  destruct (attachments (db w) !! id) as [att|]; simpl; [|done].
  by destruct (unlink_raises (Attachment.file_path att)).
Qed.

Lemma get_attachment_run (id : UUID) (w : World) :
  get_attachment id w =
  match attachments (db w) !! id with
  | None => (Raise (HTTPException 404 (Text "Attachment not found")), w)
  | Some att =>
      if decide (Attachment.file_path att ∈ files w)
      then (Return (attachment_out id att), w)
      else (Raise (HTTPException 404 (Text "Attachment file missing")), w)
  end.
Proof.
  unfold get_attachment. run_endpoint.
  destruct (attachments (db w) !! id) as [att|]; simpl; [|done].
  case_decide.
  - by rewrite bool_decide_eq_true_2.
  - by rewrite bool_decide_eq_false_2.
Qed.

End AttachmentRuns.

(** ** More properties of the kind and edge endpoints *)


(** X2. [create_edges_kind] answers 404 "Kind not found" when the source
    kind or the target kind is not registered, even if the triple is
    already stored; otherwise 409 when the triple is stored; otherwise it
    stores the triple, after which [get_edges_kind] finds it and every
    other triple is found exactly as before. *)
Theorem create_edges_kind_outcome (body : EdgesKindCreate) (w : World) :
  let ek := (ekc_from_kind body, ekc_to_kind body, ekc_relation body) in
  match kinds (db w) !! ekc_from_kind body, kinds (db w) !! ekc_to_kind body with
  | Some _, Some _ =>
      if decide (ek ∈ edges_kinds (db w)) then
        create_edges_kind body w
        = (Raise (HTTPException 409 (Text "Edges kind already exists")), w)
      else
        exists w' : World,
          create_edges_kind body w = (Return ek, w') /\
          get_edges_kind (ekc_from_kind body) (ekc_to_kind body)
            (ekc_relation body) w' = (Return ek, w') /\
          (forall other : EdgesKind,
              other <> ek ->
              (other ∈ edges_kinds (db w') <-> other ∈ edges_kinds (db w))) /\
          kinds (db w') = kinds (db w) /\
          nodes (db w') = nodes (db w) /\
          edges (db w') = edges (db w)
  | _, _ =>
      create_edges_kind body w
      = (Raise (HTTPException 404 (Text "Kind not found")), w)
  end.
Proof.
  intros ek. pose proof (create_edges_kind_run body w) as Hrun. simpl in Hrun.
  fold ek in Hrun.
  destruct (kinds (db w) !! ekc_from_kind body); [|done].
  destruct (kinds (db w) !! ekc_to_kind body); [|done].
  case_decide as Hin; [done|].
  eexists. split; [exact Hrun|].
  split.
  - rewrite get_edges_kind_run. simpl. rewrite decide_True; [done|].
    apply elem_of_union_l. by apply elem_of_singleton.
  - split; [|done]. intros other Hne. simpl.
    rewrite elem_of_union, elem_of_singleton. tauto.
Qed.

(** X3. [delete_edges_kind] answers 404 for a triple that is not stored;
    400, changing nothing, while some edge with that relation joins a
    node of the source kind to a node of the target kind; and otherwise
    removes the triple and only the triple. *)
Theorem delete_edges_kind_guarded (from_kind to_kind relation : string)
    (w : World) :
  let ek := (from_kind, to_kind, relation) in
  let used :=
    exists from_id to_id created from_node to_node,
      edges (db w) !! (from_id, to_id, relation) = Some created /\
      nodes (db w) !! from_id = Some from_node /\
      nodes (db w) !! to_id = Some to_node /\
      Node.kind from_node = from_kind /\ Node.kind to_node = to_kind in
  if decide (ek ∈ edges_kinds (db w)) then
    (used ->
     delete_edges_kind from_kind to_kind relation w
     = (Raise (HTTPException 400
                 (Text "Cannot delete edges kind used by existing edges")), w)) /\
    (~ used ->
     exists w' : World,
       delete_edges_kind from_kind to_kind relation w = (Return ok_true, w') /\
       (forall other : EdgesKind,
           other ∈ edges_kinds (db w') <->
           other ∈ edges_kinds (db w) /\ other <> ek) /\
       kinds (db w') = kinds (db w) /\
       nodes (db w') = nodes (db w) /\
       edges (db w') = edges (db w) /\
       attachments (db w') = attachments (db w) /\
       files w' = files w)
  else
    delete_edges_kind from_kind to_kind relation w
    = (Raise (HTTPException 404 (Text "Edges kind not found")), w).
Proof.
  intros ek used. pose proof (delete_edges_kind_run from_kind to_kind relation w)
    as Hrun. simpl in Hrun. fold ek in Hrun.
  assert (0 < count_edges_of_kind ek (db w) <-> used) as Hcount.
  { rewrite count_edges_of_kind_pos. unfold used, edge_instantiates. split.
    - intros ([[f t] r] & created & Hedge & Hinst). simpl in Hinst.
      destruct (nodes (db w) !! f) as [fn|] eqn:Ef; [|done].
      destruct (nodes (db w) !! t) as [tn|] eqn:Et; [|done].
      apply andb_true_iff in Hinst as [[Hr Hf]%andb_true_iff Ht].
      apply String.eqb_eq in Hr, Hf, Ht. subst r.
      by exists f, t, created, fn, tn.
    - intros (f & t & created & fn & tn & Hedge & Hf & Ht & Hkf & Hkt).
      exists (f, t, relation), created. split; [done|]. simpl.
      rewrite Hf, Ht, Hkf, Hkt. by rewrite !String.eqb_refl. }
  case_decide as Hin; [|done]. split.
  - intros Hused. by rewrite Hrun, decide_True by (by apply Hcount).
  - intros Hunused. rewrite decide_False in Hrun by (by rewrite Hcount).
    eexists. split; [exact Hrun|]. split; [|done].
    intros other. simpl. rewrite elem_of_difference, elem_of_singleton. done.
Qed.

(** X4. A successful [delete_kind] removes the kind together with every
    edge kind that names it as source or target, and nothing else: the
    other kinds, the other edge kinds, nodes, edges, attachments and
    files are as before. *)
Theorem delete_kind_cascades (name : string) (w w' : World) :
  delete_kind name w = (Return ok_true, w') ->
  kinds (db w') !! name = None /\
  (forall other : string,
      other <> name -> kinds (db w') !! other = kinds (db w) !! other) /\
  (forall from_kind to_kind relation,
      (from_kind, to_kind, relation) ∈ edges_kinds (db w') <->
      (from_kind, to_kind, relation) ∈ edges_kinds (db w) /\
      from_kind <> name /\ to_kind <> name) /\
  (forall id node, nodes (db w) !! id = Some node -> Node.kind node <> name) /\
  nodes (db w') = nodes (db w) /\
  edges (db w') = edges (db w) /\
  attachments (db w') = attachments (db w) /\
  files w' = files w.
Proof.
  rewrite delete_kind_run.
  destruct (kinds (db w) !! name); [|done].
  case_decide as Hcount; [done|]. intros [= <-]. simpl.
  split; [apply lookup_delete_eq|].
  split; [intros other Hne; by apply lookup_delete_ne|].
  split; [intros f t r; rewrite elem_of_filter; simpl; tauto|].
  split; [|done].
  intros id node Hnode Hkind. apply Hcount.
  apply count_nodes_of_kind_pos_iff. eauto.
Qed.

(** X5. [delete_edge] answers 404 for an edge that is not stored and
    changes nothing; otherwise it removes that edge and only that edge,
    so that deleting it again answers 404. *)
Theorem delete_edge_outcome (from_id to_id : UUID) (relation : string)
    (w : World) :
  match edges (db w) !! (from_id, to_id, relation) with
  | None =>
      delete_edge from_id to_id relation w
      = (Raise (HTTPException 404 (Text "Edge not found")), w)
  | Some _ =>
      exists w' : World,
        delete_edge from_id to_id relation w = (Return ok_true, w') /\
        delete_edge from_id to_id relation w'
        = (Raise (HTTPException 404 (Text "Edge not found")), w') /\
        (forall key : EdgeKey,
            key <> (from_id, to_id, relation) ->
            edges (db w') !! key = edges (db w) !! key) /\
        kinds (db w') = kinds (db w) /\
        edges_kinds (db w') = edges_kinds (db w) /\
        nodes (db w') = nodes (db w) /\
        attachments (db w') = attachments (db w) /\
        files w' = files w
  end.
Proof.
  rewrite delete_edge_run.
  destruct (edges (db w) !! (from_id, to_id, relation)) eqn:E; [|done].
  eexists. split; [reflexivity|]. split.
  - rewrite delete_edge_run. simpl. by rewrite lookup_delete_eq.
  - split; [|done]. intros key Hne. simpl. by rewrite lookup_delete_ne.
Qed.

(** X6. An edge that [create_edge] has just stored can be deleted, and
    after that the same request succeeds again. *)
Theorem create_delete_create_edge (body : EdgeCreate) (t1 t2 : datetime)
    (w w1 : World) (out : EdgeOut.t) :
  create_edge body t1 w = (Return out, w1) ->
  exists w2 w3 : World,
    delete_edge (ec_from_id body) (ec_to_id body) (ec_relation body) w1
    = (Return ok_true, w2) /\
    create_edge body t2 w2
    = (Return (edge_out (ec_from_id body, ec_to_id body, ec_relation body) t2),
       w3) /\
    edges (db w3) !! (ec_from_id body, ec_to_id body, ec_relation body)
    = Some t2.
Proof.
  pose proof (create_edge_run body t1 w) as Hrun. simpl in Hrun.
  rewrite Hrun. clear Hrun.
  destruct (nodes (db w) !! ec_from_id body) as [fn|] eqn:Ef; [|done].
  destruct (nodes (db w) !! ec_to_id body) as [tn|] eqn:Et; [|done].
  case_decide as Hallowed; [|done].
  destruct (edges (db w) !! _) eqn:Ee; [done|]. intros [= _ <-].
  rewrite delete_edge_run. simpl. rewrite lookup_insert_eq.
  eexists _, _. split; [reflexivity|].
  pose proof (create_edge_run body t2) as Hrun. simpl in Hrun.
  rewrite Hrun. simpl. rewrite Ef, Et, decide_True by done.
  rewrite lookup_delete_eq. split; [reflexivity|]. simpl.
  apply lookup_insert_eq.
Qed.

Lemma create_delete_create_edge_witness :
  exists w2 w3 : World,
    delete_edge 1%N 2%N "link"
      (create_edge (mkEdgeCreate 1%N 2%N "link") 50
         (delete_edge 1%N 2%N "link" Sample.graph_world).2).2
    = (Return ok_true, w2) /\
    create_edge (mkEdgeCreate 1%N 2%N "link") 60 w2
    = (Return (edge_out (1%N, 2%N, "link") 60), w3) /\
    edges (db w3) !! (1%N, 2%N, "link") = Some 60.
Proof.
  apply (create_delete_create_edge (mkEdgeCreate 1%N 2%N "link") 50 60
           (delete_edge 1%N 2%N "link" Sample.graph_world).2 _
           (edge_out (1%N, 2%N, "link") 50)).
  vm_compute. reflexivity.
Defined.

Lemma select_edges_elem (P : EdgeKey -> bool) (d : Database) (e : EdgeOut.t) :
  e ∈ select_edges P d <->
  P (EdgeOut.from_id e, EdgeOut.to_id e, EdgeOut.relation e) = true /\
  edges d !! (EdgeOut.from_id e, EdgeOut.to_id e, EdgeOut.relation e)
  = Some (EdgeOut.created_at e).
Proof.
  unfold select_edges. split.
  - intros ([[[f t] r] c] & -> & Hin)%list_elem_of_fmap.
    apply list_elem_of_filter in Hin as [HP Hin%elem_of_map_to_list].
    by simpl in *.
  - intros [HP Hedge]. apply list_elem_of_fmap.
    exists ((EdgeOut.from_id e, EdgeOut.to_id e, EdgeOut.relation e),
            EdgeOut.created_at e).
    split; [by destruct e|].
    apply list_elem_of_filter. split; [done|]. by apply elem_of_map_to_list.
Qed.

Lemma select_edges_NoDup (P : EdgeKey -> bool) (d : Database) :
  NoDup (select_edges P d).
Proof.
  unfold select_edges. apply NoDup_fmap_2_strong.
  - intros [[[f t] r] c] [[[f' t'] r'] c'] _ _ [= -> -> -> ->]. done.
  - apply NoDup_filter, NoDup_map_to_list.
Qed.

(** X7. For a node that exists, [outgoing_edges] lists, each once,
    exactly the stored edges whose source is the node, [incoming_edges]
    exactly those whose target is the node, and [edges_between] from the
    node to any other id exactly the outgoing edges with that target. *)
Theorem edge_listings_exact (node_id : UUID) (w : World) :
  is_Some (nodes (db w) !! node_id) ->
  exists out inc : list EdgeOut.t,
    outgoing_edges node_id w = (Return out, w) /\
    incoming_edges node_id w = (Return inc, w) /\
    NoDup out /\ NoDup inc /\
    (forall e : EdgeOut.t,
        e ∈ out <->
        EdgeOut.from_id e = node_id /\
        edges (db w) !! (EdgeOut.from_id e, EdgeOut.to_id e, EdgeOut.relation e)
        = Some (EdgeOut.created_at e)) /\
    (forall e : EdgeOut.t,
        e ∈ inc <->
        EdgeOut.to_id e = node_id /\
        edges (db w) !! (EdgeOut.from_id e, EdgeOut.to_id e, EdgeOut.relation e)
        = Some (EdgeOut.created_at e)) /\
    (forall other : UUID,
        exists between : list EdgeOut.t,
          edges_between node_id other w = (Return between, w) /\
          NoDup between /\
          forall e : EdgeOut.t,
            e ∈ between <-> e ∈ out /\ EdgeOut.to_id e = other).
Proof.
  intros [node Hnode].
  unfold outgoing_edges, incoming_edges, edges_between, _get_node_or_404.
  run_endpoint. rewrite Hnode. simpl.
  eexists _, _. split; [reflexivity|]. split; [reflexivity|].
  split; [apply select_edges_NoDup|]. split; [apply select_edges_NoDup|].
  split; [|split].
  - intros e. rewrite select_edges_elem. simpl.
    by rewrite bool_decide_eq_true.
  - intros e. rewrite select_edges_elem. simpl.
    by rewrite bool_decide_eq_true.
  - intros other. eexists. split; [reflexivity|].
    split; [apply select_edges_NoDup|].
    intros e. rewrite !select_edges_elem. simpl.
    rewrite andb_true_iff, !bool_decide_eq_true. tauto.
Qed.

Lemma edge_listings_exact_witness :
  exists out inc : list EdgeOut.t,
    outgoing_edges 1%N Sample.graph_world = (Return out, Sample.graph_world) /\
    incoming_edges 1%N Sample.graph_world = (Return inc, Sample.graph_world) /\
    NoDup out /\ NoDup inc.
Proof.
  destruct (edge_listings_exact 1%N Sample.graph_world)
    as (out & inc & Hout & Hinc & Hnd1 & Hnd2 & _).
  - eexists. vm_compute. reflexivity.
  - exists out, inc. exact (conj Hout (conj Hinc (conj Hnd1 Hnd2))).
Defined.

(** ** More properties of the attachment endpoints *)

Section AttachmentProperties.

Variable uuid_str : UUID -> string.
Variable path_name : string -> string.
Variable unlink_raises : string -> bool.

(** X8. [delete_attachment] answers 404 for an id without a row and
    changes nothing.  Otherwise it succeeds whether or not the unlink
    raises: the row is gone and [get_attachment] answers 404, the file is
    gone unless the unlink raised, no other file is touched, and every
    other row of every table is as before. *)
Theorem delete_attachment_outcome (id : UUID) (w : World) :
  match attachments (db w) !! id with
  | None =>
      delete_attachment unlink_raises id w
      = (Raise (HTTPException 404 (Text "Attachment not found")), w)
  | Some att =>
      exists w' : World,
        delete_attachment unlink_raises id w = (Return ok_true, w') /\
        attachments (db w') !! id = None /\
        get_attachment id w'
        = (Raise (HTTPException 404 (Text "Attachment not found")), w') /\
        (unlink_raises (Attachment.file_path att) = false ->
         Attachment.file_path att ∉ files w') /\
        (forall path : string,
            path <> Attachment.file_path att ->
            (path ∈ files w' <-> path ∈ files w)) /\
        (forall other : UUID,
            other <> id ->
            attachments (db w') !! other = attachments (db w) !! other) /\
        kinds (db w') = kinds (db w) /\
        edges_kinds (db w') = edges_kinds (db w) /\
        nodes (db w') = nodes (db w) /\
        edges (db w') = edges (db w)
  end.
Proof.
  rewrite delete_attachment_run.
  destruct (attachments (db w) !! id) as [att|] eqn:E; [|done].
  eexists. split; [reflexivity|]. simpl.
  split; [apply lookup_delete_eq|].
  split; [rewrite get_attachment_run; simpl; by rewrite lookup_delete_eq|].
  split; [|split; [|split; [|done]]].
  - intros ->. set_solver.
  - intros path Hne. destruct (unlink_raises _); set_solver.
  - intros other Hne. by apply lookup_delete_ne.
Qed.

(** X9. With the node present, an attachment id that is new and a key
    [str(node_id)/str(id)] no row uses, [create_attachment] succeeds: the
    row is stored under the new id with that key, the file exists,
    [get_attachment] returns what the call returned, and all other rows
    and files stay.  The MIME type falls back to
    [application/octet-stream]; the name is the [name] parameter when it
    is given and not empty, else the last component of the upload's file
    name, else empty. *)
Theorem create_attachment_stores (node_id : UUID) (file : UploadFile)
    (name : option string) (defaults : AttachmentDefaults) (w : World) :
  is_Some (nodes (db w) !! node_id) ->
  attachments (db w) !! ad_uuid4 defaults = None ->
  (forall id att, attachments (db w) !! id = Some att ->
                  Attachment.file_path att
                  <> rel_path uuid_str node_id (ad_uuid4 defaults)) ->
  exists (out : AttachmentOut.t) (att : Attachment.t) (w' : World),
    create_attachment uuid_str path_name unlink_raises node_id file name
      defaults w = (Return out, w') /\
    get_attachment (ad_uuid4 defaults) w' = (Return out, w') /\
    attachments (db w') !! ad_uuid4 defaults = Some att /\
    Attachment.file_path att = rel_path uuid_str node_id (ad_uuid4 defaults) /\
    Attachment.node_id att = node_id /\
    AttachmentOut.id out = ad_uuid4 defaults /\
    AttachmentOut.node_id out = node_id /\
    AttachmentOut.created_at out = ad_utcnow defaults /\
    AttachmentOut.mime_type out
    = or_else (uf_content_type file) "application/octet-stream" /\
    (forall given : string,
        name = Some given -> given <> "" -> AttachmentOut.name out = given) /\
    (name = None \/ name = Some "" ->
     AttachmentOut.name out
     = match uf_filename file with
       | Some filename => if decide (filename = "") then "" else path_name filename
       | None => ""
       end) /\
    (forall other : UUID,
        other <> ad_uuid4 defaults ->
        attachments (db w') !! other = attachments (db w) !! other) /\
    files w' = files w ∪ {[ rel_path uuid_str node_id (ad_uuid4 defaults) ]} /\
    kinds (db w') = kinds (db w) /\
    edges_kinds (db w') = edges_kinds (db w) /\
    nodes (db w') = nodes (db w) /\
    edges (db w') = edges (db w).
Proof.
  intros [node Hnode] Hnew Hfree.
  pose proof (create_attachment_run uuid_str path_name unlink_raises node_id
                file name defaults w) as Hrun. simpl in Hrun.
  rewrite Hnode in Hrun. rewrite decide_True in Hrun.
  2:{ split; [done|]. apply not_true_is_false. intros Htaken.
      apply file_path_taken_spec in Htaken as (id & att & Hatt & Hpath).
      by apply (Hfree id att). }
  eexists _, _, _. split; [exact Hrun|]. simpl.
  split.
  { rewrite get_attachment_run. simpl. rewrite lookup_insert_eq. simpl.
    rewrite decide_True; [done|]. set_solver. }
  split; [apply lookup_insert_eq|].
  do 6 (split; [done|]).
  split.
  { intros given -> Hgiven. unfold attachment_name. simpl.
    destruct (String.eqb given "") eqn:E; [|done].
    by apply String.eqb_eq in E. }
  split.
  { intros Hname. unfold attachment_name.
    assert (forall fallback, or_else name fallback = fallback) as ->
      by (by destruct Hname as [-> | ->]).
    destruct (uf_filename file) as [filename|]; [|done].
    case_decide as Hempty.
    - by rewrite Hempty.
    - by apply String.eqb_neq in Hempty as ->. }
  split; [|done]. intros other Hne. by apply lookup_insert_ne.
Qed.

(** X10. With the node present, [create_attachment] with an id that is
    taken, or whose key some row uses, answers 409 and leaves every
    table as it was; the file it wrote at the key is removed again
    unless the unlink raises, so an attachment already stored under that
    key then has no file and [get_attachment] on it answers 404.  With
    the node absent the call answers 404 and writes nothing. *)
Theorem create_attachment_collision (node_id : UUID) (file : UploadFile)
    (name : option string) (defaults : AttachmentDefaults) (w : World) :
  let path := rel_path uuid_str node_id (ad_uuid4 defaults) in
  match nodes (db w) !! node_id with
  | None =>
      create_attachment uuid_str path_name unlink_raises node_id file name
        defaults w
      = (Raise (HTTPException 404 (Text "Node not found")), w)
  | Some _ =>
      is_Some (attachments (db w) !! ad_uuid4 defaults) \/
      (exists id att, attachments (db w) !! id = Some att /\
                      Attachment.file_path att = path) ->
      exists w' : World,
        create_attachment uuid_str path_name unlink_raises node_id file name
          defaults w
        = (Raise (HTTPException 409 (Text "Attachment already exists")), w') /\
        db w' = db w /\
        (forall other : string,
            other <> path -> (other ∈ files w' <-> other ∈ files w)) /\
        (unlink_raises path = false ->
         (path ∉ files w') /\
         (forall id att,
             attachments (db w) !! id = Some att ->
             Attachment.file_path att = path ->
             get_attachment id w'
             = (Raise (HTTPException 404 (Text "Attachment file missing")), w')))
  end.
Proof.
  intros path.
  pose proof (create_attachment_run uuid_str path_name unlink_raises node_id
                file name defaults w) as Hrun. simpl in Hrun. fold path in Hrun.
  destruct (nodes (db w) !! node_id) as [node|]; [|done].
  intros Hclash. rewrite decide_False in Hrun.
  2:{ intros [Hnew Hfree]. destruct Hclash as [[old Hold]|Htaken].
      - by rewrite Hnew in Hold.
      - apply file_path_taken_spec in Htaken. by rewrite Hfree in Htaken. }
  eexists. split; [exact Hrun|]. simpl. split; [done|]. split.
  - intros other Hne. destruct (unlink_raises path); set_solver.
  - intros ->. split; [set_solver|].
    intros id att Hatt Hpath. rewrite get_attachment_run. simpl.
    rewrite Hatt, Hpath. rewrite decide_False; [done|]. set_solver.
Qed.

End AttachmentProperties.

Lemma attachments_of_node_elem (node_id : UUID) (d : Database) (id : UUID)
    (att : Attachment.t) :
  (id, att) ∈ attachments_of_node node_id d <->
  attachments d !! id = Some att /\ Attachment.node_id att = node_id.
Proof.
  unfold attachments_of_node.
  rewrite list_elem_of_filter, elem_of_map_to_list. simpl. tauto.
Qed.

(** X11. For a node that exists, [list_attachments] returns, each once,
    exactly the attachments whose owner is the node, whether or not
    their files exist. *)
Theorem list_attachments_exact (node_id : UUID) (w : World) :
  is_Some (nodes (db w) !! node_id) ->
  exists found : list AttachmentOut.t,
    list_attachments node_id w = (Return found, w) /\
    NoDup (map AttachmentOut.id found) /\
    forall out : AttachmentOut.t,
      out ∈ found <->
      AttachmentOut.node_id out = node_id /\
      exists att : Attachment.t,
        attachments (db w) !! AttachmentOut.id out = Some att /\
        out = attachment_out (AttachmentOut.id out) att.
Proof.
  intros [node Hnode]. unfold list_attachments, _get_node_or_404.
  run_endpoint. rewrite Hnode. simpl.
  eexists. split; [reflexivity|]. split.
  - rewrite map_map. simpl.
    unfold attachments_of_node.
    apply (NoDup_fmap_2_strong fst).
    + intros [id att] [id' att'] Hin1 Hin2 Heq. simpl in Heq. subst id'.
      apply list_elem_of_filter in Hin1 as [_ Hin1%elem_of_map_to_list].
      apply list_elem_of_filter in Hin2 as [_ Hin2%elem_of_map_to_list].
      congruence.
    + apply NoDup_filter, NoDup_map_to_list.
  - intros out. split.
    + intros ([id att] & -> & Hin)%list_elem_of_fmap.
      apply attachments_of_node_elem in Hin as [Hatt Hown]. simpl.
      split; [done|]. by exists att.
    + intros [Hown (att & Hatt & Hout)]. apply list_elem_of_fmap.
      exists (AttachmentOut.id out, att). split; [done|].
      apply attachments_of_node_elem. split; [done|].
      rewrite Hout in Hown. done.
Qed.

(** ** The schema constraints are kept *)

Lemma constraints_insert_kind (d : Database) (name : string) (schema : dict) :
  constraints_hold d ->
  constraints_hold
    (mkDatabase (<[name := schema]> (kinds d)) (edges_kinds d) (nodes d)
                (edges d) (attachments d)).
Proof.
  intros (Hnk & Hek & Hee & Han & Hfp).
  split; [|split; [|done]]; simpl.
  - intros id node Hnode. rewrite lookup_insert_is_Some'. right. eauto.
  - intros f t r Hin. rewrite !lookup_insert_is_Some'.
    destruct (Hek f t r Hin). auto.
Qed.

Lemma constraints_insert_edges_kind (d : Database) (ek : EdgesKind) :
  is_Some (kinds d !! ek.1.1) -> is_Some (kinds d !! ek.1.2) ->
  constraints_hold d ->
  constraints_hold
    (mkDatabase (kinds d) ({[ ek ]} ∪ edges_kinds d) (nodes d) (edges d)
                (attachments d)).
Proof.
  intros Hf Ht (Hnk & Hek & Hee & Han & Hfp).
  split; [done|]. split; [|done]. simpl.
  intros f t r [Hin%elem_of_singleton|Hin]%elem_of_union; [|eauto].
  by subst ek.
Qed.

Lemma constraints_delete_edges_kind (d : Database) (ek : EdgesKind) :
  constraints_hold d ->
  constraints_hold
    (mkDatabase (kinds d) (edges_kinds d ∖ {[ ek ]}) (nodes d) (edges d)
                (attachments d)).
Proof.
  intros (Hnk & Hek & Hee & Han & Hfp).
  split; [done|]. split; [|done]. simpl.
  intros f t r [Hin _]%elem_of_difference. eauto.
Qed.

Lemma constraints_delete_kind_row (d : Database) (name : string) :
  (forall id node, nodes d !! id = Some node -> Node.kind node <> name) ->
  constraints_hold d -> constraints_hold (delete_kind_row name d).
Proof.
  intros Hunused (Hnk & Hek & Hee & Han & Hfp).
  split; [|split; [|done]]; simpl.
  - intros id node Hnode. rewrite lookup_delete_ne; [eauto|].
    intros Heq. by apply (Hunused id node Hnode).
  - intros f t r [[Hf Ht] Hin]%elem_of_filter. simpl in Hf, Ht.
    rewrite !lookup_delete_ne by done. eauto.
Qed.

Lemma constraints_insert_node (d : Database) (id : UUID) (node : Node.t) :
  is_Some (kinds d !! Node.kind node) ->
  constraints_hold d ->
  constraints_hold
    (mkDatabase (kinds d) (edges_kinds d) (<[id := node]> (nodes d)) (edges d)
                (attachments d)).
Proof.
  intros Hkind (Hnk & Hek & Hee & Han & Hfp).
  split; [|split; [done|split; [|split; [|done]]]]; simpl.
  - intros id' node' [[-> ->]|[_ Hnode]]%lookup_insert_Some; eauto.
  - intros f t r c Hedge. rewrite !lookup_insert_is_Some'.
    destruct (Hee f t r c Hedge). auto.
  - intros a att Hatt. rewrite lookup_insert_is_Some'. right. eauto.
Qed.

Lemma constraints_delete_node_row (d : Database) (id : UUID) :
  constraints_hold d -> constraints_hold (delete_node_row id d).
Proof.
  intros (Hnk & Hek & Hee & Han & Hfp).
  split; [|split; [done|split; [|split]]]; simpl.
  - intros id' node [_ Hnode]%lookup_delete_Some. eauto.
  - intros f t r c [Hedge [Hf Ht]]%map_lookup_filter_Some. simpl in Hf, Ht.
    rewrite !lookup_delete_ne by done. eauto.
  - intros a att [Hatt Hown]%map_lookup_filter_Some. simpl in Hown.
    rewrite lookup_delete_ne by done. eauto.
  - intros a1 a2 att1 att2 [H1 _]%map_lookup_filter_Some
      [H2 _]%map_lookup_filter_Some. eauto.
Qed.

Lemma constraints_insert_edge (d : Database) (key : EdgeKey) (created : datetime) :
  is_Some (nodes d !! key.1.1) -> is_Some (nodes d !! key.1.2) ->
  constraints_hold d ->
  constraints_hold
    (mkDatabase (kinds d) (edges_kinds d) (nodes d)
                (<[key := created]> (edges d)) (attachments d)).
Proof.
  intros Hf Ht (Hnk & Hek & Hee & Han & Hfp).
  split; [done|]. split; [done|]. split; [|done]. simpl.
  intros f t r c [[-> _]|[_ Hedge]]%lookup_insert_Some; simpl in *; eauto.
Qed.

Lemma constraints_delete_edge (d : Database) (key : EdgeKey) :
  constraints_hold d ->
  constraints_hold
    (mkDatabase (kinds d) (edges_kinds d) (nodes d) (delete key (edges d))
                (attachments d)).
Proof.
  intros (Hnk & Hek & Hee & Han & Hfp).
  split; [done|]. split; [done|]. split; [|done]. simpl.
  intros f t r c [_ Hedge]%lookup_delete_Some. eauto.
Qed.

Lemma constraints_insert_attachment (d : Database) (id : UUID)
    (att : Attachment.t) :
  is_Some (nodes d !! Attachment.node_id att) ->
  attachments d !! id = None ->
  file_path_taken (Attachment.file_path att) d = false ->
  constraints_hold d ->
  constraints_hold
    (mkDatabase (kinds d) (edges_kinds d) (nodes d) (edges d)
                (<[id := att]> (attachments d))).
Proof.
  intros Hnode Hnew Hfree (Hnk & Hek & Hee & Han & Hfp).
  assert (forall a att', attachments d !! a = Some att' ->
                         Attachment.file_path att' <> Attachment.file_path att)
    as Hother.
  { intros a att' Hatt Hpath.
    assert (file_path_taken (Attachment.file_path att) d = true) as Htaken
      by (apply file_path_taken_spec; eauto).
    by rewrite Hfree in Htaken. }
  split; [done|]. split; [done|]. split; [done|]. split; simpl.
  - intros a att' [[_ <-]|[_ Hatt]]%lookup_insert_Some; eauto.
  - intros a1 a2 att1 att2 [[<- <-]|[Hne1 H1]]%lookup_insert_Some
      [[<- <-]|[Hne2 H2]]%lookup_insert_Some Hpath; try done.
    + symmetry in Hpath. by destruct (Hother _ _ H2).
    + by destruct (Hother _ _ H1).
    + eauto.
Qed.

Lemma constraints_delete_attachment (d : Database) (id : UUID) :
  constraints_hold d ->
  constraints_hold
    (mkDatabase (kinds d) (edges_kinds d) (nodes d) (edges d)
                (delete id (attachments d))).
Proof.
  intros (Hnk & Hek & Hee & Han & Hfp).
  split; [done|]. split; [done|]. split; [done|]. split; simpl.
  - intros a att [_ Hatt]%lookup_delete_Some. eauto.
  - intros a1 a2 att1 att2 [_ H1]%lookup_delete_Some [_ H2]%lookup_delete_Some.
    eauto.
Qed.

(** X12. Every endpoint that writes keeps the constraints the schema
    declares: each node's kind is registered, each edge kind names
    registered kinds, each edge joins existing nodes, each attachment
    belongs to an existing node, and no two attachments share a
    [file_path].  This holds whatever the endpoint answers. *)
Theorem endpoints_keep_constraints
    (iter_errors : dict -> dict -> list ValidationError.t)
    (str : ValidationError.t -> string)
    (jsonb_error : dict -> option Exception)
    (uuid_str : UUID -> string) (path_name : string -> string)
    (unlink_raises : string -> bool) (w : World) :
  constraints_hold (db w) ->
  (forall body, constraints_hold (db (create_kind body w).2)) /\
  (forall name, constraints_hold (db (delete_kind name w).2)) /\
  (forall body, constraints_hold (db (create_edges_kind body w).2)) /\
  (forall from_kind to_kind relation,
      constraints_hold (db (delete_edges_kind from_kind to_kind relation w).2)) /\
  (forall body defaults,
      constraints_hold
        (db (create_node iter_errors str jsonb_error body defaults w).2)) /\
  (forall id body,
      constraints_hold (db (update_node iter_errors str id body w).2)) /\
  (forall id, constraints_hold (db (delete_node unlink_raises id w).2)) /\
  (forall body utcnow, constraints_hold (db (create_edge body utcnow w).2)) /\
  (forall from_id to_id relation,
      constraints_hold (db (delete_edge from_id to_id relation w).2)) /\
  (forall node_id file name defaults,
      constraints_hold
        (db (create_attachment uuid_str path_name unlink_raises node_id file
               name defaults w).2)) /\
  (forall id, constraints_hold (db (delete_attachment unlink_raises id w).2)).
Proof.
  intros Hc.
  split.
  { intros body. rewrite create_kind_run.
    destruct (kinds (db w) !! kc_name body); [done|].
    by apply constraints_insert_kind. }
  split.
  { intros name. rewrite delete_kind_run.
    destruct (kinds (db w) !! name); [|done].
    case_decide as Hcount; [done|]. simpl.
    apply constraints_delete_kind_row; [|done].
    intros id node Hnode Hkind. apply Hcount.
    apply count_nodes_of_kind_pos_iff. eauto. }
  split.
  { intros body. pose proof (create_edges_kind_run body w) as Hrun.
    simpl in Hrun. rewrite Hrun.
    destruct (kinds (db w) !! ekc_from_kind body) eqn:Ef; [|done].
    destruct (kinds (db w) !! ekc_to_kind body) eqn:Et; [|done].
    case_decide; [done|]. simpl.
    apply constraints_insert_edges_kind; simpl; by eauto. }
  split.
  { intros f t r. pose proof (delete_edges_kind_run f t r w) as Hrun.
    simpl in Hrun. rewrite Hrun. repeat case_decide; try done.
    by apply constraints_delete_edges_kind. }
  split.
  { intros body defaults. rewrite create_node_run.
    destruct (kinds (db w) !! nc_kind body) eqn:Ek; [|done].
    destruct (_validate_payload _ _ _ _); [|done]. simpl.
    destruct (jsonb_error (nc_payload body)); [done|].
    destruct (nodes (db w) !! nd_uuid4 defaults); [done|]. simpl.
    apply constraints_insert_node; simpl; by eauto. }
  split.
  { intros id body. rewrite update_node_run.
    destruct (nodes (db w) !! id) as [node|]; [|done].
    destruct (kinds (db w) !! Node.kind node) eqn:Ek; [|done].
    destruct (_validate_payload _ _ _ _); [|done]. simpl.
    apply constraints_insert_node; simpl; by eauto. }
  split.
  { intros id. pose proof (delete_node_run unlink_raises id w) as Hrun.
    destruct (nodes (db w) !! id); [|by rewrite Hrun].
    destruct Hrun as (fs & -> & _). simpl.
    by apply constraints_delete_node_row. }
  split.
  { intros body utcnow. pose proof (create_edge_run body utcnow w) as Hrun.
    simpl in Hrun. rewrite Hrun.
    destruct (nodes (db w) !! ec_from_id body) eqn:Ef; [|done].
    destruct (nodes (db w) !! ec_to_id body) eqn:Et; [|done].
    case_decide; [|done].
    destruct (edges (db w) !! _); [done|]. simpl.
    apply constraints_insert_edge; simpl; by eauto. }
  split.
  { intros f t r. rewrite delete_edge_run.
    destruct (edges (db w) !! (f, t, r)); [|done]. simpl.
    by apply constraints_delete_edge. }
  split.
  { intros node_id file name defaults.
    pose proof (create_attachment_run uuid_str path_name unlink_raises node_id
                  file name defaults w) as Hrun. simpl in Hrun. rewrite Hrun.
    destruct (nodes (db w) !! node_id) eqn:En; [|done].
    case_decide as Hfree; [|done]. destruct Hfree as [Hnew Hfree]. simpl.
    apply constraints_insert_attachment; simpl; by eauto. }
  intros id. rewrite delete_attachment_run.
    destruct (attachments (db w) !! id); [|done]. simpl.
    by apply constraints_delete_attachment.
Qed.

Lemma edge_instantiates_true (d : Database) (from_id to_id : UUID)
    (relation : string) (from_node to_node : Node.t) :
  nodes d !! from_id = Some from_node ->
  nodes d !! to_id = Some to_node ->
  edge_instantiates d (Node.kind from_node, Node.kind to_node, relation)
    (from_id, to_id, relation) = true.
Proof.
  intros Hf Ht. unfold edge_instantiates. simpl.
  by rewrite Hf, Ht, !String.eqb_refl.
Qed.

(** X13. While the schema constraints hold, every endpoint that writes
    keeps each stored edge an instance of a registered edge kind: the
    triple of its source node's kind, its target node's kind and its
    relation stays registered, whatever is created, updated or deleted
    around it. *)
Theorem endpoints_keep_edges_allowed
    (iter_errors : dict -> dict -> list ValidationError.t)
    (str : ValidationError.t -> string)
    (jsonb_error : dict -> option Exception)
    (uuid_str : UUID -> string) (path_name : string -> string)
    (unlink_raises : string -> bool) (w : World) :
  constraints_hold (db w) ->
  edges_allowed (db w) ->
  (forall body, edges_allowed (db (create_kind body w).2)) /\
  (forall name, edges_allowed (db (delete_kind name w).2)) /\
  (forall body, edges_allowed (db (create_edges_kind body w).2)) /\
  (forall from_kind to_kind relation,
      edges_allowed (db (delete_edges_kind from_kind to_kind relation w).2)) /\
  (forall body defaults,
      edges_allowed
        (db (create_node iter_errors str jsonb_error body defaults w).2)) /\
  (forall id body,
      edges_allowed (db (update_node iter_errors str id body w).2)) /\
  (forall id, edges_allowed (db (delete_node unlink_raises id w).2)) /\
  (forall body utcnow, edges_allowed (db (create_edge body utcnow w).2)) /\
  (forall from_id to_id relation,
      edges_allowed (db (delete_edge from_id to_id relation w).2)) /\
  (forall node_id file name defaults,
      edges_allowed
        (db (create_attachment uuid_str path_name unlink_raises node_id file
               name defaults w).2)) /\
  (forall id, edges_allowed (db (delete_attachment unlink_raises id w).2)).
Proof.
  intros Hc Ha. pose proof Hc as (Hnk & Hek & Hee & Han & Hfp).
  split.
  { intros body. rewrite create_kind_run.
    by destruct (kinds (db w) !! kc_name body). }
  split.
  { intros name. rewrite delete_kind_run.
    destruct (kinds (db w) !! name); [|done].
    case_decide as Hcount; [done|]. simpl.
    intros fi ti ri ci fn tn Hedge Hf Ht. simpl in *.
    apply elem_of_filter. split; [|by eapply Ha].
    simpl. split; intros Hkind; apply Hcount;
      apply count_nodes_of_kind_pos_iff; eauto. }
  split.
  { intros body. pose proof (create_edges_kind_run body w) as Hrun.
    simpl in Hrun. rewrite Hrun.
    destruct (kinds (db w) !! ekc_from_kind body); [|done].
    destruct (kinds (db w) !! ekc_to_kind body); [|done].
    case_decide; [done|]. simpl.
    intros fi ti ri ci fn tn Hedge Hf Ht. simpl in *.
    apply elem_of_union_r. by eapply Ha. }
  split.
  { intros fk tk rel. pose proof (delete_edges_kind_run fk tk rel w) as Hrun.
    simpl in Hrun. rewrite Hrun.
    case_decide; [|done]. case_decide as Hcount; [done|]. simpl.
    intros fi ti ri ci fn tn Hedge Hf Ht. simpl in *.
    apply elem_of_difference. split; [by eapply Ha|].
    intros [= <- <- <-]%elem_of_singleton. apply Hcount.
    apply count_edges_of_kind_pos. exists (fi, ti, ri), ci.
    split; [done|]. by apply edge_instantiates_true. }
  split.
  { intros body defaults. rewrite create_node_run.
    destruct (kinds (db w) !! nc_kind body); [|done].
    destruct (_validate_payload _ _ _ _); [|done]. simpl.
    destruct (jsonb_error (nc_payload body)); [done|].
    destruct (nodes (db w) !! nd_uuid4 defaults) eqn:Enew; [done|]. simpl.
    intros fi ti ri ci fn tn Hedge Hf Ht. simpl in *.
    destruct (Hee fi ti ri ci Hedge) as [[fn' Hf'] [tn' Ht']].
    rewrite lookup_insert_ne in Hf by congruence.
    rewrite lookup_insert_ne in Ht by congruence.
    by eapply Ha. }
  split.
  { intros id body. rewrite update_node_run.
    destruct (nodes (db w) !! id) as [node|] eqn:En; [|done].
    destruct (kinds (db w) !! Node.kind node); [|done].
    destruct (_validate_payload _ _ _ _); [|done]. simpl.
    intros fi ti ri ci fn tn Hedge Hf Ht. simpl in *.
    assert (exists fn0, nodes (db w) !! fi = Some fn0 /\
                        Node.kind fn0 = Node.kind fn) as (fn0 & Hf0 & <-).
    { apply lookup_insert_Some in Hf as [[<- <-]|[_ Hf]]; eauto. }
    assert (exists tn0, nodes (db w) !! ti = Some tn0 /\
                        Node.kind tn0 = Node.kind tn) as (tn0 & Ht0 & <-).
    { apply lookup_insert_Some in Ht as [[<- <-]|[_ Ht]]; eauto. }
    by eapply Ha. }
  split.
  { intros id. pose proof (delete_node_run unlink_raises id w) as Hrun.
    destruct (nodes (db w) !! id); [|by rewrite Hrun].
    destruct Hrun as (fs & -> & _). simpl.
    unfold edges_allowed. simpl.
    intros fi ti ri ci fn tn [Hedge _]%map_lookup_filter_Some
      [_ Hf]%lookup_delete_Some [_ Ht]%lookup_delete_Some.
    by eapply Ha. }
  split.
  { intros body utcnow. pose proof (create_edge_run body utcnow w) as Hrun.
    simpl in Hrun. rewrite Hrun.
    destruct (nodes (db w) !! ec_from_id body) as [fn0|] eqn:Ef; [|done].
    destruct (nodes (db w) !! ec_to_id body) as [tn0|] eqn:Et; [|done].
    case_decide as Hallowed; [|done].
    destruct (edges (db w) !! _); [done|]. simpl.
    intros fi ti ri ci fn tn Hedge Hf Ht. simpl in *.
    apply lookup_insert_Some in Hedge as [[[= <- <- <-] _]|[_ Hedge]].
    - rewrite Ef in Hf. rewrite Et in Ht. by simplify_eq.
    - by eapply Ha. }
  split.
  { intros f0 t0 r0. rewrite delete_edge_run.
    destruct (edges (db w) !! (f0, t0, r0)); [|done]. simpl.
    unfold edges_allowed. simpl.
    intros fi ti ri ci fn tn [_ Hedge]%lookup_delete_Some Hf Ht.
    by eapply Ha. }
  split.
  { intros node_id file name defaults.
    pose proof (create_attachment_run uuid_str path_name unlink_raises node_id
                  file name defaults w) as Hrun. simpl in Hrun. rewrite Hrun.
    destruct (nodes (db w) !! node_id); [|done].
    by case_decide. }
  intros id. rewrite delete_attachment_run.
  by destruct (attachments (db w) !! id).
Qed.

(** X14. While the schema constraints hold, every endpoint that writes
    keeps each stored payload valid for the schema of its node's kind:
    no endpoint stores a payload the validator rejects, and none changes
    the schema under a stored node. *)
Theorem endpoints_keep_payloads_valid
    (iter_errors : dict -> dict -> list ValidationError.t)
    (str : ValidationError.t -> string)
    (jsonb_error : dict -> option Exception)
    (uuid_str : UUID -> string) (path_name : string -> string)
    (unlink_raises : string -> bool) (w : World) :
  constraints_hold (db w) ->
  payloads_valid iter_errors (db w) ->
  (forall body, payloads_valid iter_errors (db (create_kind body w).2)) /\
  (forall name, payloads_valid iter_errors (db (delete_kind name w).2)) /\
  (forall body, payloads_valid iter_errors (db (create_edges_kind body w).2)) /\
  (forall from_kind to_kind relation,
      payloads_valid iter_errors
        (db (delete_edges_kind from_kind to_kind relation w).2)) /\
  (forall body defaults,
      payloads_valid iter_errors
        (db (create_node iter_errors str jsonb_error body defaults w).2)) /\
  (forall id body,
      payloads_valid iter_errors
        (db (update_node iter_errors str id body w).2)) /\
  (forall id,
      payloads_valid iter_errors (db (delete_node unlink_raises id w).2)) /\
  (forall body utcnow,
      payloads_valid iter_errors (db (create_edge body utcnow w).2)) /\
  (forall from_id to_id relation,
      payloads_valid iter_errors (db (delete_edge from_id to_id relation w).2)) /\
  (forall node_id file name defaults,
      payloads_valid iter_errors
        (db (create_attachment uuid_str path_name unlink_raises node_id file
               name defaults w).2)) /\
  (forall id,
      payloads_valid iter_errors (db (delete_attachment unlink_raises id w).2)).
Proof.
  intros Hc Hp. pose proof Hc as (Hnk & Hek & Hee & Han & Hfp).
  split.
  { intros body. rewrite create_kind_run.
    destruct (kinds (db w) !! kc_name body) eqn:Ek; [done|]. simpl.
    intros id node schema Hnode Hkind. simpl in *.
    rewrite lookup_insert_ne in Hkind; [by eapply Hp|].
    intros Heq. destruct (Hnk id node Hnode) as [s Hs].
    rewrite <- Heq in Hs. congruence. }
  split.
  { intros name. rewrite delete_kind_run.
    destruct (kinds (db w) !! name); [|done].
    case_decide; [done|]. simpl.
    unfold payloads_valid. simpl.
    intros id node schema Hnode [_ Hkind]%lookup_delete_Some.
    by eapply Hp. }
  split.
  { intros body. pose proof (create_edges_kind_run body w) as Hrun.
    simpl in Hrun. rewrite Hrun.
    destruct (kinds (db w) !! ekc_from_kind body); [|done].
    destruct (kinds (db w) !! ekc_to_kind body); [|done].
    by case_decide. }
  split.
  { intros fk tk rel. pose proof (delete_edges_kind_run fk tk rel w) as Hrun.
    simpl in Hrun. rewrite Hrun. by repeat case_decide. }
  split.
  { intros body defaults. rewrite create_node_run.
    destruct (kinds (db w) !! nc_kind body) as [schema0|] eqn:Ek; [|done].
    destruct (_validate_payload _ _ _ _) eqn:Ev; [|done]. simpl.
    destruct (jsonb_error (nc_payload body)); [done|].
    destruct (nodes (db w) !! nd_uuid4 defaults); [done|]. simpl.
    unfold payloads_valid. simpl.
    intros id node schema [[<- <-]|[_ Hnode]]%lookup_insert_Some Hkind;
      simpl in *; [|by eapply Hp].
    rewrite Ek in Hkind. injection Hkind as <-.
    by apply (validate_payload_nil iter_errors str). }
  split.
  { intros id body. rewrite update_node_run.
    destruct (nodes (db w) !! id) as [node0|]; [|done].
    destruct (kinds (db w) !! Node.kind node0) as [schema0|] eqn:Ek; [|done].
    destruct (_validate_payload _ _ _ _) eqn:Ev; [|done]. simpl.
    unfold payloads_valid. simpl.
    intros id' node schema [[<- <-]|[_ Hnode]]%lookup_insert_Some Hkind;
      simpl in *; [|by eapply Hp].
    rewrite Ek in Hkind. injection Hkind as <-.
    by apply (validate_payload_nil iter_errors str). }
  split.
  { intros id. pose proof (delete_node_run unlink_raises id w) as Hrun.
    destruct (nodes (db w) !! id); [|by rewrite Hrun].
    destruct Hrun as (fs & -> & _). simpl.
    unfold payloads_valid. simpl.
    intros id' node schema [_ Hnode]%lookup_delete_Some Hkind.
    by eapply Hp. }
  split.
  { intros body utcnow. pose proof (create_edge_run body utcnow w) as Hrun.
    simpl in Hrun. rewrite Hrun.
    destruct (nodes (db w) !! ec_from_id body); [|done].
    destruct (nodes (db w) !! ec_to_id body); [|done].
    case_decide; [|done]. by destruct (edges (db w) !! _). }
  split.
  { intros f0 t0 r0. rewrite delete_edge_run.
    by destruct (edges (db w) !! (f0, t0, r0)). }
  split.
  { intros node_id file name defaults.
    pose proof (create_attachment_run uuid_str path_name unlink_raises node_id
                  file name defaults w) as Hrun. simpl in Hrun. rewrite Hrun.
    destruct (nodes (db w) !! node_id); [|done].
    by case_decide. }
  intros id. rewrite delete_attachment_run.
  by destruct (attachments (db w) !! id).
Qed.

(** ** More properties of the node endpoints *)

Section NodeWriteProperties.

Variable iter_errors : dict -> dict -> list ValidationError.t.
Variable str : ValidationError.t -> string.
Variable jsonb_error : dict -> option Exception.

Lemma validate_payload_length (schema payload : dict) :
  length (_validate_payload iter_errors str schema payload)
  = length (iter_errors schema payload).
Proof.
  unfold _validate_payload. rewrite length_map.
  apply Permutation_length, sorted_perm.
Qed.

(** X15. When the validator reports errors for a payload, [create_node]
    for a kind with that schema and [update_node] of a node of such a
    kind both answer 400 carrying the whole sorted error list, one entry
    per validator error, and store nothing: the world is unchanged and
    [get_node] still returns the node as it was. *)
Theorem invalid_payload_rejected (schema payload : dict) (w : World) :
  iter_errors schema payload <> [] ->
  let errors := _validate_payload iter_errors str schema payload in
  length errors = length (iter_errors schema payload) /\
  (forall (kind : string) (defaults : NodeDefaults),
      kinds (db w) !! kind = Some schema ->
      create_node iter_errors str jsonb_error (mkNodeCreate kind payload)
        defaults w
      = (Raise (HTTPException 400
                  (PayloadErrors "Payload does not match schema" errors)), w)) /\
  (forall (id : UUID) (node : Node.t),
      nodes (db w) !! id = Some node ->
      kinds (db w) !! Node.kind node = Some schema ->
      update_node iter_errors str id (mkNodeUpdate payload) w
      = (Raise (HTTPException 400
                  (PayloadErrors "Payload does not match schema" errors)), w) /\
      get_node id w = (Return (node_out id node), w)).
Proof.
  intros Hinvalid errors.
  assert (errors <> []) as Hne.
  { unfold errors. intros H. by apply validate_payload_nil in H. }
  split; [apply validate_payload_length|]. split.
  - intros kind defaults Hkind. rewrite create_node_run. simpl.
    rewrite Hkind. fold errors. by destruct errors.
  - intros id node Hnode Hkind. split.
    + rewrite update_node_run. simpl. rewrite Hnode, Hkind. fold errors.
      by destruct errors.
    + unfold get_node, _get_node_or_404. run_endpoint. by rewrite Hnode.
Qed.

(** X16. [create_node] never overwrites: with a [uuid4] draw that is in
    use it raises and changes nothing, with [IntegrityError] unless the
    database refuses the payload, whose error comes first.  When it
    succeeds it adds exactly the one node, and when [update_node]
    succeeds it changes exactly the payload of the one node; all other
    nodes, the other tables and the files are as before. *)
Theorem node_writes_frame (w : World) :
  (forall (body : NodeCreate) (defaults : NodeDefaults) (schema : dict),
      kinds (db w) !! nc_kind body = Some schema ->
      iter_errors schema (nc_payload body) = [] ->
      is_Some (nodes (db w) !! nd_uuid4 defaults) ->
      create_node iter_errors str jsonb_error body defaults w
      = (Raise (default IntegrityError (jsonb_error (nc_payload body))), w)) /\
  (forall (body : NodeCreate) (defaults : NodeDefaults) (out : NodeOut.t)
          (w' : World),
      create_node iter_errors str jsonb_error body defaults w
      = (Return out, w') ->
      nodes (db w) !! NodeOut.id out = None /\
      nodes (db w') = <[NodeOut.id out :=
                          Node.mk (NodeOut.kind out) (NodeOut.payload out)
                                  (NodeOut.created_at out)
                                  (NodeOut.updated_at out)]> (nodes (db w)) /\
      kinds (db w') = kinds (db w) /\
      edges_kinds (db w') = edges_kinds (db w) /\
      edges (db w') = edges (db w) /\
      attachments (db w') = attachments (db w) /\
      files w' = files w) /\
  (forall (id : UUID) (body : NodeUpdate) (out : NodeOut.t) (w' : World),
      update_node iter_errors str id body w = (Return out, w') ->
      exists node : Node.t,
        nodes (db w) !! id = Some node /\
        nodes (db w') = <[id := Node.mk (Node.kind node) (nu_payload body)
                                   (Node.created_at node)
                                   (Node.updated_at node)]> (nodes (db w)) /\
        kinds (db w') = kinds (db w) /\
        edges_kinds (db w') = edges_kinds (db w) /\
        edges (db w') = edges (db w) /\
        attachments (db w') = attachments (db w) /\
        files w' = files w).
Proof.
  split; [|split].
  - intros body defaults schema Hkind Hvalid [node Hnode].
    rewrite create_node_run, Hkind.
    rewrite (proj2 (validate_payload_nil iter_errors str _ _) Hvalid).
    simpl. destruct (jsonb_error (nc_payload body)); [done|].
    by rewrite Hnode.
  - intros body defaults out w'. rewrite create_node_run.
    destruct (kinds (db w) !! nc_kind body); [|done].
    destruct (_validate_payload _ _ _ _); [|done]. simpl.
    destruct (jsonb_error (nc_payload body)); [done|].
    destruct (nodes (db w) !! nd_uuid4 defaults) eqn:E; [done|].
    by intros [= <- <-].
  - intros id body out w'. rewrite update_node_run.
    destruct (nodes (db w) !! id) as [node|]; [|done].
    destruct (kinds (db w) !! Node.kind node); [|done].
    destruct (_validate_payload _ _ _ _); [|done]. simpl.
    intros [= <- <-]. by exists node.
Qed.

End NodeWriteProperties.

Lemma invalid_payload_rejected_witness :
  Sample.iter_errors Sample.person_schema [("name", JStr "Ada")] <> [] /\
  length (_validate_payload Sample.iter_errors Sample.str Sample.person_schema
            [("name", JStr "Ada")])
  = length (Sample.iter_errors Sample.person_schema [("name", JStr "Ada")]).
Proof.
  assert (Sample.iter_errors Sample.person_schema [("name", JStr "Ada")] <> [])
    as H by discriminate.
  split; [exact H|].
  exact (proj1 (invalid_payload_rejected Sample.iter_errors Sample.str
                  Sample.jsonb_error Sample.person_schema [("name", JStr "Ada")]
                  Sample.person_world H)).
Defined.

(** ** More properties of the search *)

Section SearchResults.

Variable json_dumps : json -> string.
Variable jsonb_container_out : json -> string.

Abbreviation row_passes := (where_ jsonb_container_out).
Abbreviation scan_table := (scan jsonb_container_out).
Abbreviation run_search := (search_nodes json_dumps jsonb_container_out).

Lemma scan_step (clauses : list clause) (id : UUID) (node : Node.t)
    (rows : list (UUID * Node.t)) (limit : option nat) :
  limit <> Some O ->
  scan_table clauses ((id, node) :: rows) limit =
  match row_passes clauses node with
  | Raise e => Raise e
  | Return false => scan_table clauses rows limit
  | Return true =>
      match scan_table clauses rows (Nat.pred <$> limit) with
      | Raise e => Raise e
      | Return found => Return (node_out id node :: found)
      end
  end.
Proof. intros Hlimit. simpl. by destruct limit as [[|n]|]. Qed.

Lemma scan_sound (clauses : list clause) (rows : list (UUID * Node.t))
    (limit : option nat) (found : list NodeOut.t) :
  scan_table clauses rows limit = Return found ->
  map NodeOut.id found `sublist_of` rows.*1 /\
  forall out, out ∈ found ->
    exists node, (NodeOut.id out, node) ∈ rows /\
                 out = node_out (NodeOut.id out) node /\
                 row_passes clauses node = Return true.
Proof.
  revert limit found. induction rows as [|[id node] rows IH];
    intros limit found.
  - intros [= <-]. split; [constructor|]. intros out Hin.
    by apply elem_of_nil in Hin.
  - destruct (decide (limit = Some O)) as [->|Hlimit].
    { intros [= <-]. split; [apply sublist_nil_l|]. intros out Hin.
      by apply elem_of_nil in Hin. }
    rewrite scan_step by done.
    destruct (row_passes clauses node) as [[]|] eqn:Ew; [| |done].
    + destruct (scan_table clauses rows (Nat.pred <$> limit)) as [found'|]
        eqn:Es; [|done].
      intros [= <-]. destruct (IH _ _ Es) as [Hsub Hall].
      split; [simpl; by constructor|].
      intros out [->|Hin]%elem_of_cons.
      * exists node. split; [left|done].
      * destruct (Hall out Hin) as (node' & ? & ? & ?).
        exists node'. split; [by right|done].
    + intros Es. destruct (IH _ _ Es) as [Hsub Hall].
      split; [simpl; by constructor|].
      intros out Hin. destruct (Hall out Hin) as (node' & ? & ? & ?).
      exists node'. split; [by right|done].
Qed.

Lemma scan_complete (clauses : list clause) (rows : list (UUID * Node.t))
    (found : list NodeOut.t) :
  scan_table clauses rows None = Return found ->
  forall id node,
    (id, node) ∈ rows -> row_passes clauses node = Return true ->
    node_out id node ∈ found.
Proof.
  revert found. induction rows as [|[id' node'] rows IH]; intros found.
  - intros _ id node Hin. by apply elem_of_nil in Hin.
  - rewrite scan_step by done. simpl.
    destruct (row_passes clauses node') as [[]|] eqn:Ew; [| |done].
    + destruct (scan_table clauses rows None) as [found'|] eqn:Es; [|done].
      intros [= <-] id node [[= -> ->]|Hin]%elem_of_cons Hpass; [left|].
      right. by eapply IH.
    + intros Es id node [[= -> ->]|Hin]%elem_of_cons Hpass.
      * congruence.
      * by eapply IH.
Qed.

Lemma scan_take (clauses : list clause) (rows : list (UUID * Node.t))
    (found : list NodeOut.t) (n : nat) :
  scan_table clauses rows None = Return found ->
  scan_table clauses rows (Some n) = Return (take n found).
Proof.
  revert found n. induction rows as [|[id node] rows IH]; intros found n.
  - intros [= <-]. by rewrite take_nil.
  - destruct n as [|n]; [by destruct found|].
    rewrite !scan_step by done. simpl.
    destruct (row_passes clauses node) as [[]|] eqn:Ew; [| |done].
    + destruct (scan_table clauses rows None) as [found'|] eqn:Es; [|done].
      intros [= <-]. by rewrite (IH _ n eq_refl).
    + intros Es. by apply IH.
Qed.

(** X17. A search without [limit] that returns, returns exactly the nodes
    that pass every clause of the compiled filter, each once and as
    [get_node] would return it; the search itself changes nothing. *)
Theorem search_unlimited_exact (kinds : option (list string))
    (query : list (string * json)) (w w' : World) (found : list NodeOut.t) :
  run_search (mkSearchDatamodel kinds query None) w = (Return found, w') ->
  w' = w /\
  NoDup (map NodeOut.id found) /\
  forall out : NodeOut.t,
    out ∈ found <->
    exists node : Node.t,
      get_node (NodeOut.id out) w = (Return out, w) /\
      nodes (db w) !! NodeOut.id out = Some node /\
      row_passes
        (build_clauses json_dumps (mkSearchDatamodel kinds query None)) node
      = Return true.
Proof.
  unfold search_nodes. run_endpoint. intros [= Hscan <-].
  destruct (scan_sound _ _ _ _ Hscan) as [Hsub Hall].
  split; [done|]. split.
  { apply (sublist_NoDup _ _ (NoDup_fst_map_to_list (nodes (db w))) Hsub). }
  intros out. split.
  - intros Hin. destruct (Hall out Hin) as (node & Hrow & Hout & Hpass).
    apply elem_of_map_to_list in Hrow. exists node.
    split; [|done]. rewrite (get_node_found _ _ _ Hrow). by rewrite <- Hout.
  - intros (node & Hget & Hnode & Hpass).
    rewrite (get_node_found _ _ _ Hnode) in Hget. injection Hget as Hout.
    rewrite <- Hout. eapply scan_complete; [exact Hscan| |done].
    by apply elem_of_map_to_list.
Qed.

(** X18. [limit] truncates: when the search without [limit] returns a
    list, the same search with a [limit] of [n >= 0] returns its first
    [n] entries (all of them when there are fewer), so at most [n]
    nodes; with a negative [limit] the search raises. *)
Theorem search_limit_prefix (kinds : option (list string))
    (query : list (string * json)) (w : World) (found : list NodeOut.t) :
  run_search (mkSearchDatamodel kinds query None) w = (Return found, w) ->
  forall n : Z,
    if decide (0 <= n) then
      run_search (mkSearchDatamodel kinds query (Some n)) w
      = (Return (take (Z.to_nat n) found), w) /\
      (length (take (Z.to_nat n) found) <= Z.to_nat n)%nat
    else
      run_search (mkSearchDatamodel kinds query (Some n)) w
      = (Raise DataError, w).
Proof.
  unfold search_nodes, build_clauses. run_endpoint. intros [= Hscan] n.
  case_decide as Hn.
  - destruct (n <? 0) eqn:E; [lia|]. split.
    + f_equal. by apply scan_take.
    + rewrite length_take. lia.
  - destruct (n <? 0) eqn:E; [done|lia].
Qed.

(** X19. An empty [kinds] list filters nothing: the search behaves as
    with no [kinds] at all.  With a non-empty list every returned node
    has one of the listed kinds.  With no kinds, no query and no limit
    the search returns every stored node and never raises. *)
Theorem search_kinds_filter (w : World) :
  (forall (query : list (string * json)) (limit : option Z),
      run_search (mkSearchDatamodel (Some []) query limit) w
      = run_search (mkSearchDatamodel None query limit) w) /\
  (forall (kind : string) (kinds : list string) (query : list (string * json))
          (limit : option Z) (found : list NodeOut.t) (w' : World),
      run_search (mkSearchDatamodel (Some (kind :: kinds)) query limit) w
      = (Return found, w') ->
      forall out, out ∈ found -> NodeOut.kind out ∈ kind :: kinds) /\
  (exists found : list NodeOut.t,
      run_search (mkSearchDatamodel None [] None) w = (Return found, w) /\
      forall (id : UUID) (node : Node.t),
        nodes (db w) !! id = Some node <-> node_out id node ∈ found).
Proof.
  split; [done|]. split.
  - intros kind kinds query limit found w'.
    unfold search_nodes, build_clauses. run_endpoint.
    intros Hrun out Hin.
    assert (exists lim, scan_table
              (KindIn (kind :: kinds)
               :: map (fun item : string * json =>
                         compile_item json_dumps item.1 item.2) query)
              (map_to_list (nodes (db w))) lim = Return found) as [lim Hscan].
    { destruct limit as [n|].
      - destruct (n <? 0); [done|]. injection Hrun as Hrun _. eauto.
      - injection Hrun as Hrun _. eauto. }
    destruct (scan_sound _ _ _ _ Hscan) as [_ Hall].
    destruct (Hall out Hin) as (node & _ & -> & Hpass).
    simpl in Hpass. case_bool_decide as Hkind; [done|]. done.
  - unfold search_nodes, build_clauses. run_endpoint.
    destruct (scan_table [] (map_to_list (nodes (db w))) None) as [found|e]
      eqn:Hscan.
    + exists found. split; [done|]. intros id node. split.
      * intros Hnode. eapply scan_complete; [exact Hscan| |done].
        by apply elem_of_map_to_list.
      * intros Hin. destruct (scan_sound _ _ _ _ Hscan) as [_ Hall].
        destruct (Hall _ Hin) as (node' & Hrow & Hout & _). simpl in *.
        apply elem_of_map_to_list in Hrow.
        rewrite Hrow. destruct node, node'. unfold node_out in Hout.
        simpl in Hout. by simplify_eq.
    + exfalso. clear -Hscan.
      induction (map_to_list (nodes (db w))) as [|[id node] rows IH]; [done|].
      rewrite scan_step in Hscan by done. simpl in Hscan.
      destruct (scan_table [] rows None); [done|]. by apply IH.
Qed.

End SearchResults.

(** ** Properties of the string helpers *)

Lemma split_cons (sep : ascii) (s : string) :
  exists head tail, split sep s = head :: tail.
Proof.
  induction s as [|c s (head & tail & IH)]; simpl; [by eexists _, _|].
  destruct (Ascii.eqb c sep); [by eexists _, _|].
  rewrite IH. by eexists _, _.
Qed.

Lemma join_cons (sep x y : string) (l : list string) :
  join sep (x :: y :: l) = x ++ sep ++ join sep (y :: l).
Proof. reflexivity. Qed.

Lemma contains_char_cons (sep c : ascii) (s : string) :
  contains_char sep (String c s) = Ascii.eqb c sep || contains_char sep s.
Proof. reflexivity. Qed.

Lemma split_without_sep (sep : ascii) (s : string) :
  contains_char sep s = false -> split sep s = [s].
Proof.
  induction s as [|c s IH]; [done|].
  rewrite contains_char_cons. intros [Hc Hs]%orb_false_iff. simpl.
  by rewrite Hc, (IH Hs).
Qed.

Lemma split_app (sep : ascii) (part rest : string) :
  contains_char sep part = false ->
  split sep (part ++ String sep rest) = part :: split sep rest.
Proof.
  induction part as [|c part IH].
  - intros _. change ("" ++ String sep rest) with (String sep rest).
    simpl. by rewrite Ascii.eqb_refl.
  - rewrite contains_char_cons. intros [Hc Hs]%orb_false_iff.
    rewrite append_cons. simpl. by rewrite Hc, (IH Hs).
Qed.

(** X20. [key.split(".")] and joining with ["."] are inverse to each
    other: a key always splits into at least one step, no step contains
    a dot, joining the steps gives the key back, and any non-empty list
    of dot-free steps is what its joined key splits into.  So two query
    keys address the same path only if they are equal, and the clause
    [search_nodes] compiles for a predicate determines its key. *)
Theorem split_join_inverse :
  (forall key : string,
      split "." key <> [] /\
      (forall step, step ∈ split "." key -> contains_char "." step = false) /\
      join "." (split "." key) = key) /\
  (forall path : list string,
      path <> [] ->
      (forall step, step ∈ path -> contains_char "." step = false) ->
      split "." (join "." path) = path) /\
  (forall key1 key2 : string, split "." key1 = split "." key2 -> key1 = key2) /\
  (forall (json_dumps : json -> string) (key1 key2 : string) (val : json),
      compile_item json_dumps key1 val = compile_item json_dumps key2 val ->
      key1 = key2).
Proof.
  assert (forall key : string, join "." (split "." key) = key) as Hjoin.
  { induction key as [|c key IH]; [done|]. simpl.
    destruct (split_cons "." key) as (head & tail & Hsplit).
    rewrite Hsplit in IH |- *.
    destruct (Ascii.eqb c ".") eqn:Ec.
    - apply Ascii.eqb_eq in Ec as ->. rewrite join_cons, IH. done.
    - destruct tail as [|next tail].
      + simpl in *. by rewrite IH.
      + rewrite join_cons in IH |- *. rewrite append_cons. by rewrite IH. }
  assert (forall key1 key2 : string,
             split "." key1 = split "." key2 -> key1 = key2) as Hinj.
  { intros key1 key2 Heq. by rewrite <- (Hjoin key1), Heq, Hjoin. }
  split; [|split; [|split]].
  - intros key. split; [|split; [|apply Hjoin]].
    + by destruct (split_cons "." key) as (head & tail & ->).
    + induction key as [|c key IH]; simpl.
      * by intros step ->%list_elem_of_singleton.
      * destruct (split_cons "." key) as (head & tail & Hsplit).
        rewrite Hsplit in IH |- *.
        destruct (Ascii.eqb c ".") eqn:Ec.
        -- intros step [->|Hin]%elem_of_cons; [done|by apply IH].
        -- intros step [->|Hin]%elem_of_cons.
           ++ rewrite contains_char_cons, Ec. apply IH. left.
           ++ apply IH. by right.
  - induction path as [|step path IH]; [done|]. intros _ Hsteps.
    destruct path as [|next path].
    + apply split_without_sep, Hsteps. left.
    + rewrite join_cons.
      change ("." ++ join "." (next :: path))
        with (String "." (join "." (next :: path))).
      rewrite split_app by (apply Hsteps; left).
      f_equal. apply IH; [done|]. intros s Hin. apply Hsteps. by right.
  - exact Hinj.
  - intros json_dumps key1 key2 val Heq. apply Hinj.
    unfold compile_item in Heq.
    destruct val as [|b|m e|s|items|members];
      try destruct (contains_char "*" s); by injection Heq.
Qed.

(** X21. [val.replace("*", "%")] leaves a string without [*] as it is,
    and leaves no [*] in any string: the pattern handed to ILIKE never
    contains the character the caller typed as wildcard, and each of its
    [%] stands where the value had [*] or [%].  A string predicate
    compiles to an ILIKE exactly when its value has a [*], with that
    pattern, and to an equality with the value itself otherwise. *)
Theorem replace_star (s : string) :
  (contains_char "*" s = false -> replace "*" "%" s = s) /\
  contains_char "*" (replace "*" "%" s) = false /\
  (forall i : nat,
      String.get i (replace "*" "%" s) = Some "%"%char <->
      String.get i s = Some "*"%char \/ String.get i s = Some "%"%char) /\
  (forall (json_dumps : json -> string) (key : string),
      compile_item json_dumps key (JStr s)
      = if contains_char "*" s
        then ILike (split "." key) (replace "*" "%" s)
        else EqText (split "." key) s) /\
  (forall (json_dumps : json -> string) (key : string) (path : list string)
          (pattern : string),
      compile_item json_dumps key (JStr s) = ILike path pattern ->
      contains_char "*" s = true /\
      contains_char "*" pattern = false /\
      String.length pattern = String.length s).
Proof.
  assert (contains_char "*" (replace "*" "%" s) = false) as Hnone.
  { induction s as [|c s IH]; [done|]. simpl.
    destruct (Ascii.eqb c "*") eqn:Ec; simpl; [done|].
    by rewrite Ec. }
  split; [|split; [|split; [|split]]].
  - clear Hnone. induction s as [|c s IH]; [done|].
    rewrite contains_char_cons. intros [Hc Hs]%orb_false_iff. simpl.
    by rewrite Hc, (IH Hs).
  - exact Hnone.
  - intros i. rewrite replace_get.
    destruct (String.get i s) as [c|]; simpl; [|naive_solver].
    destruct (Ascii.eqb c "*") eqn:Ec.
    + apply Ascii.eqb_eq in Ec as ->. naive_solver.
    + apply Ascii.eqb_neq in Ec. naive_solver.
  - intros json_dumps key. unfold compile_item.
    by destruct (contains_char "*" s).
  - intros json_dumps key path pattern. unfold compile_item.
    destruct (contains_char "*" s); [|done].
    intros [= _ <-]. split; [done|]. split; [exact Hnone|].
    apply replace_length.
Qed.

(** ** The order of validation errors *)

(** X22. The list [_validate_payload] returns does not depend on the
    order in which the validator yields its errors: two validators whose
    errors for a schema and payload are the same up to order give the
    same list, provided errors with equal [str] renderings report equal
    message and paths. *)
Theorem validate_payload_order_independent
    (iter_errors1 iter_errors2 : dict -> dict -> list ValidationError.t)
    (str : ValidationError.t -> string) (schema payload : dict) :
  iter_errors1 schema payload ≡ₚ iter_errors2 schema payload ->
  (forall e1 e2,
      e1 ∈ iter_errors1 schema payload -> e2 ∈ iter_errors1 schema payload ->
      str e1 = str e2 -> error_dict e1 = error_dict e2) ->
  _validate_payload iter_errors1 str schema payload
  = _validate_payload iter_errors2 str schema payload.
Proof.
  intros Hperm Hstr. unfold _validate_payload.
  set (l1 := iter_errors1 schema payload) in *.
  set (l2 := iter_errors2 schema payload) in *.
  set (f := fun e : ValidationError.t => (str e, error_dict e)).
  set (R := fun a b : string * ErrorDict => String.le a.1 b.1).
  assert (f <$> sorted str l1 = f <$> sorted str l2) as Heq.
  { apply (StronglySorted_unique_strong R).
    - intros x1 x2 (e1 & -> & Hin1)%list_elem_of_fmap
        (e2 & -> & Hin2)%list_elem_of_fmap H12 H21.
      unfold R, f in *. simpl in *.
      assert (str e1 = str e2) as Hs by (by apply (anti_symm String.le)).
      rewrite Hs. f_equal. apply Hstr; [| |done].
      + by rewrite <- (sorted_perm str l1).
      + rewrite Hperm. by rewrite <- (sorted_perm str l2).
    - apply (StronglySorted_fmap _ (key_le str)); [done|apply sorted_sorted].
    - apply (StronglySorted_fmap _ (key_le str)); [done|apply sorted_sorted].
    - by rewrite !sorted_perm, Hperm. }
  assert (forall l : list ValidationError.t,
             map error_dict l = snd <$> (f <$> l)) as Hsnd.
  { intros l. rewrite <- list_fmap_compose. done. }
  by rewrite !Hsnd, Heq.
Qed.

(** ** Properties of the database URL *)

Section EnvironmentProperties.

Variable environ : gmap string string.
Variable quote : string -> string.
Variable int : string -> option Z.

(** A variable that is unset or set to the empty string. *)
Abbreviation unset name := (environ !! name = None \/ environ !! name = Some "").

(** X23. [_first_env] returns the value of the first listed variable
    that is set to a non-empty string, and [None] exactly when every
    listed variable is unset or empty. *)
Theorem first_env_first_non_empty (names : list string) :
  (forall value : string,
      _first_env environ names = Some value <->
      exists (before : list string) (name : string) (after : list string),
        names = (before ++ name :: after)%list /\
        (forall other, other ∈ before -> unset other) /\
        environ !! name = Some value /\ value <> "") /\
  (_first_env environ names = None <-> forall name, name ∈ names -> unset name).
Proof.
  induction names as [|name names [IHsome IHnone]]; simpl.
  - split.
    + intros value. split; [done|]. intros (before & ? & ? & H & _).
      by destruct before.
    + split; [|done]. intros _ name Hin. by apply elem_of_nil in Hin.
  - destruct (environ !! name) as [v|] eqn:E.
    + destruct (String.eqb v "") eqn:Ev.
      * apply String.eqb_eq in Ev as ->. split.
        -- intros value. rewrite IHsome. split.
           ++ intros (before & n & after & -> & Hbefore & Hn & Hv).
              exists (name :: before), n, after. split; [done|].
              split; [|done]. intros other [->|Hin]%elem_of_cons; auto.
           ++ intros (before & n & after & Hnames & Hbefore & Hn & Hv).
              destruct before as [|b before]; simplify_eq/=; try congruence.
              exists before, n, after. split; [done|]. split; [|done].
              intros other Hin. apply Hbefore. by right.
        -- rewrite IHnone. split.
           ++ intros Hall n [->|Hin]%elem_of_cons; auto.
           ++ intros Hall n Hin. apply Hall. by right.
      * apply String.eqb_neq in Ev. split.
        -- intros value. split.
           ++ intros [= <-]. exists [], name, names. split; [done|].
              split; [|done]. intros other Hin. by apply elem_of_nil in Hin.
           ++ intros (before & n & after & Hnames & Hbefore & Hn & Hv).
              destruct before as [|b before]; simplify_eq/=; try congruence.
              destruct (Hbefore b) as [H|H]; [left|congruence|congruence].
        -- split; [done|]. intros Hall.
           destruct (Hall name) as [H|H]; [left|congruence|congruence].
    + split.
      * intros value. rewrite IHsome. split.
        -- intros (before & n & after & -> & Hbefore & Hn & Hv).
           exists (name :: before), n, after. split; [done|].
           split; [|done]. intros other [->|Hin]%elem_of_cons; auto.
        -- intros (before & n & after & Hnames & Hbefore & Hn & Hv).
           destruct before as [|b before]; simplify_eq/=; try congruence.
           exists before, n, after. split; [done|]. split; [|done].
           intros other Hin. apply Hbefore. by right.
      * rewrite IHnone. split.
        -- intros Hall n [->|Hin]%elem_of_cons; auto.
        -- intros Hall n Hin. apply Hall. by right.
Qed.

Lemma first_env_single (name : string) :
  _first_env environ [name] =
  match environ !! name with
  | Some value => if String.eqb value "" then None else Some value
  | None => None
  end.
Proof. simpl. by destruct (environ !! name) as [v|]; [destruct (String.eqb v "")|]. Qed.

(** X24. A non-empty [DATABASE_URL] is returned as it is, whatever the
    other variables hold, a malformed [DATABASE_PORT] included. *)
Theorem database_url_explicit (url : string) :
  environ !! "DATABASE_URL" = Some url -> url <> "" ->
  _database_url environ quote int = EnvReturn url.
Proof.
  intros Hurl Hne. unfold _database_url. rewrite first_env_single, Hurl.
  by apply String.eqb_neq in Hne as ->.
Qed.

(** X25. Without [DATABASE_URL], a port that [int] rejects raises
    "DATABASE_PORT must be an integer" even when required variables are
    missing too; the port read is [5432] when [DATABASE_PORT] is unset or
    empty; and with a valid port a URL is returned exactly when host,
    user, password and database name are each found under one of their
    names, the user, password and name being quoted and the host not. *)
Theorem database_url_split :
  unset "DATABASE_URL" ->
  let port_raw := default "5432" (_first_env environ ["DATABASE_PORT"]) in
  (unset "DATABASE_PORT" -> port_raw = "5432") /\
  (int port_raw = None ->
   _database_url environ quote int
   = RuntimeError "DATABASE_PORT must be an integer") /\
  (forall port : Z,
      int port_raw = Some port ->
      forall url : string,
        _database_url environ quote int = EnvReturn url <->
        exists host user password dbname,
          _first_env environ ["DATABASE_HOST"] = Some host /\
          _first_env environ ["DATABASE_USER"; "POSTGRES_USER"] = Some user /\
          _first_env environ
            ["DATABASE_PASSWORD"; "DATABASE_PASS"; "POSTGRES_PASSWORD"]
          = Some password /\
          _first_env environ ["DATABASE_NAME"; "POSTGRES_DB"] = Some dbname /\
          url = default "postgresql+psycopg" (environ !! "DATABASE_DRIVER")
                ++ "://" ++ quote user ++ ":" ++ quote password
                ++ "@" ++ host ++ ":" ++ pretty.pretty port
                ++ "/" ++ quote dbname).
Proof.
  intros Hurl port_raw.
  assert (_first_env environ ["DATABASE_URL"] = None) as Hexplicit.
  { rewrite first_env_single. by destruct Hurl as [-> | ->]. }
  split; [|split].
  - intros Hport. unfold port_raw. rewrite first_env_single.
    by destruct Hport as [-> | ->].
  - intros Hint. unfold _database_url. rewrite Hexplicit.
    fold port_raw. by rewrite Hint.
  - intros port Hint url. unfold _database_url. rewrite Hexplicit.
    fold port_raw. rewrite Hint.
    destruct (_first_env environ ["DATABASE_HOST"]) as [host|];
      [|split; [done|by intros (? & ? & ? & ? & ? & _)]].
    destruct (_first_env environ ["DATABASE_USER"; "POSTGRES_USER"]) as [user|];
      [|split; [done|by intros (? & ? & ? & ? & _ & ? & _)]].
    destruct (_first_env environ
                ["DATABASE_PASSWORD"; "DATABASE_PASS"; "POSTGRES_PASSWORD"])
      as [password|];
      [|split; [done|by intros (? & ? & ? & ? & _ & _ & ? & _)]].
    destruct (_first_env environ ["DATABASE_NAME"; "POSTGRES_DB"]) as [dbname|];
      [|split; [done|by intros (? & ? & ? & ? & _ & _ & _ & ? & _)]].
    split.
    + intros [= <-]. by exists host, user, password, dbname.
    + intros (? & ? & ? & ? & [= <-] & [= <-] & [= <-] & [= <-] & ->). done.
Qed.

End EnvironmentProperties.

(** ** Decimal numerals *)


Lemma append_assoc (s1 s2 s3 : string) : (s1 ++ s2) ++ s3 = s1 ++ s2 ++ s3.
Proof.
  induction s1 as [|c s1 IH]; [done|]. by rewrite !append_cons, IH.
Qed.

Lemma length_append (s1 s2 : string) :
  String.length (s1 ++ s2) = (String.length s1 + String.length s2)%nat.
Proof.
  induction s1 as [|c s1 IH]; [done|]. rewrite append_cons. simpl.
  by rewrite IH.
Qed.

Lemma all_digits_append (s1 s2 : string) :
  all_digits (s1 ++ s2) = all_digits s1 && all_digits s2.
Proof.
  induction s1 as [|c s1 IH]; [done|]. rewrite append_cons. simpl.
  by rewrite IH, andb_assoc.
Qed.

Lemma digits_value_append (s1 s2 : string) (acc : Z) :
  digits_value (s1 ++ s2) acc = digits_value s2 (digits_value s1 acc).
Proof.
  revert acc. induction s1 as [|c s1 IH]; intros acc; [done|].
  rewrite append_cons. simpl. apply IH.
Qed.












(** ** The properties on the sample data *)

(** The sample graph satisfies the constraints of the schema. *)
Lemma graph_world_constraints : constraints_hold (db Sample.graph_world).
Proof.
  unfold constraints_hold. simpl.
  split.
  { intros id node Hnode.
    apply lookup_insert_Some in Hnode as [[<- <-]|[_ Hnode]].
    - eexists; vm_compute; reflexivity.
    - apply lookup_singleton_Some in Hnode as [<- <-].
      eexists; vm_compute; reflexivity. }
  split.
  { intros f t r Hin%elem_of_singleton. injection Hin as -> -> ->.
    split; eexists; vm_compute; reflexivity. }
  split.
  { intros f t r c [Hkey _]%lookup_singleton_Some.
    injection Hkey as <- <- <-.
    split; eexists; vm_compute; reflexivity. }
  split.
  { intros id att [<- <-]%lookup_singleton_Some.
    eexists; vm_compute; reflexivity. }
  intros id1 id2 att1 att2 [<- _]%lookup_singleton_Some
    [<- _]%lookup_singleton_Some _.
  reflexivity.
Qed.

(** Its one edge instantiates its one edge kind. *)
Lemma graph_world_edges_allowed : edges_allowed (db Sample.graph_world).
Proof.
  unfold edges_allowed. simpl.
  intros f t r c fnode tnode [Hkey _]%lookup_singleton_Some.
  injection Hkey as <- <- <-.
  intros Hf Ht. vm_compute in Hf, Ht.
  injection Hf as <-. injection Ht as <-. simpl.
  by apply elem_of_singleton.
Qed.

(** The sample person satisfies the person schema. *)
Lemma person_world_constraints : constraints_hold (db Sample.person_world).
Proof.
  unfold constraints_hold. simpl.
  split.
  { intros id node [<- <-]%lookup_singleton_Some.
    eexists; vm_compute; reflexivity. }
  split; [intros f t r Hin; by apply elem_of_empty in Hin|].
  split; [intros f t r c Hin; by rewrite lookup_empty in Hin|].
  split; [intros id att Hin; by rewrite lookup_empty in Hin|].
  intros id1 id2 att1 att2 Hin. by rewrite lookup_empty in Hin.
Qed.

Lemma person_world_payloads_valid :
  payloads_valid Sample.iter_errors (db Sample.person_world).
Proof.
  unfold payloads_valid. simpl.
  intros id node schema [<- <-]%lookup_singleton_Some Hschema.
  vm_compute in Hschema. injection Hschema as <-.
  vm_compute. reflexivity.
Qed.

Lemma delete_kind_cascades_witness :
  exists w' : World,
    delete_kind "b" Scenario.catalog_world = (Return ok_true, w') /\
    kinds (db w') !! "b" = None /\
    (("a", "b", "link") ∉ edges_kinds (db w')) /\
    (("b", "c", "next") ∉ edges_kinds (db w')).
Proof.
  destruct (delete_kind "b" Scenario.catalog_world) as [r w'] eqn:Hrun.
  assert (Hok : r = Return ok_true).
  { apply (f_equal fst) in Hrun. vm_compute in Hrun. by symmetry. }
  subst r. exists w'.
  destruct (delete_kind_cascades "b" Scenario.catalog_world w' Hrun)
    as (Hgone & _ & Hkinds & _).
  split; [reflexivity|]. split; [exact Hgone|].
  split; intros Hin%Hkinds; destruct Hin as (_ & Hf & Ht); congruence.
Defined.

Lemma create_attachment_stores_witness :
  exists (out : AttachmentOut.t) (w' : World),
    create_attachment Scenario.uuid_str Scenario.path_name
      Sample.unlink_raises 2%N
      (mkUploadFile None (Some "notes.txt")) (Some "")
      (mkAttachmentDefaults 6%N 60) Sample.graph_world = (Return out, w') /\
    get_attachment 6%N w' = (Return out, w') /\
    AttachmentOut.mime_type out = "application/octet-stream" /\
    AttachmentOut.name out = "notes.txt" /\
    "2/6" ∈ files w' /\ "1/5" ∈ files w'.
Proof.
  destruct (create_attachment_stores Scenario.uuid_str Scenario.path_name
              Sample.unlink_raises 2%N
              (mkUploadFile None (Some "notes.txt")) (Some "")
              (mkAttachmentDefaults 6%N 60) Sample.graph_world)
    as (out & att & w' & Hrun & Hget & _ & _ & _ & _ & _ & _ & Hmime & _
        & Hname & _ & Hfiles & _).
  - eexists. vm_compute. reflexivity.
  - vm_compute. reflexivity.
  - intros id att Hatt Heq. simpl in Hatt.
    apply lookup_singleton_Some in Hatt as [_ <-].
    vm_compute in Heq. discriminate Heq.
  - exists out, w'.
    split; [exact Hrun|]. split; [exact Hget|]. split; [exact Hmime|].
    split; [exact (Hname (or_intror eq_refl))|].
    rewrite Hfiles. split; apply elem_of_union.
    + right. apply elem_of_singleton. vm_compute. reflexivity.
    + left. vm_compute. reflexivity.
Defined.

Lemma list_attachments_exact_witness :
  exists found : list AttachmentOut.t,
    list_attachments 1%N Sample.graph_world = (Return found, Sample.graph_world) /\
    NoDup (map AttachmentOut.id found).
Proof.
  destruct (list_attachments_exact 1%N Sample.graph_world)
    as (found & Hrun & Hnd & _).
  - eexists. vm_compute. reflexivity.
  - exists found. exact (conj Hrun Hnd).
Defined.

Lemma endpoints_keep_constraints_witness :
  constraints_hold
    (db (delete_node Sample.unlink_raises 1%N Sample.graph_world).2) /\
  constraints_hold (db (delete_kind "a" Sample.graph_world).2).
Proof.
  pose proof (endpoints_keep_constraints Sample.iter_errors Sample.str
                Sample.jsonb_error Scenario.uuid_str Scenario.path_name
                Sample.unlink_raises
                Sample.graph_world graph_world_constraints)
    as (_ & Hkind & _ & _ & _ & _ & Hnode & _).
  exact (conj (Hnode 1%N) (Hkind "a")).
Defined.

Lemma endpoints_keep_edges_allowed_witness :
  edges_allowed
    (db (delete_edges_kind "a" "b" "link" Sample.graph_world).2) /\
  edges_allowed
    (db (create_edge (mkEdgeCreate 2%N 1%N "link") 70 Sample.graph_world).2).
Proof.
  pose proof (endpoints_keep_edges_allowed Sample.iter_errors Sample.str
                Sample.jsonb_error Scenario.uuid_str Scenario.path_name
                Sample.unlink_raises
                Sample.graph_world graph_world_constraints
                graph_world_edges_allowed)
    as (_ & _ & _ & Hkind & _ & _ & _ & Hedge & _).
  exact (conj (Hkind "a" "b" "link") (Hedge (mkEdgeCreate 2%N 1%N "link") 70)).
Defined.

Lemma endpoints_keep_payloads_valid_witness :
  payloads_valid Sample.iter_errors
    (db (update_node Sample.iter_errors Sample.str 7%N
           (mkNodeUpdate Sample.ada_inactive) Sample.person_world).2) /\
  payloads_valid Sample.iter_errors
    (db (update_node Sample.iter_errors Sample.str 7%N
           (mkNodeUpdate []) Sample.person_world).2).
Proof.
  pose proof (endpoints_keep_payloads_valid Sample.iter_errors Sample.str
                Sample.jsonb_error Scenario.uuid_str Scenario.path_name
                Sample.unlink_raises
                Sample.person_world person_world_constraints
                person_world_payloads_valid)
    as (_ & _ & _ & _ & _ & Hupdate & _).
  exact (conj (Hupdate 7%N (mkNodeUpdate Sample.ada_inactive))
              (Hupdate 7%N (mkNodeUpdate []))).
Defined.

Lemma search_unlimited_exact_witness :
  let found :=
    [node_out 1%N
       (Node.mk "note"
          [("a", JObj [("b", JStr "xxFOOyy")]); ("n", JNum 36 0)] 1 1)] in
  NoDup (map NodeOut.id found) /\
  forall out : NodeOut.t,
    out ∈ found ->
    get_node (NodeOut.id out) Sample.search_world
    = (Return out, Sample.search_world).
Proof.
  intros found.
  destruct (search_unlimited_exact (fun _ => "") (fun _ => "") None
              [("a.b", JStr "*foo*")] Sample.search_world Sample.search_world
              found)
    as (_ & Hnd & Hall).
  - vm_compute. reflexivity.
  - split; [exact Hnd|].
    intros out Hin. apply Hall in Hin as (node & Hget & _). exact Hget.
Defined.

Lemma search_limit_prefix_witness :
  let all := map (fun row => node_out row.1 row.2)
                 (map_to_list (nodes (db Sample.search_world))) in
  search_nodes (fun _ => "") (fun _ => "")
    (mkSearchDatamodel None [] (Some 2)) Sample.search_world
  = (Return (take 2 all), Sample.search_world) /\
  search_nodes (fun _ => "") (fun _ => "")
    (mkSearchDatamodel None [] (Some (-1))) Sample.search_world
  = (Raise DataError, Sample.search_world).
Proof.
  intros all.
  assert (Hrun : search_nodes (fun _ => "") (fun _ => "")
                   (mkSearchDatamodel None [] None) Sample.search_world
                 = (Return all, Sample.search_world))
    by (vm_compute; reflexivity).
  pose proof (search_limit_prefix (fun _ => "") (fun _ => "") None []
                Sample.search_world all Hrun) as Hlimit.
  split.
  - exact (proj1 (Hlimit 2)).
  - exact (Hlimit (-1)).
Defined.

Lemma validate_payload_order_independent_witness :
  _validate_payload Sample.iter_errors Sample.str Sample.person_schema []
  = _validate_payload Scenario.iter_errors_reversed Sample.str
      Sample.person_schema [].
Proof.
  apply validate_payload_order_independent.
  - apply Permutation_rev.
  - intros e1 e2 H1 H2 Hstr.
    vm_compute in H1, H2.
    apply elem_of_cons in H1 as [->|H1]; apply elem_of_cons in H2 as [->|H2];
      try reflexivity;
      try (apply elem_of_cons in H1 as [->|H1]);
      try (apply elem_of_cons in H2 as [->|H2]);
      try reflexivity; try discriminate Hstr;
      try (by apply elem_of_nil in H1); try (by apply elem_of_nil in H2).
Defined.

Lemma database_url_explicit_witness :
  _database_url Scenario.explicit_environ Scenario.quote Scenario.int
  = EnvReturn "postgresql+psycopg://u:p@db:5432/graph".
Proof.
  apply database_url_explicit.
  - vm_compute. reflexivity.
  - discriminate.
Defined.

Lemma database_url_split_witness :
  default "5432" (_first_env Scenario.split_environ ["DATABASE_PORT"])
  = "5432" /\
  exists url : string,
    _database_url Scenario.split_environ Scenario.quote Scenario.int
    = EnvReturn url.
Proof.
  destruct (database_url_split Scenario.split_environ Scenario.quote
              Scenario.int) as (Hport & _ & Hurl).
  - right. vm_compute. reflexivity.
  - split.
    + apply Hport. left. vm_compute. reflexivity.
    + eexists. apply (Hurl 5432).
      * vm_compute. reflexivity.
      * exists "db", "graph", "secret", "rhyolite".
        vm_compute. repeat split; reflexivity.
Defined.

(** ** Search predicates against the stored payload *)












Lemma assoc_member (key : string) (members : list (string * json)) (v : json) :
  assoc key members = Some v <-> member key v members.
Proof.
  unfold member. induction members as [|[k x] members IH]; simpl.
  - split; [done|]. intros (before & after & H & _). by destruct before.
  - destruct (String.eqb k key) eqn:E.
    + apply String.eqb_eq in E as ->. split.
      * intros [= ->]. exists [], members. split; [done|]. apply not_elem_of_nil.
      * intros (before & after & H & Hfresh).
        destruct before as [|[k' x'] before]; simpl in *.
        -- by injection H as ->.
        -- injection H as -> -> ->. exfalso. apply Hfresh. left.
    + apply String.eqb_neq in E. rewrite IH. split.
      * intros (before & after & -> & Hfresh).
        exists ((k, x) :: before), after. split; [done|]. simpl.
        intros [->|Hin]%elem_of_cons; done.
      * intros (before & after & H & Hfresh).
        destruct before as [|[k' x'] before]; simpl in *.
        -- injection H as -> -> ->. done.
        -- injection H as -> -> ->. exists before, after. split; [done|].
           intros Hin. apply Hfresh. by right.
Qed.

Lemma array_element_spec (items : list json) (index : Z) (v : json) :
  array_element items index = Some v <-> element index v items.
Proof.
  unfold array_element, element.
  destruct (0 <=? index) eqn:E.
  - apply Z.leb_le in E. split; [by left|]. intros [[_ H]|[H _]]; [done|lia].
  - apply Z.leb_gt in E.
    destruct (Z.of_nat (length items) <? - index) eqn:E2.
    + apply Z.ltb_lt in E2. split; [done|]. intros [[H _]|(_ & H & _)]; lia.
    + apply Z.ltb_ge in E2. split.
      * intros H. right. by repeat split.
      * intros [[H _]|(_ & _ & H)]; [lia|done].
Qed.

(** [jsonb_extract_path] finds what the path leads to. *)
Lemma at_path_spec (path : list string) (value found : json) :
  jsonb_extract_path value path = Some found <-> at_path value path found.
Proof.
  revert value. induction path as [|step path IH]; intros value.
  - simpl. split.
    + intros [= ->]. constructor.
    + intros H. by inversion H.
  - split.
    + destruct value as [| | | |items|members]; simpl; try done.
      * destruct (parse_index step) as [index|] eqn:Ei; [|done].
        destruct (array_element items index) as [v|] eqn:Ea; [|done].
        intros H. apply (at_path_element _ _ index v); [done| |by apply IH].
        by apply array_element_spec.
      * destruct (assoc step members) as [v|] eqn:Em; [|done].
        intros H. apply (at_path_member _ _ v); [|by apply IH].
        by apply assoc_member.
    + intros H.
      inversion H as [|members key v p f Hm Hp|items s index v p f Hi He Hp];
        subst; simpl.
      * apply assoc_member in Hm. rewrite Hm. by apply IH.
      * rewrite Hi. apply array_element_spec in He. rewrite He. by apply IH.
Qed.



Section Extraction.

Variable jsonb_container_out : json -> string.

(** [jsonb_extract_path_text] gives the text of what the path leads to,
    and SQL NULL when that is [null] or nothing. *)
Lemma extract_text_spec (payload : dict) (path : list string) (text : string) :
  jsonb_extract_path_text jsonb_container_out payload path = Some text <->
  exists v : json,
    at_path (JObj payload) path v /\ rendered jsonb_container_out v text.
Proof.
  unfold jsonb_extract_path_text. split.
  - destruct (jsonb_extract_path (JObj payload) path) as [v|] eqn:E; [|done].
    apply at_path_spec in E.
    destruct v as [|[]|m e|s|items|members]; try done;
      intros [= <-]; eexists; (split; [exact E|constructor]).
  - intros (v & Hv & Hr). apply at_path_spec in Hv. rewrite Hv.
    by destruct Hr.
Qed.


End Extraction.












Section SearchRuns.

Variable json_dumps : json -> string.
Variable jsonb_container_out : json -> string.



End SearchRuns.


Section PredicateProperties.

Variable json_dumps : json -> string.
Variable jsonb_container_out : json -> string.

Abbreviation translate := (compile_item json_dumps).
Abbreviation text_at := (jsonb_extract_path_text jsonb_container_out).
Abbreviation value_of := (eval_clause jsonb_container_out).
Abbreviation holds := (matches jsonb_container_out).
Abbreviation passes := (where_ jsonb_container_out).
Abbreviation find := (search_nodes json_dumps jsonb_container_out).
Abbreviation shown := (rendered jsonb_container_out).







(** X26. A boolean predicate on a path that leads to a stored boolean,
    and a string predicate without [*] on a path that leads to a stored
    string, never raise and compare by value: the predicate is true
    exactly when the two booleans are equal, and exactly when the two
    strings are equal, letter case included. *)
Theorem typed_predicate_on_stored_scalar (key : string) (node : Node.t) :
  (forall b val : bool,
      at_path (JObj (Node.payload node)) (split "." key) (JBool b) ->
      value_of (translate key (JBool val)) node
      = Return (Some (Bool.eqb b val)) /\
      (holds (translate key (JBool val)) node <-> b = val)) /\
  (forall s val : string,
      at_path (JObj (Node.payload node)) (split "." key) (JStr s) ->
      contains_char "*" val = false ->
      value_of (translate key (JStr val)) node
      = Return (Some (String.eqb s val)) /\
      (holds (translate key (JStr val)) node <-> s = val)).
Proof.
  split.
  - intros b val Hb.
    assert (text_at (Node.payload node) (split "." key)
            = Some (if b then "true" else "false")) as Htext.
    { apply extract_text_spec. exists (JBool b). split; [done|].
      destruct b; constructor. }
    assert (value_of (translate key (JBool val)) node
            = Return (Some (Bool.eqb b val))) as Heval.
    { simpl. rewrite Htext. by destruct b. }
    split; [done|]. unfold matches. rewrite Heval. split.
    + intros [= H]. by apply Bool.eqb_prop.
    + intros ->. by rewrite Bool.eqb_reflx.
  - intros s val Hs Hplain.
    assert (text_at (Node.payload node) (split "." key) = Some s) as Htext.
    { apply extract_text_spec. exists (JStr s). split; [done|]. constructor. }
    assert (value_of (translate key (JStr val)) node
            = Return (Some (String.eqb s val))) as Heval.
    { unfold compile_item. rewrite Hplain. simpl. by rewrite Htext. }
    split; [done|]. unfold matches. rewrite Heval. split.
    + intros [= H]. by apply String.eqb_eq.
    + intros ->. by rewrite String.eqb_refl.
Qed.

End PredicateProperties.
